(** * Wayfinder: spawn / combat coordination core

    A shallow embedding of the TypeScript sources

      - [monsters/Monster.ts], [monsters/Goblin.ts]
      - [attacks/Attack.ts], [attacks/AxeHackAttack.ts]
      - [spawning/SpawnManager.ts]
      - [scenes/Game.ts] (combat resolution)

    JavaScript has one [number] type.  The embedding refines it by use:
    hit points, damage amounts and millisecond clocks are integers ([Z]);
    positions, velocities, speeds and angles are idealised as real numbers
    ([R]) because the code takes square roots and quotients of them.
    Counts that only bound a [for] loop are natural numbers.

    Division is the only arithmetic operation of the code whose result is
    not a proper number on every input (a zero divisor yields NaN or an
    infinity).  It is embedded as the partial operation [div] in the option
    monad, so that "no division by zero happens" is the statement that a
    function returns [Some]. *)

From Stdlib Require Import Reals Lra ZArith Lia List Bool.
From stdpp Require Import gmap strings.

Local Open Scope Z_scope.

(** ** Numbers *)

(** [a / b] of the source, defined only for a non-zero divisor. *)
Definition div (a b : R) : option R :=
  if Req_dec_T b 0 then None else Some (a / b)%R.

(** [a < b] on reals as a boolean, for [if] conditions of the source. *)
Definition Rltb (a b : R) : bool := if Rlt_dec a b then true else false.

(** [a !== b] on reals. *)
Definition Rneqb (a b : R) : bool := if Req_dec_T a b then false else true.

(** ** The engine's sprite *)

(** Modelled from the spec: the engine's sprite ("a positioned, scaled,
    depth-ordered visual actor with a texture key" whose position,
    velocity, rotation, flip and tint can be set and read), which is not
    part of the sources.  Only the fields the core reads or writes.  [sid]
    stands for the identity of the JavaScript object; [data] is the
    sprite's data manager restricted to the keys the game stores in it
    (see [hitKey] below). *)

Record Sprite := mkSprite {
  sid : nat;
  sprite_x : R;
  sprite_y : R;
  velocityX : R;
  velocityY : R;
  rotation : R;
  flipX : bool;
  tint : option Z;
  sprite_scale : R;
  depth : Z;
  texture : string;
  active : bool;
  data : list (R * R)
}.

Definition setVelocity (vx vy : R) (s : Sprite) : Sprite :=
  mkSprite (sid s) (sprite_x s) (sprite_y s) vx vy (rotation s) (flipX s)
           (tint s) (sprite_scale s) (depth s) (texture s) (active s) (data s).

Definition setFlipX (b : bool) (s : Sprite) : Sprite :=
  mkSprite (sid s) (sprite_x s) (sprite_y s) (velocityX s) (velocityY s)
           (rotation s) b (tint s) (sprite_scale s) (depth s) (texture s)
           (active s) (data s).

Definition setTint (c : Z) (s : Sprite) : Sprite :=
  mkSprite (sid s) (sprite_x s) (sprite_y s) (velocityX s) (velocityY s)
           (rotation s) (flipX s) (Some c) (sprite_scale s) (depth s)
           (texture s) (active s) (data s).

Definition clearTint (s : Sprite) : Sprite :=
  mkSprite (sid s) (sprite_x s) (sprite_y s) (velocityX s) (velocityY s)
           (rotation s) (flipX s) None (sprite_scale s) (depth s)
           (texture s) (active s) (data s).

Definition setPosition (x y : R) (s : Sprite) : Sprite :=
  mkSprite (sid s) x y (velocityX s) (velocityY s) (rotation s) (flipX s)
           (tint s) (sprite_scale s) (depth s) (texture s) (active s) (data s).

Definition setRotation (r : R) (s : Sprite) : Sprite :=
  mkSprite (sid s) (sprite_x s) (sprite_y s) (velocityX s) (velocityY s) r
           (flipX s) (tint s) (sprite_scale s) (depth s) (texture s)
           (active s) (data s).

Definition setData (k : R * R) (s : Sprite) : Sprite :=
  mkSprite (sid s) (sprite_x s) (sprite_y s) (velocityX s) (velocityY s)
           (rotation s) (flipX s) (tint s) (sprite_scale s) (depth s)
           (texture s) (active s) (k :: data s).

(** [sprite.destroy()]: the engine deactivates the object. *)
Definition destroySprite (s : Sprite) : Sprite :=
  mkSprite (sid s) (sprite_x s) (sprite_y s) (velocityX s) (velocityY s)
           (rotation s) (flipX s) (tint s) (sprite_scale s) (depth s)
           (texture s) false (data s).

(** [scene.physics.add.sprite(x, y, key)] / [scene.add.sprite(x, y, key)]. *)
Definition newSprite (id : nat) (x y : R) (key : string) : Sprite :=
  mkSprite id x y 0 0 0 false None 1 0 key true [].

Definition setScale (k : R) (s : Sprite) : Sprite :=
  mkSprite (sid s) (sprite_x s) (sprite_y s) (velocityX s) (velocityY s)
           (rotation s) (flipX s) (tint s) k (depth s) (texture s)
           (active s) (data s).

Definition setDepth (d : Z) (s : Sprite) : Sprite :=
  mkSprite (sid s) (sprite_x s) (sprite_y s) (velocityX s) (velocityY s)
           (rotation s) (flipX s) (tint s) (sprite_scale s) d (texture s)
           (active s) (data s).

(** ** Monster.ts *)

Module Monster.

Record MonsterConfig := mkMonsterConfig {
  maxHealth : Z;
  speed : R;
  damage : Z;
  spriteKey : string;
  scale : R;
  knockbackForce : R;
  attackCooldown : Z
}.

(** Requests a monster hands to its scene and that the scene runs later:
    [scene.time.delayedCall(100, clear tint)] and the death tween whose
    [onComplete] destroys the monster. *)
Inductive SceneCall :=
| ClearTintAfter (ms : Z)
| DeathTween (duration : Z).

Record Monster := mkMonster {
  config : MonsterConfig;
  currentHealth : Z;
  lastAttackTime : Z;
  isAlive : bool;
  sprite : Sprite;
  scheduled : list SceneCall
}.

(** The constructor.  The [target] field of the source is a reference to
    the player's sprite, which the scene moves; the methods that read it
    take the sprite's current state as their [target] argument.  The back
    reference [monsterRef] from the sprite to its monster is the pairing of
    the two in the record. *)
Definition new (id : nat) (x y : R) (cfg : MonsterConfig) : Monster :=
  mkMonster cfg (maxHealth cfg) 0 true
            (setDepth 4 (setScale (scale cfg) (newSprite id x y (spriteKey cfg))))
            [].

Definition with_sprite (s : Sprite) (m : Monster) : Monster :=
  mkMonster (config m) (currentHealth m) (lastAttackTime m) (isAlive m) s
            (scheduled m).

Definition moveTowardsTarget (target : Sprite) (m : Monster) : option Monster :=
  let dx := (sprite_x target - sprite_x (sprite m))%R in
  let dy := (sprite_y target - sprite_y (sprite m))%R in
  let distance := sqrt (dx * dx + dy * dy) in
  if Rltb 0 distance then
    ux ← div dx distance;
    uy ← div dy distance;
    let velocityX := (ux * speed (config m))%R in
    let velocityY := (uy * speed (config m))%R in
    let s := setVelocity velocityX velocityY (sprite m) in
    Some (with_sprite (if Rltb dx 0 then setFlipX true s else setFlipX false s) m)
  else Some m.

Definition update (target : Sprite) (m : Monster) : option Monster :=
  if negb (isAlive m) || negb (active (sprite m)) then Some m
  else moveTowardsTarget target m.

Definition applyKnockback (target : Sprite) (m : Monster) : option Monster :=
  let dx := (sprite_x (sprite m) - sprite_x target)%R in
  let dy := (sprite_y (sprite m) - sprite_y target)%R in
  let distance := sqrt (dx * dx + dy * dy) in
  if Rltb 0 distance then
    ux ← div dx distance;
    uy ← div dy distance;
    let knockbackX := (ux * knockbackForce (config m))%R in
    let knockbackY := (uy * knockbackForce (config m))%R in
    Some (with_sprite (setVelocity knockbackX knockbackY (sprite m)) m)
  else Some m.

Definition destroy (m : Monster) : Monster :=
  mkMonster (config m) (currentHealth m) (lastAttackTime m) false
            (destroySprite (sprite m)) (scheduled m).

Definition die (m : Monster) : Monster :=
  mkMonster (config m) (currentHealth m) (lastAttackTime m) false (sprite m)
            (scheduled m ++ [DeathTween 200]).

Definition takeDamage (target : Sprite) (amount : Z) (m : Monster)
  : option Monster :=
  if negb (isAlive m) then Some m
  else
    let m1 :=
      mkMonster (config m) (currentHealth m - amount) (lastAttackTime m)
                (isAlive m) (setTint 0xff0000 (sprite m))
                (scheduled m ++ [ClearTintAfter 100]) in
    m2 ← applyKnockback target m1;
    if currentHealth m2 <=? 0 then Some (die m2) else Some m2.

(** The callback of the delayed call made by [takeDamage]. *)
Definition clearTintCallback (m : Monster) : Monster :=
  if active (sprite m) then with_sprite (clearTint (sprite m)) m else m.

(** [onComplete] of the death tween. *)
Definition deathTweenComplete (m : Monster) : Monster := destroy m.

Definition canDealDamage (time : Z) (m : Monster) : bool * Monster :=
  if time - lastAttackTime m >=? attackCooldown (config m) then
    (true,
     mkMonster (config m) (currentHealth m) time (isAlive m) (sprite m)
               (scheduled m))
  else (false, m).

Definition getDamage (m : Monster) : Z := damage (config m).
Definition getSprite (m : Monster) : Sprite := sprite m.
Definition getIsAlive (m : Monster) : bool := isAlive m.

End Monster.

(** ** Goblin.ts *)

Module Goblin.

(** [GoblinConfig extends Partial<MonsterConfig>]: every field optional. *)
Record GoblinConfig := mkGoblinConfig {
  maxHealth : option Z;
  speed : option R;
  damage : option Z;
  spriteKey : option string;
  scale : option R;
  knockbackForce : option R;
  attackCooldown : option Z
}.

Definition empty : GoblinConfig :=
  mkGoblinConfig None None None None None None None.

Definition DEFAULT_GOBLIN_CONFIG : Monster.MonsterConfig :=
  Monster.mkMonsterConfig 50 80 10 "goblin" (3 / 2) 200 1000.

(** The object spread [{ ...DEFAULT_GOBLIN_CONFIG, ...config }]. *)
Definition spread (d : Monster.MonsterConfig) (c : GoblinConfig)
  : Monster.MonsterConfig :=
  Monster.mkMonsterConfig
    (default (Monster.maxHealth d) (maxHealth c))
    (default (Monster.speed d) (speed c))
    (default (Monster.damage d) (damage c))
    (default (Monster.spriteKey d) (spriteKey c))
    (default (Monster.scale d) (scale c))
    (default (Monster.knockbackForce d) (knockbackForce c))
    (default (Monster.attackCooldown d) (attackCooldown c)).

(** The constructor; an absent [config] argument defaults to [{}]. *)
Definition new (id : nat) (x y : R) (config : option GoblinConfig)
  : Monster.Monster :=
  let fullConfig := spread DEFAULT_GOBLIN_CONFIG (default empty config) in
  Monster.new id x y fullConfig.

End Goblin.

(** ** Attack.ts and AxeHackAttack.ts *)

Module Attack.

(** [AxeHackConfig extends AttackConfig].  The constructor stores one and
    the same object in [config] and in [axeConfig], so one record models
    both views. *)
Record AxeHackConfig := mkAxeHackConfig {
  damage : Z;
  interval : Z;
  duration : Z;
  scale : R;
  spriteKey : string;
  offsetDistance : R;
  swingArc : R;
  swingSpeed : Z
}.

Definition DEFAULT_AXE_HACK_CONFIG : AxeHackConfig :=
  mkAxeHackConfig 25 2000 300 2 "slash" 40 90 200.

Record AttackDirection := mkDirection { dir_x : R; dir_y : R }.

(** Requests handed to the scene by [execute]: the swing tween, the fade
    tween and the delayed clean-up of the sprite with the given identity. *)
Inductive SceneCall :=
| SwingTween (sprite : nat) (endAngle : R) (duration : Z)
| FadeTween (sprite : nat) (duration : Z) (delay : R)
| DestroyAfter (sprite : nat) (ms : Z).

Record Attack := mkAttack {
  config : AxeHackConfig;
  lastAttackTime : Z;
  currentDirection : AttackDirection;
  activeAttacks : list Sprite;
  scheduled : list SceneCall
}.

(** The constructor: the field initialisers of [Attack]. *)
Definition new (cfg : AxeHackConfig) : Attack :=
  mkAttack cfg 0 (mkDirection 1 0) [] [].

Definition updateDirection (velocityX velocityY : R) (a : Attack)
  : option Attack :=
  if Rneqb velocityX 0 || Rneqb velocityY 0 then
    let length := sqrt (velocityX * velocityX + velocityY * velocityY) in
    x ← div velocityX length;
    y ← div velocityY length;
    Some (mkAttack (config a) (lastAttackTime a) (mkDirection x y)
                   (activeAttacks a) (scheduled a))
  else Some a.

(** [Math.atan2(y, x)]. *)
Definition atan2 (y x : R) : R :=
  if Rltb 0 x then atan (y / x)
  else if Rltb x 0 then
    (if Rltb y 0 then atan (y / x) - PI else atan (y / x) + PI)
  else if Rltb 0 y then PI / 2
  else if Rltb y 0 then - (PI / 2)
  else 0.

Definition getRotationFromDirection (a : Attack) : R :=
  atan2 (dir_y (currentDirection a)) (dir_x (currentDirection a)).

(** [Phaser.Math.DegToRad]. *)
Definition DegToRad (degrees : R) : R := (degrees * (PI / 180))%R.

(** [AxeHackAttack.execute].  [id] is the identity of the sprite object the
    scene creates; [player] is the player's sprite at the time of the call. *)
Definition execute (id : nat) (player : Sprite) (a : Attack) : Attack :=
  let offsetX := (dir_x (currentDirection a) * offsetDistance (config a))%R in
  let offsetY := (dir_y (currentDirection a) * offsetDistance (config a))%R in
  let slash :=
    newSprite id (sprite_x player + offsetX) (sprite_y player + offsetY)
              (spriteKey (config a)) in
  let slash := setDepth 10 (setScale (scale (config a)) slash) in
  let baseRotation := getRotationFromDirection a in
  let halfArc := DegToRad (swingArc (config a) / 2) in
  let startAngle := (baseRotation - halfArc)%R in
  let endAngle := (baseRotation + halfArc)%R in
  let slash := setRotation startAngle slash in
  mkAttack (config a) (lastAttackTime a) (currentDirection a)
           (activeAttacks a ++ [slash])
           (scheduled a ++
              [SwingTween id endAngle (swingSpeed (config a));
               FadeTween id (duration (config a))
                         (IZR (swingSpeed (config a)) * (1 / 2));
               DestroyAfter id (duration (config a))]).

(** [onUpdate] of the swing tween, run by the engine with the sprite's
    current rotation. *)
Definition swingUpdate (player : Sprite) (offset : R) (slash : Sprite)
  : Sprite :=
  let currentRotation := rotation slash in
  let swingOffsetX := (cos currentRotation * offset)%R in
  let swingOffsetY := (sin currentRotation * offset)%R in
  setPosition (sprite_x player + swingOffsetX) (sprite_y player + swingOffsetY)
              slash.

(** [activeAttacks.indexOf(sprite)] followed by [splice(index, 1)]:
    the first element with the sprite's identity is removed. *)
Fixpoint removeSprite (id : nat) (l : list Sprite) : list Sprite :=
  match l with
  | [] => []
  | s :: l' => if Nat.eqb (sid s) id then l' else s :: removeSprite id l'
  end.

(** The callback of [destroyAttackAfterDuration]. *)
Definition destroyAttackCallback (id : nat) (a : Attack) : Attack :=
  mkAttack (config a) (lastAttackTime a) (currentDirection a)
           (removeSprite id (activeAttacks a)) (scheduled a).

Definition update (id : nat) (player : Sprite) (time : Z) (a : Attack)
  : Attack :=
  if time - lastAttackTime a >=? interval (config a) then
    let a' := execute id player a in
    mkAttack (config a') time (currentDirection a') (activeAttacks a')
             (scheduled a')
  else a.

Definition getActiveAttacks (a : Attack) : list Sprite := activeAttacks a.
Definition getDamage (a : Attack) : Z := damage (config a).

(** The setters of [AxeHackAttack].  Each assigns the field of [config]
    and of [axeConfig], which are one object. *)
Definition with_config (c : AxeHackConfig) (a : Attack) : Attack :=
  mkAttack c (lastAttackTime a) (currentDirection a) (activeAttacks a)
           (scheduled a).

Definition setDamage (d : Z) (a : Attack) : Attack :=
  let c := config a in
  with_config
    (mkAxeHackConfig d (interval c) (duration c) (scale c) (spriteKey c)
                     (offsetDistance c) (swingArc c) (swingSpeed c)) a.

Definition setInterval (i : Z) (a : Attack) : Attack :=
  let c := config a in
  with_config
    (mkAxeHackConfig (damage c) i (duration c) (scale c) (spriteKey c)
                     (offsetDistance c) (swingArc c) (swingSpeed c)) a.

Definition setSwingArc (degrees : R) (a : Attack) : Attack :=
  let c := config a in
  with_config
    (mkAxeHackConfig (damage c) (interval c) (duration c) (scale c)
                     (spriteKey c) (offsetDistance c) degrees (swingSpeed c)) a.

Definition setSwingSpeed (ms : Z) (a : Attack) : Attack :=
  let c := config a in
  with_config
    (mkAxeHackConfig (damage c) (interval c) (duration c) (scale c)
                     (spriteKey c) (offsetDistance c) (swingArc c) ms) a.

Definition setScale (sc : R) (a : Attack) : Attack :=
  let c := config a in
  with_config
    (mkAxeHackConfig (damage c) (interval c) (duration c) sc (spriteKey c)
                     (offsetDistance c) (swingArc c) (swingSpeed c)) a.

Definition setOffsetDistance (distance : R) (a : Attack) : Attack :=
  let c := config a in
  with_config
    (mkAxeHackConfig (damage c) (interval c) (duration c) (scale c)
                     (spriteKey c) distance (swingArc c) (swingSpeed c)) a.

End Attack.

(** ** SpawnManager.ts *)

Module SpawnManager.

Inductive MonsterType := goblin.

Record SpawnEvent := mkSpawnEvent {
  se_monsterType : MonsterType;
  se_count : nat;
  se_config : option Goblin.GoblinConfig
}.

Record SpawnWave := mkSpawnWave {
  delay : Z;
  spawns : list SpawnEvent
}.

Record SpawnSchedule := mkSpawnSchedule {
  waves : list SpawnWave;
  loop : option bool;
  loopDelay : option Z
}.

Record RepeatingSpawnConfig := mkRepeatingSpawnConfig {
  monsterType : MonsterType;
  interval : Z;
  count : nat;
  config : option Goblin.GoblinConfig
}.

(** *** The scene's clock

    The closures the manager registers with [scene.time], one constructor
    per closure of the source:
    - [NextWave]: [() => this.executeNextWave()];
    - [RunWave wave]: the closure of [executeNextWave] that captures [wave];
    - [RepeatSpawn config]: the callback of [addRepeatingSpawn]. *)
Inductive Callback :=
| NextWave
| RunWave (wave : SpawnWave)
| RepeatSpawn (config : RepeatingSpawnConfig).

(** A registered timer.  [handle] is the identity of the [TimerEvent]
    object; [due] is the clock time of its next firing. *)
Record TimerEvent := mkTimerEvent {
  handle : nat;
  due : Z;
  timer_delay : Z;
  timer_loop : bool;
  callback : Callback
}.

(** Modelled from the spec: the engine's timer facility ("register a
    one-shot callback after N ms; register a repeating callback every N ms;
    cancel either"), which is not part of the sources.  A timer is
    dispatched at the clock time [registration time + delay].
    [dispatched] is the trace of the callbacks run so far with the clock
    time of each run. *)
Record Clock := mkClock {
  now : Z;
  timers : list TimerEvent;
  nextTimer : nat;
  dispatched : list (Z * Callback)
}.

(** Modelled from the spec: [scene.time.delayedCall(delay, cb)]
    ([lp = false]) and [scene.time.addEvent({ delay, callback, loop: true })]
    ([lp = true]); the new timer is first due one delay from now. *)
Definition addEvent (d : Z) (lp : bool) (cb : Callback) (c : Clock)
  : nat * Clock :=
  (nextTimer c,
   mkClock (now c)
           (timers c ++ [mkTimerEvent (nextTimer c) (now c + d) d lp cb])
           (S (nextTimer c)) (dispatched c)).

(** Modelled from the spec: [timer.destroy()], the cancellation of a
    timer; it never runs its callback again. *)
Definition destroyTimer (h : nat) (c : Clock) : Clock :=
  mkClock (now c)
          (List.filter (fun ev => negb (Nat.eqb (handle ev) h)) (timers c))
          (nextTimer c) (dispatched c).

(** Modelled from the spec: the timer the clock dispatches next, the one
    of least [due] and among equal ones the one registered first. *)
Fixpoint earliest (l : list TimerEvent) : option TimerEvent :=
  match l with
  | [] => None
  | ev :: l' =>
      match earliest l' with
      | Some ev' => if due ev' <? due ev then Some ev' else Some ev
      | None => Some ev
      end
  end.

(** Modelled from the spec: after a dispatch a repeating timer is due
    again one delay later; a one-shot timer is dropped. *)
Definition rearm (ev : TimerEvent) (l : list TimerEvent) : list TimerEvent :=
  if timer_loop ev then
    map (fun e =>
           if Nat.eqb (handle e) (handle ev)
           then mkTimerEvent (handle e) (due e + timer_delay e) (timer_delay e)
                             (timer_loop e) (callback e)
           else e) l
  else List.filter (fun e => negb (Nat.eqb (handle e) (handle ev))) l.

(** *** Spawn placement *)

Record Camera := mkCamera {
  scrollX : R;
  scrollY : R;
  width : R;
  height : R
}.

(** Modelled from the spec: [Phaser.Math.Between(min, max)], the engine's
    random choice of the side and of the "random coordinate" along it,
    which is not part of the sources.  The engine computes it as
    [Math.floor(Math.random() * (max - min + 1) + min)]; [rnd] is the value
    of that [Math.random()] call, a number in [0, 1).  For whole numbers
    [min <= max] the result is a whole number between them. *)
Definition Between (min max : R) (rnd : R) : Z :=
  Int_part (rnd * (max - min + 1) + min).

Record Position := mkPosition { pos_x : R; pos_y : R }.

(** [getRandomSpawnPosition]; [rnd1] and [rnd2] are the two random numbers
    the call consumes, in the order in which it draws them.  The [switch]
    on [side] compares with 0, 1 and 2 in turn; [case 3] and [default]
    share the last branch. *)
Definition getRandomSpawnPosition
  (camera : Camera) (worldWidth worldHeight spawnPadding : R) (rnd1 rnd2 : R)
  : Position :=
  let left := (scrollX camera - spawnPadding)%R in
  let right := (scrollX camera + width camera + spawnPadding)%R in
  let top := (scrollY camera - spawnPadding)%R in
  let bottom := (scrollY camera + height camera + spawnPadding)%R in
  let side := Between 0 3 rnd1 in
  if side =? 0 then
    mkPosition
      (IZR (Between (Rmax 0 left) (Rmin worldWidth right) rnd2))
      (Rmax 0 top)
  else if side =? 1 then
    mkPosition
      (Rmin worldWidth right)
      (IZR (Between (Rmax 0 top) (Rmin worldHeight bottom) rnd2))
  else if side =? 2 then
    mkPosition
      (IZR (Between (Rmax 0 left) (Rmin worldWidth right) rnd2))
      (Rmin worldHeight bottom)
  else
    mkPosition
      (Rmax 0 left)
      (IZR (Between (Rmax 0 top) (Rmin worldHeight bottom) rnd2)).

(** *** The manager *)

(** The part of the manager's world that [spawnMonster] changes: the live
    list, the number of [Math.random()] calls made so far and the number of
    sprite objects created so far. *)
Record Spawner := mkSpawner {
  monsters : list Monster.Monster;
  draws : nat;
  nextSprite : nat
}.

Record SpawnManager := mkSpawnManager {
  clock : Clock;
  camera : Camera;
  random : nat -> R;
  spawner : Spawner;
  worldWidth : R;
  worldHeight : R;
  spawnPadding : R;
  currentSchedule : option SpawnSchedule;
  currentWaveIndex : nat;
  scheduleTimer : option nat;
  repeatingSpawns : gmap string nat
}.

(** The constructor, in a scene with the given clock, camera and source of
    random numbers. *)
Definition new (c : Clock) (cam : Camera) (rnd : nat -> R)
  (worldWidth worldHeight : R) : SpawnManager :=
  mkSpawnManager c cam rnd (mkSpawner [] 0 0) worldWidth worldHeight 100
                 None 0 None ∅.

Definition with_clock (c : Clock) (m : SpawnManager) : SpawnManager :=
  mkSpawnManager c (camera m) (random m) (spawner m) (worldWidth m)
                 (worldHeight m) (spawnPadding m) (currentSchedule m)
                 (currentWaveIndex m) (scheduleTimer m) (repeatingSpawns m).

Definition with_spawner (s : Spawner) (m : SpawnManager) : SpawnManager :=
  mkSpawnManager (clock m) (camera m) (random m) s (worldWidth m)
                 (worldHeight m) (spawnPadding m) (currentSchedule m)
                 (currentWaveIndex m) (scheduleTimer m) (repeatingSpawns m).

Definition with_schedule (sc : option SpawnSchedule) (i : nat)
  (t : option nat) (m : SpawnManager) : SpawnManager :=
  mkSpawnManager (clock m) (camera m) (random m) (spawner m) (worldWidth m)
                 (worldHeight m) (spawnPadding m) sc i t (repeatingSpawns m).

Definition with_repeatingSpawns (r : gmap string nat) (m : SpawnManager)
  : SpawnManager :=
  mkSpawnManager (clock m) (camera m) (random m) (spawner m) (worldWidth m)
                 (worldHeight m) (spawnPadding m) (currentSchedule m)
                 (currentWaveIndex m) (scheduleTimer m) r.

(** [spawnMonster], on the part of the state it changes. *)
Definition spawnMonster (m : SpawnManager) (type : MonsterType)
  (cfg : option Goblin.GoblinConfig) (s : Spawner)
  : option Monster.Monster * Spawner :=
  let spawnPos :=
    getRandomSpawnPosition (camera m) (worldWidth m) (worldHeight m)
                           (spawnPadding m)
                           (random m (draws s)) (random m (S (draws s))) in
  match type with
  | goblin =>
      let monster :=
        Goblin.new (nextSprite s) (pos_x spawnPos) (pos_y spawnPos) cfg in
      (Some monster,
       mkSpawner (monsters s ++ [monster]) (S (S (draws s)))
                 (S (nextSprite s)))
  end.

(** [for (let i = 0; i < count; i++) this.spawnMonster(type, config)]. *)
Fixpoint spawnMany (m : SpawnManager) (type : MonsterType)
  (cfg : option Goblin.GoblinConfig) (n : nat) (s : Spawner) : Spawner :=
  match n with
  | O => s
  | S n' => spawnMany m type cfg n' (snd (spawnMonster m type cfg s))
  end.

Definition executeWave (wave : SpawnWave) (m : SpawnManager) : SpawnManager :=
  with_spawner
    (fold_left
       (fun s spawnEvent =>
          spawnMany m (se_monsterType spawnEvent) (se_config spawnEvent)
                    (se_count spawnEvent) s)
       (spawns wave) (spawner m))
    m.

Definition stopSchedule (m : SpawnManager) : SpawnManager :=
  match scheduleTimer m with
  | Some t =>
      with_schedule None (currentWaveIndex m) None
                    (with_clock (destroyTimer t (clock m)) m)
  | None => with_schedule None (currentWaveIndex m) (scheduleTimer m) m
  end.

Definition executeNextWave (m : SpawnManager) : SpawnManager :=
  match currentSchedule m with
  | None => m
  | Some schedule =>
      if Nat.leb (length (waves schedule)) (currentWaveIndex m) then
        if default false (loop schedule) then
          let (t, c) :=
            addEvent (default 0 (loopDelay schedule)) false NextWave (clock m) in
          with_schedule (currentSchedule m) 0 (Some t) (with_clock c m)
        else m
      else
        match waves schedule !! currentWaveIndex m with
        | Some wave =>
            let (t, c) := addEvent (delay wave) false (RunWave wave) (clock m) in
            with_schedule (currentSchedule m) (currentWaveIndex m) (Some t)
                          (with_clock c m)
        | None => m
        end
  end.

Definition startSchedule (schedule : SpawnSchedule) (m : SpawnManager)
  : SpawnManager :=
  let m := stopSchedule m in
  executeNextWave (with_schedule (Some schedule) 0 (scheduleTimer m) m).

Definition removeRepeatingSpawn (id : string) (m : SpawnManager)
  : SpawnManager :=
  match repeatingSpawns m !! id with
  | Some timer =>
      with_repeatingSpawns (delete id (repeatingSpawns m))
                           (with_clock (destroyTimer timer (clock m)) m)
  | None => m
  end.

Definition addRepeatingSpawn (id : string) (cfg : RepeatingSpawnConfig)
  (m : SpawnManager) : SpawnManager :=
  let m := removeRepeatingSpawn id m in
  let (timer, c) := addEvent (interval cfg) true (RepeatSpawn cfg) (clock m) in
  with_repeatingSpawns (<[id := timer]> (repeatingSpawns m)) (with_clock c m).

(** What each registered closure does when the clock runs it. *)
Definition runCallback (cb : Callback) (m : SpawnManager) : SpawnManager :=
  match cb with
  | NextWave => executeNextWave m
  | RunWave wave =>
      let m := executeWave wave m in
      let m :=
        with_schedule (currentSchedule m) (S (currentWaveIndex m))
                      (scheduleTimer m) m in
      executeNextWave m
  | RepeatSpawn cfg =>
      with_spawner
        (spawnMany m (monsterType cfg) (config cfg) (count cfg) (spawner m)) m
  end.

(** Modelled from the spec: the clock dispatches one timer; time advances
    to its due time, the timer is re-armed or dropped, and its callback
    runs. *)
Definition fire (ev : TimerEvent) (m : SpawnManager) : SpawnManager :=
  let c := clock m in
  runCallback (callback ev)
    (with_clock
       (mkClock (due ev) (rearm ev (timers c)) (nextTimer c)
                (dispatched c ++ [(due ev, callback ev)]))
       m).

(** Modelled from the spec: the clock runs up to the time [until],
    dispatching in order every timer that falls due; [None] when [fuel]
    dispatches do not suffice. *)
Fixpoint run (fuel : nat) (until : Z) (m : SpawnManager)
  : option SpawnManager :=
  match earliest (timers (clock m)) with
  | Some ev =>
      if due ev <=? until then
        match fuel with
        | O => None
        | S fuel' => run fuel' until (fire ev m)
        end
      else
        Some (with_clock
                (mkClock until (timers (clock m)) (nextTimer (clock m))
                         (dispatched (clock m))) m)
  | None =>
      Some (with_clock
              (mkClock until (timers (clock m)) (nextTimer (clock m))
                       (dispatched (clock m))) m)
  end.

(** The waves executed so far, each with the clock time of its execution. *)
Definition wavesExecuted (m : SpawnManager) : list (Z * SpawnWave) :=
  omap (fun e => match snd e with
                 | RunWave w => Some (fst e, w)
                 | _ => None
                 end)
       (dispatched (clock m)).

(** [stopAllRepeatingSpawns]: the loop over the entries of the map, each
    removed by its key.  Every key present when the loop starts is visited
    once (a JavaScript [Map] may be deleted from while it is iterated). *)
Definition removeEntries (entries : list (string * nat)) (m : SpawnManager)
  : SpawnManager :=
  fold_left (fun st entry => removeRepeatingSpawn (fst entry) st) entries m.

Definition stopAllRepeatingSpawns (m : SpawnManager) : SpawnManager :=
  removeEntries (map_to_list (repeatingSpawns m)) m.

(** The callback of the [filter] in [update]: a dead monster is dropped, a
    live one is updated and kept. *)
Fixpoint updateMonsters (target : Sprite) (l : list Monster.Monster)
  : option (list Monster.Monster) :=
  match l with
  | [] => Some []
  | monster :: rest =>
      if negb (Monster.getIsAlive monster) then updateMonsters target rest
      else
        monster' ← Monster.update target monster;
        rest' ← updateMonsters target rest;
        Some (monster' :: rest')
  end.

(** [update]; [target] is the player's sprite, which the manager hands to
    every monster it creates. *)
Definition update (target : Sprite) (m : SpawnManager) : option SpawnManager :=
  l ← updateMonsters target (monsters (spawner m));
  Some (with_spawner
          (mkSpawner l (draws (spawner m)) (nextSprite (spawner m))) m).

Definition getMonsters (m : SpawnManager) : list Monster.Monster :=
  monsters (spawner m).

(** [clearAllMonsters]: every monster of the list is destroyed and the list
    is emptied.  The destroyed objects outlive the list (their sprites
    refer to them); they are the first component of the result. *)
Definition clearAllMonsters (m : SpawnManager)
  : list Monster.Monster * SpawnManager :=
  (map Monster.destroy (monsters (spawner m)),
   with_spawner
     (mkSpawner [] (draws (spawner m)) (nextSprite (spawner m))) m).

Definition destroy (m : SpawnManager) : list Monster.Monster * SpawnManager :=
  clearAllMonsters (stopAllRepeatingSpawns (stopSchedule m)).


End SpawnManager.

(** ** Game.ts: combat resolution *)

Module Game.

Record Game := mkGame {
  player : Sprite;
  attacks : list Attack.Attack;
  monsters : list Monster.Monster
}.

(** Modelled from the spec: [Phaser.Math.Distance.Between(x1, y1, x2, y2)],
    the "Euclidean distance between instance position and entity
    position". *)
Definition DistanceBetween (x1 y1 x2 y2 : R) : R :=
  let dx := (x1 - x2)%R in
  let dy := (y1 - y2)%R in
  sqrt (dx * dx + dy * dy).

Definition hitRange : R := 40.

(** The key [`${attackSprite.getData("id") || attackSprite.x}_${monster.getSprite().x}`].
    No statement of the program stores an ["id"] in a sprite's data, so
    [getData("id")] is [undefined] and the first part is [attackSprite.x].
    The string is represented by the pair of numbers printed into it: two
    such strings are equal exactly when both numbers are. *)
Definition hitKey (attackSprite monsterSprite : Sprite) : R * R :=
  (sprite_x attackSprite, sprite_x monsterSprite).

Definition keyEqb (k k' : R * R) : bool :=
  negb (Rneqb (fst k) (fst k')) && negb (Rneqb (snd k) (snd k')).

(** [attackSprite.getData(hitKey)], as a truth value. *)
Definition getData (k : R * R) (s : Sprite) : bool :=
  existsb (keyEqb k) (data s).

(** The innermost loop of [checkAttackCollisions]: one attack sprite
    against each monster in turn. *)
Fixpoint hitMonsters (player : Sprite) (dmg : Z) (attackSprite : Sprite)
  (monsters : list Monster.Monster) : option (Sprite * list Monster.Monster) :=
  match monsters with
  | [] => Some (attackSprite, [])
  | monster :: rest =>
      let continue attackSprite' monster' :=
        r ← hitMonsters player dmg attackSprite' rest;
        Some (fst r, monster' :: snd r) in
      if negb (Monster.getIsAlive monster) then continue attackSprite monster
      else
        let monsterSprite := Monster.getSprite monster in
        if negb (active monsterSprite) then continue attackSprite monster
        else
          let distance :=
            DistanceBetween (sprite_x attackSprite) (sprite_y attackSprite)
                            (sprite_x monsterSprite) (sprite_y monsterSprite) in
          if Rltb distance hitRange then
            let key := hitKey attackSprite (Monster.getSprite monster) in
            if negb (getData key attackSprite) then
              monster' ← Monster.takeDamage player dmg monster;
              continue (setData key attackSprite) monster'
            else continue attackSprite monster
          else continue attackSprite monster
  end.

(** The middle loop: the active sprites of one attack. *)
Fixpoint hitSprites (player : Sprite) (dmg : Z) (sprites : list Sprite)
  (monsters : list Monster.Monster)
  : option (list Sprite * list Monster.Monster) :=
  match sprites with
  | [] => Some ([], monsters)
  | attackSprite :: rest =>
      if negb (active attackSprite) then
        r ← hitSprites player dmg rest monsters;
        Some (attackSprite :: fst r, snd r)
      else
        h ← hitMonsters player dmg attackSprite monsters;
        r ← hitSprites player dmg rest (snd h);
        Some (fst h :: fst r, snd r)
  end.

(** The outer loop: every attack. *)
Fixpoint hitAttacks (player : Sprite) (attacks : list Attack.Attack)
  (monsters : list Monster.Monster)
  : option (list Attack.Attack * list Monster.Monster) :=
  match attacks with
  | [] => Some ([], monsters)
  | attack :: rest =>
      h ← hitSprites player (Attack.getDamage attack)
                     (Attack.getActiveAttacks attack) monsters;
      r ← hitAttacks player rest (snd h);
      Some (Attack.mkAttack (Attack.config attack)
                            (Attack.lastAttackTime attack)
                            (Attack.currentDirection attack) (fst h)
                            (Attack.scheduled attack) :: fst r,
            snd r)
  end.

Definition checkAttackCollisions (g : Game) : option Game :=
  r ← hitAttacks (player g) (attacks g) (monsters g);
  Some (mkGame (player g) (fst r) (snd r)).

(** *** The scene *)

Definition WORLD_WIDTH : R := 3200.
Definition WORLD_HEIGHT : R := 2400.
Definition PLAYER_SPEED : R := 200.

(** The state of the scene besides what [Game] above holds: the spawn
    manager (whose list of monsters is the one [checkAttackCollisions]
    walks), the player's health and its heart icons, each given by the
    texture it shows.  [clearTintCalls] are the delays of the delayed calls
    that clear the player's tint; [started] is the scene that
    [scene.start] was last asked for; [spriteCount] numbers the sprite
    objects the attacks create. *)
Record Scene := mkScene {
  scene_player : Sprite;
  scene_attacks : list Attack.Attack;
  spawnManager : SpawnManager.SpawnManager;
  playerHealth : Z;
  maxPlayerHealth : Z;
  heartIcons : list string;
  clearTintCalls : list Z;
  started : option string;
  spriteCount : nat
}.

(** The texture of the heart at index [i]:
    [i < this.playerHealth ? "heart" : "heart-empty"]. *)
Definition heartTexture (health : Z) (i : nat) : string :=
  if Z.of_nat i <? health then "heart" else "heart-empty".


Definition updateHeartDisplay (sc : Scene) : Scene :=
  mkScene (scene_player sc) (scene_attacks sc) (spawnManager sc)
          (playerHealth sc) (maxPlayerHealth sc)
          (imap (fun i _ => heartTexture (playerHealth sc) i) (heartIcons sc))
          (clearTintCalls sc) (started sc) (spriteCount sc).

Definition gameOver (sc : Scene) : Scene :=
  mkScene (scene_player sc) (scene_attacks sc)
          (snd (SpawnManager.destroy (spawnManager sc)))
          (playerHealth sc) (maxPlayerHealth sc) (heartIcons sc)
          (clearTintCalls sc) (Some "GameOver") (spriteCount sc).

(** The scene's [takeDamage], the damage a monster deals to the player. *)
Definition takeDamage (amount : Z) (sc : Scene) : Scene :=
  let sc :=
    mkScene (setTint 0xff0000 (scene_player sc)) (scene_attacks sc)
            (spawnManager sc) (playerHealth sc - amount) (maxPlayerHealth sc)
            (heartIcons sc) (clearTintCalls sc ++ [100]) (started sc)
            (spriteCount sc) in
  let sc := updateHeartDisplay sc in
  if playerHealth sc <=? 0 then gameOver sc else sc.

(** The monster at index [i] of the manager's list replaced. *)
Definition setMonster (i : nat) (monster : Monster.Monster) (sc : Scene)
  : Scene :=
  let m := spawnManager sc in
  mkScene (scene_player sc) (scene_attacks sc)
          (SpawnManager.with_spawner
             (SpawnManager.mkSpawner
                (<[i := monster]> (SpawnManager.monsters (SpawnManager.spawner m)))
                (SpawnManager.draws (SpawnManager.spawner m))
                (SpawnManager.nextSprite (SpawnManager.spawner m)))
             m)
          (playerHealth sc) (maxPlayerHealth sc) (heartIcons sc)
          (clearTintCalls sc) (started sc) (spriteCount sc).

(** [handleMonsterPlayerCollision].  The overlapping sprite's [monsterRef]
    is given as the index [i] of that monster in the manager's list; a
    sprite whose monster is not in the list takes the branch of a missing
    or dead monster.  [this.time.now] is the time of the scene's clock. *)
Definition handleMonsterPlayerCollision (i : nat) (sc : Scene) : Scene :=
  match SpawnManager.getMonsters (spawnManager sc) !! i with
  | Some monster =>
      if Monster.getIsAlive monster then
        let r :=
          Monster.canDealDamage
            (SpawnManager.now (SpawnManager.clock (spawnManager sc))) monster in
        if fst r then
          takeDamage (Monster.getDamage (snd r)) (setMonster i (snd r) sc)
        else sc
      else sc
  | None => sc
  end.

(** The keys [update] polls: the cursor keys and W, A, S, D. *)
Record Keys := mkKeys {
  cursor_left : bool;
  cursor_right : bool;
  cursor_up : bool;
  cursor_down : bool;
  key_W : bool;
  key_A : bool;
  key_S : bool;
  key_D : bool
}.

(** [velocityX] and [velocityY] as [update] reads them off the keys. *)
Definition inputVelocity (k : Keys) : R * R :=
  (if cursor_left k || key_A k then (- PLAYER_SPEED)%R
   else if cursor_right k || key_D k then PLAYER_SPEED
   else 0%R,
   if cursor_up k || key_W k then (- PLAYER_SPEED)%R
   else if cursor_down k || key_S k then PLAYER_SPEED
   else 0%R).

(** Modelled from the spec: the engine's [velocity.normalize().scale(s)]
    on the player's body, which is not part of the sources.  The engine
    scales a vector of non-zero length by [1 / Math.sqrt(x * x + y * y)]
    and leaves the zero vector as it is. *)
Definition normalizeScale (s : R) (p : Sprite) : option Sprite :=
  let x := velocityX p in
  let y := velocityY p in
  let len := (x * x + y * y)%R in
  if Rltb 0 len then
    l ← div 1 (sqrt len);
    Some (setVelocity (x * l * s) (y * l * s) p)
  else Some (setVelocity (x * s) (y * s) p).

(** The loop of [update] over the attacks. *)
Fixpoint updateAttacks (player : Sprite) (time : Z) (velocityX velocityY : R)
  (count : nat) (attacks : list Attack.Attack)
  : option (list Attack.Attack * nat) :=
  match attacks with
  | [] => Some ([], count)
  | attack :: rest =>
      attack ←
        (if Rneqb velocityX 0 || Rneqb velocityY 0
         then Attack.updateDirection velocityX velocityY attack
         else Some attack);
      let attack := Attack.update count player time attack in
      r ← updateAttacks player time velocityX velocityY (S count) rest;
      Some (attack :: fst r, snd r)
  end.

(** [update(time)]: one tick of the scene. *)
Definition update (time : Z) (k : Keys) (sc : Scene) : option Scene :=
  let player := setVelocity 0 0 (scene_player sc) in
  let velocityX := fst (inputVelocity k) in
  let velocityY := snd (inputVelocity k) in
  let player := setVelocity velocityX velocityY player in
  player ←
    (if Rneqb velocityX 0 && Rneqb velocityY 0
     then normalizeScale PLAYER_SPEED player
     else Some player);
  a ← updateAttacks player time velocityX velocityY (spriteCount sc)
                    (scene_attacks sc);
  m ← SpawnManager.update player (spawnManager sc);
  g ← checkAttackCollisions
         (mkGame player (fst a) (SpawnManager.getMonsters m));
  Some (mkScene player (attacks g)
          (SpawnManager.with_spawner
             (SpawnManager.mkSpawner
                (monsters g)
                (SpawnManager.draws (SpawnManager.spawner m))
                (SpawnManager.nextSprite (SpawnManager.spawner m)))
             m)
          (playerHealth sc) (maxPlayerHealth sc) (heartIcons sc)
          (clearTintCalls sc) (started sc) (snd a)).


End Game.

(** ** Runs of operations

    The life of a monster after its creation: the calls the game makes on
    it, the two callbacks it registers with the scene, and the engine's
    physics step, which moves its sprite. *)

Inductive MonsterOp :=
| OpTakeDamage (target : Sprite) (amount : Z)
| OpUpdate (target : Sprite)
| OpCanDealDamage (time : Z)
| OpDestroy
| OpClearTint
| OpDeathTweenComplete
| OpPhysics (x y : R).

Definition monsterStep (o : MonsterOp) (m : Monster.Monster)
  : option Monster.Monster :=
  match o with
  | OpTakeDamage target amount => Monster.takeDamage target amount m
  | OpUpdate target => Monster.update target m
  | OpCanDealDamage time => Some (snd (Monster.canDealDamage time m))
  | OpDestroy => Some (Monster.destroy m)
  | OpClearTint => Some (Monster.clearTintCallback m)
  | OpDeathTweenComplete => Some (Monster.deathTweenComplete m)
  | OpPhysics x y =>
      Some (Monster.with_sprite (setPosition x y (Monster.sprite m)) m)
  end.

Fixpoint monsterRun (ops : list MonsterOp) (m : Monster.Monster)
  : option Monster.Monster :=
  match ops with
  | [] => Some m
  | o :: ops' => m' ← monsterStep o m; monsterRun ops' m'
  end.

(** The damage amounts of a run are all non-negative. *)
Definition damageNonneg (o : MonsterOp) : Prop :=
  match o with
  | OpTakeDamage _ amount => 0 <= amount
  | _ => True
  end.

(** The life of an attack: the two calls of [Game.update], the clean-up
    callback of a sprite and the six setters. *)
Inductive AttackOp :=
| OpUpdateDirection (velocityX velocityY : R)
| OpAttackUpdate (id : nat) (player : Sprite) (time : Z)
| OpDestroyAttack (id : nat)
| OpSetDamage (damage : Z)
| OpSetInterval (interval : Z)
| OpSetSwingArc (degrees : R)
| OpSetSwingSpeed (ms : Z)
| OpSetScale (scale : R)
| OpSetOffsetDistance (distance : R).

Definition attackStep (o : AttackOp) (a : Attack.Attack)
  : option Attack.Attack :=
  match o with
  | OpUpdateDirection vx vy => Attack.updateDirection vx vy a
  | OpAttackUpdate id player time => Some (Attack.update id player time a)
  | OpDestroyAttack id => Some (Attack.destroyAttackCallback id a)
  | OpSetDamage d => Some (Attack.setDamage d a)
  | OpSetInterval i => Some (Attack.setInterval i a)
  | OpSetSwingArc degrees => Some (Attack.setSwingArc degrees a)
  | OpSetSwingSpeed ms => Some (Attack.setSwingSpeed ms a)
  | OpSetScale sc => Some (Attack.setScale sc a)
  | OpSetOffsetDistance distance => Some (Attack.setOffsetDistance distance a)
  end.

Fixpoint attackRun (ops : list AttackOp) (a : Attack.Attack)
  : option Attack.Attack :=
  match ops with
  | [] => Some a
  | o :: ops' => a' ← attackStep o a; attackRun ops' a'
  end.

(** [updateDirection] is not called with a non-zero velocity. *)
Definition velocityZero (o : AttackOp) : Prop :=
  match o with
  | OpUpdateDirection vx vy => vx = 0%R /\ vy = 0%R
  | _ => True
  end.

(** [setOffsetDistance] is not called. *)
Definition keepsOffset (o : AttackOp) : Prop :=
  match o with
  | OpSetOffsetDistance _ => False
  | _ => True
  end.

(** ** Spawn placement: the rectangles of the claim *)

(** A point lies in the camera's visible rectangle (edges included). *)
Definition inCamera (cam : SpawnManager.Camera) (p : SpawnManager.Position)
  : Prop :=
  (SpawnManager.scrollX cam <= SpawnManager.pos_x p
     <= SpawnManager.scrollX cam + SpawnManager.width cam)%R /\
  (SpawnManager.scrollY cam <= SpawnManager.pos_y p
     <= SpawnManager.scrollY cam + SpawnManager.height cam)%R.

Definition inWorld (worldWidth worldHeight : R) (p : SpawnManager.Position)
  : Prop :=
  (0 <= SpawnManager.pos_x p <= worldWidth)%R /\
  (0 <= SpawnManager.pos_y p <= worldHeight)%R.

(** The camera rectangle grown by [pad] on every side covers the world. *)
Definition paddedCoversWorld (cam : SpawnManager.Camera)
  (worldWidth worldHeight pad : R) : Prop :=
  (SpawnManager.scrollX cam - pad <= 0)%R /\
  (worldWidth <= SpawnManager.scrollX cam + SpawnManager.width cam + pad)%R /\
  (SpawnManager.scrollY cam - pad <= 0)%R /\
  (worldHeight <= SpawnManager.scrollY cam + SpawnManager.height cam + pad)%R.

(** The camera rectangle grown by [pad] on every side meets the world. *)
Definition paddedMeetsWorld (cam : SpawnManager.Camera)
  (worldWidth worldHeight pad : R) : Prop :=
  (SpawnManager.scrollX cam - pad <= worldWidth)%R /\
  (0 <= SpawnManager.scrollX cam + SpawnManager.width cam + pad)%R /\
  (SpawnManager.scrollY cam - pad <= worldHeight)%R /\
  (0 <= SpawnManager.scrollY cam + SpawnManager.height cam + pad)%R.

(** The edge of the camera rectangle on the given side (0 top, 1 right,
    2 bottom, otherwise left) lies strictly inside the world. *)
Definition edgeInsideWorld (cam : SpawnManager.Camera)
  (worldWidth worldHeight : R) (side : Z) : Prop :=
  if side =? 0 then (0 < SpawnManager.scrollY cam)%R
  else if side =? 1 then
    (SpawnManager.scrollX cam + SpawnManager.width cam < worldWidth)%R
  else if side =? 2 then
    (SpawnManager.scrollY cam + SpawnManager.height cam < worldHeight)%R
  else (0 < SpawnManager.scrollX cam)%R.

(** ** Counting and timelines *)

(** The death tweens a monster has asked its scene for. *)
Definition isDeathTween (c : Monster.SceneCall) : bool :=
  match c with
  | Monster.DeathTween _ => true
  | Monster.ClearTintAfter _ => false
  end.

Definition deathTweens (m : Monster.Monster) : nat :=
  length (List.filter isDeathTween (Monster.scheduled m)).

(** The waves [ws], each paired with the clock time at which it falls due
    when the first is registered at time [t]: every delay counts from the
    wave before. *)
Fixpoint timeline (t : Z) (ws : list SpawnManager.SpawnWave)
  : list (Z * SpawnManager.SpawnWave) :=
  match ws with
  | [] => []
  | w :: rest =>
      (t + SpawnManager.delay w, w) :: timeline (t + SpawnManager.delay w) rest
  end.

(** A monster as its constructor leaves it: alive, at full health, its
    cooldown stamp 0, its sprite active. *)
Definition freshlySpawned (g : Monster.Monster) : Prop :=
  Monster.isAlive g = true /\
  Monster.currentHealth g = Monster.maxHealth (Monster.config g) /\
  Monster.lastAttackTime g = 0 /\
  active (Monster.sprite g) = true.

(** The monsters a wave asks for. *)
Definition waveSize (w : SpawnManager.SpawnWave) : nat :=
  list_sum (map SpawnManager.se_count (SpawnManager.spawns w)).

(** The entries of a plan of wave executions that fall due up to [until]. *)
Definition executedBy (until : Z) (plan : list (Z * SpawnManager.SpawnWave))
  : list (Z * SpawnManager.SpawnWave) :=
  List.filter (fun e => fst e <=? until) plan.

(** The monsters the waves of a log ask for, all together. *)
Definition spawnedBy (log : list (Z * SpawnManager.SpawnWave)) : nat :=
  list_sum (map (fun e => waveSize (snd e)) log).

(** The full hearts among the icons. *)
Definition fullHearts (icons : list string) : nat :=
  length (List.filter (String.eqb "heart") icons).

(** What one pass of [checkAttackCollisions] may do to a monster: it stays
    the same object at the same place, a dead monster is left as it is, no
    monster comes back to life, and (for non-negative damage) its health
    does not rise. *)
Definition struck (m m' : Monster.Monster) : Prop :=
  sid (Monster.sprite m') = sid (Monster.sprite m) /\
  sprite_x (Monster.sprite m') = sprite_x (Monster.sprite m) /\
  sprite_y (Monster.sprite m') = sprite_y (Monster.sprite m) /\
  active (Monster.sprite m') = active (Monster.sprite m) /\
  (Monster.isAlive m = false -> m' = m) /\
  Monster.currentHealth m' <= Monster.currentHealth m.

(** A sprite after a pass is the sprite before it with more marks. *)
Definition marked (s s' : Sprite) : Prop :=
  sid s' = sid s /\ sprite_x s' = sprite_x s /\ sprite_y s' = sprite_y s /\
  active s' = active s /\
  exists keys, data s' = keys ++ data s.

(** What [update] may do to a monster: set the velocity and the flip of
    its sprite. *)
Definition steered (m m' : Monster.Monster) : Prop :=
  exists vx vy fl,
    m' = Monster.with_sprite
           (setFlipX fl (setVelocity vx vy (Monster.sprite m))) m.

(** Every timer on the clock is the manager's own: the pending timer of
    its schedule or a timer registered in its map of repeating spawns. *)
Definition ownsTimers (m : SpawnManager.SpawnManager) : Prop :=
  forall ev,
    In ev (SpawnManager.timers (SpawnManager.clock m)) ->
    SpawnManager.scheduleTimer m = Some (SpawnManager.handle ev) \/
    exists id,
      SpawnManager.repeatingSpawns m !! id = Some (SpawnManager.handle ev).

(** Some key that moves the player is down. *)
Definition anyKeyDown (k : Game.Keys) : bool :=
  Game.cursor_left k || Game.key_A k || Game.cursor_right k || Game.key_D k
  || Game.cursor_up k || Game.key_W k || Game.cursor_down k || Game.key_S k.

(** * Verification *)

(** ** Numbers *)

Lemma Rltb_true (a b : R) : (a < b)%R -> Rltb a b = true.
Proof. intros H. unfold Rltb. destruct (Rlt_dec a b); [reflexivity | contradiction]. Qed.

Lemma Rltb_false (a b : R) : (b <= a)%R -> Rltb a b = false.
Proof. intros H. unfold Rltb. destruct (Rlt_dec a b); [lra | reflexivity]. Qed.

Lemma Rltb_lt (a b : R) : Rltb a b = true -> (a < b)%R.
Proof. unfold Rltb. destruct (Rlt_dec a b); [trivial | discriminate]. Qed.

Lemma Rneqb_refl (a : R) : Rneqb a a = false.
Proof. unfold Rneqb. destruct (Req_dec_T a a); [reflexivity | contradiction]. Qed.

Lemma Rneqb_neq (a b : R) : a <> b -> Rneqb a b = true.
Proof. intros H. unfold Rneqb. destruct (Req_dec_T a b); [contradiction | reflexivity]. Qed.

Lemma div_nonzero (a b : R) : b <> 0%R -> div a b = Some (a / b)%R.
Proof. intros H. unfold div. destruct (Req_dec_T b 0); [contradiction | reflexivity]. Qed.

Lemma sumsq_nonneg (a b : R) : (0 <= a * a + b * b)%R.
Proof. nra. Qed.

(** The length of the zero vector. *)
Lemma sqrt_sumsq_same (x y : R) :
  sqrt ((x - x) * (x - x) + (y - y) * (y - y)) = 0%R.
Proof.
  replace ((x - x) * (x - x) + (y - y) * (y - y))%R with 0%R by ring.
  apply sqrt_0.
Qed.

(** A square root below a positive bound, from the squares. *)
Lemma sqrt_lt_bound (v r : R) :
  (0 <= v)%R -> (0 < r)%R -> (v < r * r)%R -> (sqrt v < r)%R.
Proof.
  intros Hv Hr Hlt.
  rewrite <- (sqrt_square r) by lra.
  apply sqrt_lt_1; nra.
Qed.

(** ** Monster: frame lemmas *)

Section MonsterFacts.

Import Monster.

Variable target : Sprite.

Lemma with_sprite_eta (m : Monster) :
  with_sprite (setVelocity (velocityX (sprite m)) (velocityY (sprite m)) (sprite m)) m = m.
Proof. destruct m as [c h l a [] sc]; reflexivity. Qed.

(** [applyKnockback] never divides by zero, and changes at most the
    velocity of the sprite. *)
Lemma applyKnockback_velocity (m : Monster) :
  exists vx vy,
    applyKnockback target m = Some (with_sprite (setVelocity vx vy (sprite m)) m).
Proof.
  unfold applyKnockback.
  set (d := sqrt _).
  destruct (Rltb 0 d) eqn:Hd.
  - apply Rltb_lt in Hd.
    rewrite !div_nonzero by lra. simpl. eauto.
  - exists (velocityX (sprite m)), (velocityY (sprite m)).
    now rewrite with_sprite_eta.
Qed.

(** [moveTowardsTarget] never divides by zero, and changes at most the
    velocity and the flip of the sprite. *)
Lemma moveTowardsTarget_velocity (m : Monster) :
  exists vx vy fl,
    moveTowardsTarget target m
    = Some (with_sprite (setFlipX fl (setVelocity vx vy (sprite m))) m).
Proof.
  unfold moveTowardsTarget.
  set (d := sqrt _).
  destruct (Rltb 0 d) eqn:Hd.
  - apply Rltb_lt in Hd.
    rewrite !div_nonzero by lra. simpl.
    destruct (Rltb _ 0); eauto.
  - exists (velocityX (sprite m)), (velocityY (sprite m)), (flipX (sprite m)).
    destruct m as [c h l a [] sc]; reflexivity.
Qed.

Lemma takeDamage_dead (amount : Z) (m : Monster) :
  isAlive m = false -> takeDamage target amount m = Some m.
Proof. intros H. unfold takeDamage. now rewrite H. Qed.

(** What [takeDamage] does to a live monster, all fields at once. *)
Lemma takeDamage_alive (amount : Z) (m : Monster) :
  isAlive m = true ->
  exists vx vy,
    takeDamage target amount m
    = Some (mkMonster (config m) (currentHealth m - amount) (lastAttackTime m)
                      (negb (currentHealth m - amount <=? 0))
                      (setVelocity vx vy (setTint 0xff0000 (sprite m)))
                      (scheduled m ++ [ClearTintAfter 100] ++
                         if currentHealth m - amount <=? 0
                         then [DeathTween 200] else [])).
Proof.
  intros H. unfold takeDamage. rewrite H. simpl.
  match goal with |- context [applyKnockback target ?m1] =>
    destruct (applyKnockback_velocity m1) as (vx & vy & ->) end.
  exists vx, vy. simpl.
  destruct (currentHealth m - amount <=? 0); unfold die, with_sprite; simpl.
  - now rewrite <- app_assoc.
  - reflexivity.
Qed.

Lemma update_total (m : Monster) :
  exists s, update target m = Some (with_sprite s m).
Proof.
  unfold update.
  destruct (negb (isAlive m) || negb (active (sprite m))).
  - exists (sprite m). now destruct m.
  - destruct (moveTowardsTarget_velocity m) as (vx & vy & fl & ->). eauto.
Qed.

End MonsterFacts.

(** One step of a monster's life always succeeds; it never raises the
    health when the damage is non-negative, and never revives. *)
Lemma monsterStep_spec (o : MonsterOp) (m : Monster.Monster) :
  exists m',
    monsterStep o m = Some m' /\
    (damageNonneg o -> Monster.currentHealth m' <= Monster.currentHealth m) /\
    (Monster.isAlive m = false -> Monster.isAlive m' = false).
Proof.
  destruct o as [t a | t | time | | | | x y]; simpl.
  - destruct (Monster.isAlive m) eqn:Ha.
    + destruct (takeDamage_alive t a m Ha) as (vx & vy & ->).
      eexists; split; [reflexivity |]. simpl. split; [lia | discriminate].
    + rewrite takeDamage_dead by assumption.
      eexists; split; [reflexivity |]. split; [lia | trivial].
  - destruct (update_total t m) as (s & ->).
    eexists; split; [reflexivity |]. simpl. split; [lia | trivial].
  - eexists; split; [reflexivity |]. unfold Monster.canDealDamage.
    destruct (_ >=? _); simpl; split; (lia || trivial).
  - eexists; split; [reflexivity |]. simpl. split; [lia | trivial].
  - eexists; split; [reflexivity |]. unfold Monster.clearTintCallback.
    destruct (active _); simpl; split; (lia || trivial).
  - eexists; split; [reflexivity |]. simpl. split; [lia | trivial].
  - eexists; split; [reflexivity |]. simpl. split; [lia | trivial].
Qed.

Lemma monsterRun_spec (ops : list MonsterOp) :
  forall m : Monster.Monster,
  exists m',
    monsterRun ops m = Some m' /\
    (Forall damageNonneg ops ->
       Monster.currentHealth m' <= Monster.currentHealth m) /\
    (Monster.isAlive m = false -> Monster.isAlive m' = false).
Proof.
  induction ops as [| o ops IH]; intros m; simpl.
  - exists m. repeat split; (lia || trivial).
  - destruct (monsterStep_spec o m) as (m1 & -> & Hh1 & Ha1). simpl.
    destruct (IH m1) as (m' & -> & Hh & Ha).
    exists m'. split; [reflexivity |]. split.
    + intros HF. inversion HF; subst. specialize (Hh1 ltac:(assumption)).
      specialize (Hh ltac:(assumption)). lia.
    + auto.
Qed.

Lemma monsterRun_app (ops1 ops2 : list MonsterOp) (m : Monster.Monster) :
  monsterRun (ops1 ++ ops2) m = m1 ← monsterRun ops1 m; monsterRun ops2 m1.
Proof.
  revert m. induction ops1 as [| o ops1 IH]; intros m; simpl; [reflexivity |].
  destruct (monsterStep o m) as [m1 |]; simpl; [apply IH | reflexivity].
Qed.

(** ** Monster: the cooldown gate *)

(** C2.  [canDealDamage t] returns true exactly when
    [t - lastAttackTime >= attackCooldown]; it then stamps
    [lastAttackTime := t] and changes nothing else; when it returns false
    the monster is unchanged.  Hence of two calls at times [t1] and then
    [t2] with [t2 - t1 < attackCooldown] at most one returns true. *)
Theorem C2_canDealDamage_cooldown :
  forall (m : Monster.Monster) (t1 t2 : Z),
    let cooldown := Monster.attackCooldown (Monster.config m) in
    let r1 := Monster.canDealDamage t1 m in
    let r2 := Monster.canDealDamage t2 (snd r1) in
    (fst r1 = true <-> t1 - Monster.lastAttackTime m >= cooldown) /\
    (fst r1 = true ->
       snd r1 = Monster.mkMonster (Monster.config m) (Monster.currentHealth m)
                                  t1 (Monster.isAlive m) (Monster.sprite m)
                                  (Monster.scheduled m)) /\
    (fst r1 = false -> snd r1 = m) /\
    (t2 - t1 < cooldown -> ~ (fst r1 = true /\ fst r2 = true)).
Proof.
  intros m t1 t2. cbv zeta. unfold Monster.canDealDamage.
  destruct (t1 - Monster.lastAttackTime m >=? Monster.attackCooldown (Monster.config m))
    eqn:H1; simpl.
  - split; [split; [lia | reflexivity] |].
    split; [reflexivity |]. split; [discriminate |].
    intros Hlt [_ H2].
    destruct (t2 - t1 >=? Monster.attackCooldown (Monster.config m)) eqn:H3;
      simpl in H2; [lia | discriminate].
  - split; [split; [discriminate | lia] |].
    split; [discriminate |]. split; [reflexivity |].
    intros _ [H _]. discriminate.
Qed.

(** A goblin of the default configuration at simulation time 1000 and then
    at 1500: the first contact damages, the second is still cooling down. *)
Lemma C2_canDealDamage_cooldown_witness :
  let g := Goblin.new 0 0 0 None in
  fst (Monster.canDealDamage 1000 g) = true /\
  fst (Monster.canDealDamage 1500 (snd (Monster.canDealDamage 1000 g))) = false /\
  ~ (fst (Monster.canDealDamage 1000 g) = true /\
     fst (Monster.canDealDamage 1500 (snd (Monster.canDealDamage 1000 g))) = true).
Proof.
  cbv zeta. split; [reflexivity |]. split; [reflexivity |].
  apply (C2_canDealDamage_cooldown (Goblin.new 0 0 0 None) 1000 1500).
  simpl. lia.
Defined.

(** ** Monster: health and death *)

(** C5, as the code has it.  Along every run of operations whose damage
    amounts are non-negative, between any two points of the run the health
    does not rise and a dead monster stays dead (so the alive flag falls at
    most once); and on a dead monster [takeDamage] returns the monster
    unchanged.  Every operation of the run returns normally. *)
Theorem C5_health_and_death :
  forall (ops1 ops2 : list MonsterOp) (m : Monster.Monster),
    Forall damageNonneg (ops1 ++ ops2) ->
    exists m1 m2,
      monsterRun ops1 m = Some m1 /\
      monsterRun ops2 m1 = Some m2 /\
      monsterRun (ops1 ++ ops2) m = Some m2 /\
      Monster.currentHealth m2 <= Monster.currentHealth m1 /\
      (Monster.isAlive m1 = false -> Monster.isAlive m2 = false) /\
      (Monster.isAlive m2 = false ->
         forall target amount, Monster.takeDamage target amount m2 = Some m2).
Proof.
  intros ops1 ops2 m HF. apply Forall_app in HF as [_ HF2].
  destruct (monsterRun_spec ops1 m) as (m1 & H1 & _ & _).
  destruct (monsterRun_spec ops2 m1) as (m2 & H2 & Hh & Ha).
  exists m1, m2. rewrite monsterRun_app, H1. simpl.
  repeat split; auto.
  intros Hd target amount. now apply takeDamage_dead.
Qed.

Lemma C5_health_and_death_witness :
  let p := newSprite 0 100 100 "player" in
  let g := Goblin.new 1 140 100 None in
  exists m1 m2,
    monsterRun [OpTakeDamage p 20; OpUpdate p] g = Some m1 /\
    monsterRun [OpTakeDamage p 40; OpCanDealDamage 1000; OpDestroy] m1 = Some m2 /\
    monsterRun ([OpTakeDamage p 20; OpUpdate p] ++
                [OpTakeDamage p 40; OpCanDealDamage 1000; OpDestroy]) g = Some m2 /\
    Monster.currentHealth m2 <= Monster.currentHealth m1 /\
    (Monster.isAlive m1 = false -> Monster.isAlive m2 = false) /\
    (Monster.isAlive m2 = false ->
       forall target amount, Monster.takeDamage target amount m2 = Some m2).
Proof.
  cbv zeta.
  apply (C5_health_and_death
           [OpTakeDamage (newSprite 0 100 100 "player") 20;
            OpUpdate (newSprite 0 100 100 "player")]
           [OpTakeDamage (newSprite 0 100 100 "player") 40;
            OpCanDealDamage 1000; OpDestroy]
           (Goblin.new 1 140 100 None)).
  repeat constructor; simpl; lia.
Defined.

(** C5, as the claim states it, fails: a live goblin at full health 50 that
    takes the damage amount -20 is alive afterwards with health 70. *)
Lemma C5_negative_damage_raises_health :
  let p := newSprite 0 100 100 "player" in
  let g := Goblin.new 1 100 100 None in
  exists m',
    monsterRun [OpTakeDamage p (-20)] g = Some m' /\
    Monster.isAlive g = true /\ Monster.isAlive m' = true /\
    Monster.currentHealth g = 50 /\ Monster.currentHealth m' = 70.
Proof.
  cbv zeta. simpl.
  destruct (takeDamage_alive (newSprite 0 100 100 "player") (-20)
              (Goblin.new 1 100 100 None) eq_refl) as (vx & vy & ->).
  eexists. split; [reflexivity |]. simpl. auto.
Qed.

(** C6.  A monster created with [maxHealth = 50] and hit three times for
    20: health 30 and alive, health 10 and alive, health -10 and dead;
    wherever it and the player stand. *)
Theorem C6_three_hits_of_twenty :
  forall (id : nat) (x y : R) (cfg : Monster.MonsterConfig) (p1 p2 p3 : Sprite),
    Monster.maxHealth cfg = 50 ->
    let g := Monster.new id x y cfg in
    exists m1 m2 m3,
      Monster.currentHealth g = 50 /\ Monster.isAlive g = true /\
      Monster.takeDamage p1 20 g = Some m1 /\
      Monster.currentHealth m1 = 30 /\ Monster.isAlive m1 = true /\
      Monster.takeDamage p2 20 m1 = Some m2 /\
      Monster.currentHealth m2 = 10 /\ Monster.isAlive m2 = true /\
      Monster.takeDamage p3 20 m2 = Some m3 /\
      Monster.currentHealth m3 = -10 /\ Monster.isAlive m3 = false.
Proof.
  intros id x y cfg p1 p2 p3 Hmax g.
  destruct (takeDamage_alive p1 20 g eq_refl) as (vx1 & vy1 & H1).
  simpl in H1. rewrite Hmax in H1. simpl in H1.
  match type of H1 with _ = Some ?m => set (m1 := m) in * end.
  destruct (takeDamage_alive p2 20 m1 eq_refl) as (vx2 & vy2 & H2).
  match type of H2 with _ = Some ?m => set (m2 := m) in * end.
  destruct (takeDamage_alive p3 20 m2 eq_refl) as (vx3 & vy3 & H3).
  match type of H3 with _ = Some ?m => set (m3 := m) in * end.
  exists m1, m2, m3.
  repeat split; assumption || reflexivity.
Qed.

(** The goblin of [DEFAULT_GOBLIN_CONFIG]. *)
Lemma C6_three_hits_of_twenty_witness :
  let p := newSprite 0 1600 1200 "player" in
  let g := Goblin.new 1 1000 900 None in
  exists m1 m2 m3,
    Monster.currentHealth g = 50 /\ Monster.isAlive g = true /\
    Monster.takeDamage p 20 g = Some m1 /\
    Monster.currentHealth m1 = 30 /\ Monster.isAlive m1 = true /\
    Monster.takeDamage p 20 m1 = Some m2 /\
    Monster.currentHealth m2 = 10 /\ Monster.isAlive m2 = true /\
    Monster.takeDamage p 20 m2 = Some m3 /\
    Monster.currentHealth m3 = -10 /\ Monster.isAlive m3 = false.
Proof.
  cbv zeta.
  apply (C6_three_hits_of_twenty 1 1000 900
           (Goblin.spread Goblin.DEFAULT_GOBLIN_CONFIG Goblin.empty)
           (newSprite 0 1600 1200 "player") (newSprite 0 1600 1200 "player")
           (newSprite 0 1600 1200 "player")).
  reflexivity.
Defined.

(** ** Monster: the zero-length direction *)

(** C8.  When the monster's sprite stands exactly on the target,
    [moveTowardsTarget] and [update] return the monster unchanged, so does
    [applyKnockback], and [takeDamage] returns normally with the velocity
    it found: no quotient by the zero distance is taken. *)
Theorem C8_coincident_target_guarded :
  forall (target : Sprite) (m : Monster.Monster) (amount : Z),
    sprite_x (Monster.sprite m) = sprite_x target ->
    sprite_y (Monster.sprite m) = sprite_y target ->
    Monster.moveTowardsTarget target m = Some m /\
    Monster.update target m = Some m /\
    Monster.applyKnockback target m = Some m /\
    exists m',
      Monster.takeDamage target amount m = Some m' /\
      velocityX (Monster.sprite m') = velocityX (Monster.sprite m) /\
      velocityY (Monster.sprite m') = velocityY (Monster.sprite m).
Proof.
  intros target m amount Hx Hy.
  assert (Hmove : Monster.moveTowardsTarget target m = Some m).
  { unfold Monster.moveTowardsTarget. rewrite Hx, Hy, sqrt_sumsq_same.
    now rewrite Rltb_false by lra. }
  assert (Hknock : forall m0, Monster.sprite m0 = setTint 0xff0000 (Monster.sprite m)
                              \/ m0 = m ->
                              Monster.applyKnockback target m0 = Some m0).
  { intros m0 H0. unfold Monster.applyKnockback.
    assert (sprite_x (Monster.sprite m0) = sprite_x target /\
            sprite_y (Monster.sprite m0) = sprite_y target) as [-> ->].
    { destruct H0 as [-> | ->]; simpl; auto. }
    rewrite sqrt_sumsq_same. now rewrite Rltb_false by lra. }
  split; [exact Hmove |]. split.
  { unfold Monster.update. rewrite Hmove. now destruct (_ || _). }
  split; [apply Hknock; now right |].
  unfold Monster.takeDamage.
  destruct (Monster.isAlive m) eqn:Ha; simpl.
  - rewrite Hknock by (left; reflexivity). simpl.
    destruct (_ <=? 0); eexists; (split; [reflexivity |]); simpl; auto.
  - exists m. auto.
Qed.

Lemma C8_coincident_target_guarded_witness :
  let p := newSprite 0 100 100 "player" in
  let g := Goblin.new 1 100 100 None in
  Monster.moveTowardsTarget p g = Some g /\
  Monster.update p g = Some g /\
  Monster.applyKnockback p g = Some g /\
  exists m',
    Monster.takeDamage p 25 g = Some m' /\
    velocityX (Monster.sprite m') = velocityX (Monster.sprite g) /\
    velocityY (Monster.sprite m') = velocityY (Monster.sprite g).
Proof.
  cbv zeta.
  apply (C8_coincident_target_guarded (newSprite 0 100 100 "player")
           (Goblin.new 1 100 100 None) 25); reflexivity.
Defined.

(** ** Cooldown stamps at creation *)

(** C9.  A new monster and a new attack carry the stamp 0, not the time of
    their creation (no constructor reads the clock): the first
    [canDealDamage t] of a new monster returns true exactly when
    [t >= attackCooldown], and the first [update t] of a new attack fires
    (creates its sprite and stamps [t]) exactly when [t >= interval]. *)
Theorem C9_cooldown_stamps_start_at_zero :
  forall (id : nat) (x y : R) (cfg : Monster.MonsterConfig)
         (acfg : Attack.AxeHackConfig) (sprite : nat) (player : Sprite) (t : Z),
    let m := Monster.new id x y cfg in
    let a := Attack.new acfg in
    let a' := Attack.update sprite player t a in
    Monster.lastAttackTime m = 0 /\
    (fst (Monster.canDealDamage t m) = true <-> t >= Monster.attackCooldown cfg) /\
    Attack.lastAttackTime a = 0 /\
    (Attack.activeAttacks a' <> [] <-> t >= Attack.interval acfg) /\
    (t >= Attack.interval acfg -> Attack.lastAttackTime a' = t) /\
    (~ t >= Attack.interval acfg -> a' = a).
Proof.
  intros id x y cfg acfg sprite player t m a a'. subst m a a'.
  unfold Monster.canDealDamage, Attack.update. simpl.
  rewrite !Z.sub_0_r.
  split; [reflexivity |]. split.
  { destruct (t >=? Monster.attackCooldown cfg) eqn:H1; simpl;
      split; intros; lia || discriminate || reflexivity. }
  split; [reflexivity |].
  destruct (t >=? Attack.interval acfg) eqn:H2; simpl.
  - split; [split; [lia | discriminate] |]. split; [reflexivity | lia].
  - split; [split; [congruence | lia] |]. split; [lia | reflexivity].
Qed.

(** ** Attack: the facing direction *)

Lemma updateDirection_zero (a : Attack.Attack) :
  Attack.updateDirection 0 0 a = Some a.
Proof. unfold Attack.updateDirection. now rewrite Rneqb_refl. Qed.

Lemma sumsq_pos (vx vy : R) :
  vx <> 0%R \/ vy <> 0%R -> (0 < vx * vx + vy * vy)%R.
Proof.
  intros [H | H].
  - assert (0 < vx * vx)%R by (apply Rsqr_pos_lt in H; exact H). nra.
  - assert (0 < vy * vy)%R by (apply Rsqr_pos_lt in H; exact H). nra.
Qed.

(** [updateDirection] with a non-zero velocity never divides by zero and
    stores the velocity scaled to length one. *)
Lemma updateDirection_nonzero (vx vy : R) (a : Attack.Attack) :
  vx <> 0%R \/ vy <> 0%R ->
  let length := sqrt (vx * vx + vy * vy) in
  Attack.updateDirection vx vy a
  = Some (Attack.mkAttack (Attack.config a) (Attack.lastAttackTime a)
            (Attack.mkDirection (vx / length) (vy / length))
            (Attack.activeAttacks a) (Attack.scheduled a)) /\
  (0 < length)%R /\
  sqrt ((vx / length) * (vx / length) + (vy / length) * (vy / length)) = 1%R.
Proof.
  intros Hnz length.
  assert (Hpos : (0 < vx * vx + vy * vy)%R) by now apply sumsq_pos.
  assert (Hlen : (0 < length)%R) by now apply sqrt_lt_R0.
  assert (Hsq : (length * length = vx * vx + vy * vy)%R)
    by (apply sqrt_sqrt; lra).
  split; [| split; [exact Hlen |]].
  - unfold Attack.updateDirection.
    replace (Rneqb vx 0 || Rneqb vy 0) with true.
    + fold length. rewrite !div_nonzero by lra. reflexivity.
    + destruct Hnz as [H | H]; rewrite (Rneqb_neq _ _ H);
        [reflexivity | now rewrite orb_true_r].
  - replace (vx / length * (vx / length) + vy / length * (vy / length))%R
      with ((vx * vx + vy * vy) / (length * length))%R by (field; lra).
    rewrite Hsq. replace (_ / _)%R with 1%R by (field; lra).
    apply sqrt_1.
Qed.

(** While no non-zero velocity is reported, the direction stays the one the
    attack was created with; every step returns normally. *)
Lemma attackRun_direction (ops : list AttackOp) :
  forall a : Attack.Attack,
    Forall velocityZero ops ->
    exists a',
      attackRun ops a = Some a' /\
      Attack.currentDirection a' = Attack.currentDirection a.
Proof.
  induction ops as [| o ops IH]; intros a HF; simpl.
  - eauto.
  - inversion HF as [| ? ? Ho HF']; subst.
    assert (exists a1, attackStep o a = Some a1 /\
                       Attack.currentDirection a1 = Attack.currentDirection a)
      as (a1 & -> & Hd).
    { destruct o; simpl in *; try (eexists; split; reflexivity).
      - destruct Ho as [-> ->]. rewrite updateDirection_zero. eauto.
      - eexists; split; [reflexivity |]. unfold Attack.update.
        destruct (_ >=? _); auto. }
    simpl. destruct (IH a1 HF') as (a' & -> & Hd').
    exists a'. split; [reflexivity |]. congruence.
Qed.

(** Only [setOffsetDistance] changes the offset distance. *)
Lemma attackRun_offset (ops : list AttackOp) :
  forall a a' : Attack.Attack,
    attackRun ops a = Some a' -> Forall keepsOffset ops ->
    Attack.offsetDistance (Attack.config a')
    = Attack.offsetDistance (Attack.config a).
Proof.
  induction ops as [| o ops IH]; intros a a' Hrun HF; simpl in Hrun.
  - now injection Hrun as <-.
  - inversion HF as [| ? ? Ho HF']; subst.
    destruct (attackStep o a) as [a1 |] eqn:Hstep; [| discriminate].
    simpl in Hrun. rewrite (IH a1 a' Hrun HF').
    destruct o as [vx vy | | | | | | | |]; simpl in *;
      try (injection Hstep as <-; reflexivity).
    + unfold Attack.updateDirection in Hstep.
      destruct (_ || _); [| now injection Hstep as <-].
      destruct (div vx _); simpl in Hstep; [| discriminate].
      destruct (div vy _); simpl in Hstep; [| discriminate].
      now injection Hstep as <-.
    + injection Hstep as <-. unfold Attack.update.
      destruct (_ >=? _); reflexivity.
    + contradiction.
Qed.

(** C10.  A new attack faces [(1, 0)].  In a run of updates, clean-ups and
    setter calls in which [updateDirection] is never called with a
    non-zero velocity, the attack still faces [(1, 0)] and every fire puts
    the new sprite at the player's position moved along the x axis by the
    attack's current [offsetDistance] (the configured one unless
    [setOffsetDistance] was called): to the right of the player exactly
    when that distance is positive.  [updateDirection] with a non-zero
    velocity stores the velocity divided by its Euclidean length, a vector
    of length 1. *)
Theorem C10_facing_direction :
  forall (cfg : Attack.AxeHackConfig) (ops : list AttackOp) (a : Attack.Attack)
         (id : nat) (player : Sprite) (vx vy : R),
    Attack.currentDirection (Attack.new cfg) = Attack.mkDirection 1 0 /\
    (attackRun ops (Attack.new cfg) = Some a ->
     Forall velocityZero ops ->
     Attack.currentDirection a = Attack.mkDirection 1 0 /\
     (Forall keepsOffset ops ->
      Attack.offsetDistance (Attack.config a) = Attack.offsetDistance cfg) /\
     exists slash,
       Attack.activeAttacks (Attack.execute id player a)
       = Attack.activeAttacks a ++ [slash] /\
       sid slash = id /\
       sprite_x slash
       = (sprite_x player + Attack.offsetDistance (Attack.config a))%R /\
       sprite_y slash = sprite_y player /\
       ((0 < Attack.offsetDistance (Attack.config a))%R <->
        (sprite_x player < sprite_x slash)%R)) /\
    (vx <> 0%R \/ vy <> 0%R ->
     exists a',
       Attack.updateDirection vx vy a = Some a' /\
       Attack.dir_x (Attack.currentDirection a')
       = (vx / sqrt (vx * vx + vy * vy))%R /\
       Attack.dir_y (Attack.currentDirection a')
       = (vy / sqrt (vx * vx + vy * vy))%R /\
       sqrt (Attack.dir_x (Attack.currentDirection a')
               * Attack.dir_x (Attack.currentDirection a')
             + Attack.dir_y (Attack.currentDirection a')
               * Attack.dir_y (Attack.currentDirection a')) = 1%R).
Proof.
  intros cfg ops a id player vx vy.
  split; [reflexivity |]. split.
  - intros Hrun HF.
    destruct (attackRun_direction ops (Attack.new cfg) HF) as (a' & Hrun' & Hd).
    rewrite Hrun in Hrun'. injection Hrun' as <-. simpl in Hd.
    split; [exact Hd |].
    split; [intros HK; exact (attackRun_offset ops _ a Hrun HK) |].
    eexists. split; [reflexivity |]. simpl. rewrite Hd. simpl.
    split; [reflexivity |].
    split; [ring |]. split; [ring |].
    split; intros Hpos; lra.
  - intros Hnz.
    destruct (updateDirection_nonzero vx vy a Hnz) as (Hupd & _ & Hlen).
    eexists. split; [exact Hupd |]. simpl. auto.
Qed.

(** The attack of the game scene, created and left without any movement of
    the player for a firing, a change of its damage and a clean-up; then
    the player moves down and to the right. *)
Lemma C10_facing_direction_witness :
  let cfg := Attack.DEFAULT_AXE_HACK_CONFIG in
  let p := newSprite 0 1600 1200 "player" in
  let ops := [OpAttackUpdate 1 p 2000; OpUpdateDirection 0 0; OpSetDamage 30;
              OpDestroyAttack 1] in
  exists a,
    attackRun ops (Attack.new cfg) = Some a /\
    Attack.currentDirection a = Attack.mkDirection 1 0 /\
    (exists slash,
       Attack.activeAttacks (Attack.execute 2 p a)
       = Attack.activeAttacks a ++ [slash] /\
       sprite_x slash = (1600 + 40)%R /\ sprite_y slash = 1200%R /\
       (sprite_x p < sprite_x slash)%R) /\
    exists a',
      Attack.updateDirection 200 200 a = Some a' /\
      sqrt (Attack.dir_x (Attack.currentDirection a')
              * Attack.dir_x (Attack.currentDirection a')
            + Attack.dir_y (Attack.currentDirection a')
              * Attack.dir_y (Attack.currentDirection a')) = 1%R.
Proof.
  cbv zeta.
  assert (Hrun : exists a,
             attackRun [OpAttackUpdate 1 (newSprite 0 1600 1200 "player") 2000;
                        OpUpdateDirection 0 0; OpSetDamage 30;
                        OpDestroyAttack 1]
                       (Attack.new Attack.DEFAULT_AXE_HACK_CONFIG) = Some a).
  { simpl. rewrite updateDirection_zero. simpl. eauto. }
  destruct Hrun as (a & Hrun). exists a.
  destruct (C10_facing_direction Attack.DEFAULT_AXE_HACK_CONFIG
              [OpAttackUpdate 1 (newSprite 0 1600 1200 "player") 2000;
               OpUpdateDirection 0 0; OpSetDamage 30; OpDestroyAttack 1]
              a 2%nat (newSprite 0 1600 1200 "player") 200%R 200%R)
    as (_ & Hfire & Hnorm).
  destruct (Hfire Hrun) as (Hd & Hoff & slash & Hs & _ & Hx & Hy & Hright).
  { repeat constructor; simpl; auto. }
  rewrite Hoff in Hx, Hright by (repeat constructor; simpl; auto).
  destruct Hnorm as (a' & Hupd & _ & _ & Hlen); [left; lra |].
  split; [exact Hrun |]. split; [exact Hd |].
  split.
  - exists slash. split; [exact Hs |]. split; [exact Hx |].
    split; [exact Hy |]. apply Hright. simpl. lra.
  - exists a'. auto.
Defined.

(** C10, as the claim states it, fails for an attack whose
    [offsetDistance] is not positive.  An attack created with
    [offsetDistance = -35] still faces [(1, 0)], no [updateDirection] is
    ever called, and its first fire, with the player at (65, 0), puts the
    slash at (30, 0), to the left of the player. *)
Lemma C10_negative_offset_fires_leftward :
  let cfg := Attack.mkAxeHackConfig 25 2000 300 2 "slash" (-35) 90 200 in
  let p := newSprite 0 65 0 "player" in
  let a := Attack.update 1 p 2000 (Attack.new cfg) in
  Attack.currentDirection (Attack.new cfg) = Attack.mkDirection 1 0 /\
  exists slash,
    Attack.activeAttacks a = [slash] /\
    sprite_x slash = 30%R /\ sprite_y slash = 0%R /\
    (sprite_x slash < sprite_x p)%R.
Proof.
  cbv zeta. split; [reflexivity |].
  eexists. split; [reflexivity |]. simpl.
  split; [lra |]. split; [lra |]. lra.
Qed.

(** ** SpawnManager: the scripted schedule *)

Section ClockFacts.

Import SpawnManager.

Lemma run_idle (fuel : nat) (until : Z) (m : SpawnManager) (ev : TimerEvent) :
  earliest (timers (clock m)) = Some ev -> until < due ev ->
  run fuel until m
  = Some (with_clock (mkClock until (timers (clock m)) (nextTimer (clock m))
                              (dispatched (clock m))) m).
Proof.
  intros He Hlt.
  destruct fuel; simpl; rewrite He;
    (destruct (due ev <=? until) eqn:E; [lia | reflexivity]).
Qed.

Lemma run_step (fuel : nat) (until : Z) (m : SpawnManager) (ev : TimerEvent) :
  earliest (timers (clock m)) = Some ev -> due ev <= until ->
  run (S fuel) until m = run fuel until (fire ev m).
Proof.
  intros He Hle. simpl. rewrite He.
  destruct (due ev <=? until) eqn:E; [reflexivity | lia].
Qed.

(** More fuel does not change the outcome of a run that ends. *)
Lemma run_more (fuel : nat) :
  forall (until : Z) (m m' : SpawnManager) (k : nat),
    run fuel until m = Some m' -> run (fuel + k) until m = Some m'.
Proof.
  induction fuel as [| fuel IH]; intros u m m' k Hrun.
  - simpl in Hrun. destruct k as [| k]; [exact Hrun |].
    simpl. destruct (earliest (timers (clock m))) as [ev |]; [| exact Hrun].
    destruct (due ev <=? u); [discriminate | exact Hrun].
  - simpl in *. destruct (earliest (timers (clock m))) as [ev |]; [| exact Hrun].
    destruct (due ev <=? u); [| exact Hrun].
    now apply IH.
Qed.

Lemma spawnMany_length (m : SpawnManager) (type : MonsterType)
  (cfg : option Goblin.GoblinConfig) (n : nat) :
  forall s : Spawner,
    length (monsters (spawnMany m type cfg n s)) = (length (monsters s) + n)%nat.
Proof.
  induction n as [| n IH]; intros s; simpl; [lia |].
  rewrite IH. destruct type. simpl. rewrite length_app. simpl. lia.
Qed.

Lemma filter_handle_id (h : nat) (l : list TimerEvent) :
  h ∉ map handle l ->
  List.filter (fun ev => negb (Nat.eqb (handle ev) h)) l = l.
Proof.
  induction l as [| ev l IH]; intros Hnotin; [reflexivity |].
  simpl in *. apply not_elem_of_cons in Hnotin as [Hne Hnotin].
  destruct (Nat.eqb_spec (handle ev) h) as [Heq | _]; simpl.
  - congruence.
  - f_equal. now apply IH.
Qed.

(** Removing the timers of a handle that occurs once removes one timer. *)
Lemma filter_handle_length (old : nat) (l : list TimerEvent) :
  NoDup (map handle l) -> old ∈ map handle l ->
  S (length (List.filter (fun ev => negb (Nat.eqb (handle ev) old)) l))
  = length l.
Proof.
  induction l as [| ev l IH]; intros Hnd Hin; simpl in *.
  - now apply elem_of_nil in Hin.
  - apply NoDup_cons in Hnd as [Hnotin Hnd].
    destruct (Nat.eqb_spec (handle ev) old) as [Heq | Hne]; simpl.
    + subst old. now rewrite filter_handle_id.
    + f_equal. apply IH; [assumption |].
      apply elem_of_cons in Hin as [Heq | Hin]; [congruence | assumption].
Qed.

Lemma filter_handle_absent (old : nat) (l : list TimerEvent) :
  old ∉ map handle (List.filter (fun ev => negb (Nat.eqb (handle ev) old)) l).
Proof.
  rewrite list_elem_of_In, in_map_iff. intros (ev & Hh & Hin).
  apply filter_In in Hin as [_ Hne].
  rewrite Hh, Nat.eqb_refl in Hne. discriminate.
Qed.

End ClockFacts.

(** ** SpawnManager: the looping schedule of the scenario *)

Section LoopFacts.

Import SpawnManager.

Lemma spawnMany_appends (m : SpawnManager) (type : MonsterType)
  (cfg : option Goblin.GoblinConfig) (n : nat) :
  forall s : Spawner,
  exists new,
    monsters (spawnMany m type cfg n s) = monsters s ++ new /\
    length new = n /\ Forall freshlySpawned new.
Proof.
  induction n as [| n IH]; intros s; simpl.
  - exists []. rewrite app_nil_r. repeat split; constructor.
  - destruct (IH (snd (spawnMonster m type cfg s))) as (new & Hm & Hl & Hf).
    destruct type. simpl in *.
    eexists (_ :: new). rewrite Hm, <- app_assoc. simpl.
    split; [reflexivity |]. split; [now rewrite Hl |].
    constructor; [| exact Hf]. unfold freshlySpawned. simpl. auto.
Qed.

Lemma executeWave_appends (w : SpawnWave) (m : SpawnManager) :
  exists new,
    monsters (spawner (executeWave w m)) = monsters (spawner m) ++ new /\
    length new = waveSize w /\ Forall freshlySpawned new.
Proof.
  unfold executeWave, waveSize. simpl.
  generalize (spawner m) as s.
  induction (spawns w) as [| e es IH]; intros s; simpl.
  - exists []. rewrite app_nil_r. repeat split; constructor.
  - destruct (spawnMany_appends m (se_monsterType e) (se_config e)
                (se_count e) s) as (new1 & H1 & L1 & F1).
    destruct (IH (spawnMany m (se_monsterType e) (se_config e) (se_count e) s))
      as (new2 & H2 & L2 & F2).
    exists (new1 ++ new2). rewrite H2, H1, <- app_assoc.
    split; [reflexivity |]. split.
    + rewrite length_app. lia.
    + apply Forall_app. split; assumption.
Qed.

(** [executeNextWave] registers a timer or does nothing; it spawns nothing. *)
Lemma executeNextWave_spawner (m : SpawnManager) :
  spawner (executeNextWave m) = spawner m.
Proof.
  unfold executeNextWave.
  destruct (currentSchedule m) as [sc |]; [| reflexivity].
  destruct (Nat.leb _ _).
  - destruct (default false (loop sc)); reflexivity.
  - destruct (waves sc !! currentWaveIndex m); reflexivity.
Qed.

(** The dispatch of a wave's timer appends the wave's monsters to the live
    list; the dispatch of the loop's timer spawns nothing. *)
Lemma fire_wave_monsters (ev : TimerEvent) (m : SpawnManager) (w : SpawnWave) :
  callback ev = RunWave w ->
  exists new,
    monsters (spawner (fire ev m)) = monsters (spawner m) ++ new /\
    length new = waveSize w /\ Forall freshlySpawned new.
Proof.
  intros Hc. unfold fire. rewrite Hc. unfold runCallback.
  rewrite executeNextWave_spawner.
  match goal with |- context [executeWave w ?m0] =>
    destruct (executeWave_appends w m0) as (new & Hm & Hl & Hf)
  end.
  exists new. simpl in *. auto.
Qed.

Lemma fire_next_monsters (ev : TimerEvent) (m : SpawnManager) :
  callback ev = NextWave -> spawner (fire ev m) = spawner m.
Proof.
  intros Hc. unfold fire. rewrite Hc. unfold runCallback.
  now rewrite executeNextWave_spawner.
Qed.

(** A run that stops before the next timer is due moves the clock only. *)
Lemma run_stops (fuel : nat) (until : Z) (m : SpawnManager) (ev : TimerEvent) :
  earliest (timers (clock m)) = Some ev -> until < due ev ->
  exists m',
    run fuel until m = Some m' /\
    now (clock m') = until /\
    wavesExecuted m' = wavesExecuted m /\
    spawner m' = spawner m.
Proof.
  intros He Hlt. rewrite (run_idle fuel until m ev He Hlt).
  eexists. split; [reflexivity |]. auto.
Qed.

End LoopFacts.

(** C3.  The schedule with waves of delay 0 and 5000, [loop = true] and
    [loopDelay = 15000], started on a new manager at clock time 0 and run
    to any time [until] before 40000: the waves executed by then are those
    of wave 0 at 0, wave 1 at 5000, wave 0 at 20000 and wave 1 at 25000
    whose time has come, and no others, and the live list holds exactly
    the monsters those waves ask for, each as it was spawned.  Run to
    25000 these are all four waves (five dispatches of the clock
    suffice). *)
Theorem C3_looping_schedule :
  forall (spawns0 spawns1 : list SpawnManager.SpawnEvent)
         (cam : SpawnManager.Camera) (rnd : nat -> R) (W H : R)
         (fuel : nat) (until : Z),
    (5 <= fuel)%nat ->
    0 <= until < 40000 ->
    let wave0 := SpawnManager.mkSpawnWave 0 spawns0 in
    let wave1 := SpawnManager.mkSpawnWave 5000 spawns1 in
    let schedule :=
      SpawnManager.mkSpawnSchedule [wave0; wave1] (Some true) (Some 15000) in
    let start :=
      SpawnManager.startSchedule schedule
        (SpawnManager.new (SpawnManager.mkClock 0 [] 0 []) cam rnd W H) in
    let plan := [(0, wave0); (5000, wave1); (20000, wave0); (25000, wave1)] in
    exists m,
      SpawnManager.run fuel until start = Some m /\
      SpawnManager.now (SpawnManager.clock m) = until /\
      SpawnManager.wavesExecuted m = executedBy until plan /\
      length (SpawnManager.getMonsters m)
      = spawnedBy (executedBy until plan) /\
      Forall freshlySpawned (SpawnManager.getMonsters m) /\
      (until = 25000 -> SpawnManager.wavesExecuted m = plan).
Proof.
  intros spawns0 spawns1 cam rnd W H fuel until Hfuel Hu
         wave0 wave1 schedule start plan.
  set (ev0 := SpawnManager.mkTimerEvent 0 0 0 false (SpawnManager.RunWave wave0)).
  set (ev1 := SpawnManager.mkTimerEvent 1 5000 5000 false
                (SpawnManager.RunWave wave1)).
  set (ev2 := SpawnManager.mkTimerEvent 2 20000 15000 false SpawnManager.NextWave).
  set (ev3 := SpawnManager.mkTimerEvent 3 20000 0 false
                (SpawnManager.RunWave wave0)).
  set (ev4 := SpawnManager.mkTimerEvent 4 25000 5000 false
                (SpawnManager.RunWave wave1)).
  set (ev5 := SpawnManager.mkTimerEvent 5 40000 15000 false SpawnManager.NextWave).
  set (s1 := SpawnManager.fire ev0 start).
  set (s2 := SpawnManager.fire ev1 s1).
  set (s3 := SpawnManager.fire ev2 s2).
  set (s4 := SpawnManager.fire ev3 s3).
  set (s5 := SpawnManager.fire ev4 s4).
  assert (E0 : SpawnManager.earliest (SpawnManager.timers (SpawnManager.clock start))
               = Some ev0) by (vm_compute; reflexivity).
  assert (E1 : SpawnManager.earliest (SpawnManager.timers (SpawnManager.clock s1))
               = Some ev1) by (vm_compute; reflexivity).
  assert (E2 : SpawnManager.earliest (SpawnManager.timers (SpawnManager.clock s2))
               = Some ev2) by (vm_compute; reflexivity).
  assert (E3 : SpawnManager.earliest (SpawnManager.timers (SpawnManager.clock s3))
               = Some ev3) by (vm_compute; reflexivity).
  assert (E4 : SpawnManager.earliest (SpawnManager.timers (SpawnManager.clock s4))
               = Some ev4) by (vm_compute; reflexivity).
  assert (E5 : SpawnManager.earliest (SpawnManager.timers (SpawnManager.clock s5))
               = Some ev5) by (vm_compute; reflexivity).
  assert (L1 : SpawnManager.wavesExecuted s1 = [(0, wave0)])
    by (vm_compute; reflexivity).
  assert (L2 : SpawnManager.wavesExecuted s2 = [(0, wave0); (5000, wave1)])
    by (vm_compute; reflexivity).
  assert (L4 : SpawnManager.wavesExecuted s4
               = [(0, wave0); (5000, wave1); (20000, wave0)])
    by (vm_compute; reflexivity).
  assert (L5 : SpawnManager.wavesExecuted s5 = plan)
    by (vm_compute; reflexivity).
  assert (X1 : exists n1,
             SpawnManager.monsters (SpawnManager.spawner s1) = n1 /\
             length n1 = waveSize wave0 /\ Forall freshlySpawned n1).
  { destruct (fire_wave_monsters ev0 start wave0 eq_refl) as (n & M & N & F).
    exists n. split; [exact M | split; assumption]. }
  destruct X1 as (n1 & M1 & N1 & F1).
  assert (X2 : exists n2,
             SpawnManager.monsters (SpawnManager.spawner s2) = n1 ++ n2 /\
             length n2 = waveSize wave1 /\ Forall freshlySpawned n2).
  { destruct (fire_wave_monsters ev1 s1 wave1 eq_refl) as (n & M & N & F).
    exists n. rewrite <- M1. split; [exact M | split; assumption]. }
  destruct X2 as (n2 & M2 & N2 & F2).
  assert (M3 : SpawnManager.spawner s3 = SpawnManager.spawner s2)
    by exact (fire_next_monsters ev2 s2 eq_refl).
  assert (X4 : exists n4,
             SpawnManager.monsters (SpawnManager.spawner s4)
             = (n1 ++ n2) ++ n4 /\
             length n4 = waveSize wave0 /\ Forall freshlySpawned n4).
  { destruct (fire_wave_monsters ev3 s3 wave0 eq_refl) as (n & M & N & F).
    exists n. rewrite <- M2, <- M3. split; [exact M | split; assumption]. }
  destruct X4 as (n4 & M4 & N4 & F4).
  assert (X5 : exists n5,
             SpawnManager.monsters (SpawnManager.spawner s5)
             = ((n1 ++ n2) ++ n4) ++ n5 /\
             length n5 = waveSize wave1 /\ Forall freshlySpawned n5).
  { destruct (fire_wave_monsters ev4 s4 wave1 eq_refl) as (n & M & N & F).
    exists n. rewrite <- M4. split; [exact M | split; assumption]. }
  destruct X5 as (n5 & M5 & N5 & F5).
  unfold SpawnManager.getMonsters, executedBy, spawnedBy, plan. simpl.
  assert (S1 : SpawnManager.fire ev0 start = s1) by reflexivity.
  assert (S2 : SpawnManager.fire ev1 s1 = s2) by reflexivity.
  assert (S3 : SpawnManager.fire ev2 s2 = s3) by reflexivity.
  assert (S4 : SpawnManager.fire ev3 s3 = s4) by reflexivity.
  assert (S5 : SpawnManager.fire ev4 s4 = s5) by reflexivity.
  clearbody s1 s2 s3 s4 s5 start.
  destruct (Z_lt_le_dec until 5000) as [H1 | H1];
    [| destruct (Z_lt_le_dec until 20000) as [H2 | H2];
       [| destruct (Z_lt_le_dec until 25000) as [H3 | H3]]].
  - (* one dispatch *)
    replace fuel with (1 + (fuel - 1))%nat by lia.
    destruct (run_stops 0 until s1 ev1 E1 H1) as (m & Hrun & Hn & Hl & Hs).
    exists m. split.
    { apply run_more. rewrite (run_step 0 until start ev0 E0) by (simpl; lia).
      rewrite S1. exact Hrun. }
    rewrite (proj2 (Z.leb_le 0 until)) by lia.
    rewrite (proj2 (Z.leb_gt 5000 until)) by lia.
    rewrite (proj2 (Z.leb_gt 20000 until)) by lia.
    rewrite (proj2 (Z.leb_gt 25000 until)) by lia.
    rewrite Hl, Hs, L1, M1. simpl.
    repeat split; try assumption; try lia.
  - (* two dispatches *)
    replace fuel with (2 + (fuel - 2))%nat by lia.
    destruct (run_stops 0 until s2 ev2 E2 H2) as (m & Hrun & Hn & Hl & Hs).
    exists m. split.
    { apply run_more. rewrite (run_step 1 until start ev0 E0) by (simpl; lia).
      rewrite S1. rewrite (run_step 0 until s1 ev1 E1) by (simpl; lia).
      rewrite S2. exact Hrun. }
    rewrite (proj2 (Z.leb_le 0 until)) by lia.
    rewrite (proj2 (Z.leb_le 5000 until)) by lia.
    rewrite (proj2 (Z.leb_gt 20000 until)) by lia.
    rewrite (proj2 (Z.leb_gt 25000 until)) by lia.
    rewrite Hl, Hs, L2, M2. simpl. rewrite length_app.
    repeat split; try assumption; try lia.
    apply Forall_app; split; assumption.
  - (* four dispatches *)
    replace fuel with (4 + (fuel - 4))%nat by lia.
    destruct (run_stops 0 until s4 ev4 E4 H3) as (m & Hrun & Hn & Hl & Hs).
    exists m. split.
    { apply run_more. rewrite (run_step 3 until start ev0 E0) by (simpl; lia).
      rewrite S1. rewrite (run_step 2 until s1 ev1 E1) by (simpl; lia).
      rewrite S2. rewrite (run_step 1 until s2 ev2 E2) by (simpl; lia).
      rewrite S3. rewrite (run_step 0 until s3 ev3 E3) by (simpl; lia).
      rewrite S4. exact Hrun. }
    rewrite (proj2 (Z.leb_le 0 until)) by lia.
    rewrite (proj2 (Z.leb_le 5000 until)) by lia.
    rewrite (proj2 (Z.leb_le 20000 until)) by lia.
    rewrite (proj2 (Z.leb_gt 25000 until)) by lia.
    rewrite Hl, Hs, L4, M4. simpl. rewrite !length_app.
    repeat split; try assumption; try lia.
    repeat (apply Forall_app; split); assumption.
  - (* five dispatches *)
    replace fuel with (5 + (fuel - 5))%nat by lia.
    assert (H4 : until < SpawnManager.due ev5) by (simpl; lia).
    destruct (run_stops 0 until s5 ev5 E5 H4) as (m & Hrun & Hn & Hl & Hs).
    exists m. split.
    { apply run_more. rewrite (run_step 4 until start ev0 E0) by (simpl; lia).
      rewrite S1. rewrite (run_step 3 until s1 ev1 E1) by (simpl; lia).
      rewrite S2. rewrite (run_step 2 until s2 ev2 E2) by (simpl; lia).
      rewrite S3. rewrite (run_step 1 until s3 ev3 E3) by (simpl; lia).
      rewrite S4. rewrite (run_step 0 until s4 ev4 E4) by (simpl; lia).
      rewrite S5. exact Hrun. }
    rewrite (proj2 (Z.leb_le 0 until)) by lia.
    rewrite (proj2 (Z.leb_le 5000 until)) by lia.
    rewrite (proj2 (Z.leb_le 20000 until)) by lia.
    rewrite (proj2 (Z.leb_le 25000 until)) by lia.
    rewrite Hl, Hs, L5, M5. simpl. rewrite !length_app.
    repeat split; try assumption; try lia.
    repeat (apply Forall_app; split); assumption.
Qed.

(** Three goblins in wave 0 and five in wave 1, run to 25000: the four wave
    executions and the sixteen goblins they spawn. *)
Lemma C3_looping_schedule_witness :
  let spawns0 := [SpawnManager.mkSpawnEvent SpawnManager.goblin 3 None] in
  let spawns1 := [SpawnManager.mkSpawnEvent SpawnManager.goblin 5 None] in
  let wave0 := SpawnManager.mkSpawnWave 0 spawns0 in
  let wave1 := SpawnManager.mkSpawnWave 5000 spawns1 in
  exists m,
    SpawnManager.run 5 25000
      (SpawnManager.startSchedule
         (SpawnManager.mkSpawnSchedule [wave0; wave1] (Some true) (Some 15000))
         (SpawnManager.new (SpawnManager.mkClock 0 [] 0 [])
            (SpawnManager.mkCamera 1088 816 1024 768) (fun _ => 0%R) 3200 2400))
    = Some m /\
    SpawnManager.now (SpawnManager.clock m) = 25000 /\
    SpawnManager.wavesExecuted m
    = [(0, wave0); (5000, wave1); (20000, wave0); (25000, wave1)] /\
    length (SpawnManager.getMonsters m) = 16%nat.
Proof.
  cbv zeta.
  destruct (C3_looping_schedule
              [SpawnManager.mkSpawnEvent SpawnManager.goblin 3 None]
              [SpawnManager.mkSpawnEvent SpawnManager.goblin 5 None]
              (SpawnManager.mkCamera 1088 816 1024 768) (fun _ => 0%R)
              3200 2400 5 25000)
    as (m & Hrun & Hn & _ & Hlen & _ & Hlog); [lia | lia |].
  exists m. split; [exact Hrun |]. split; [exact Hn |].
  split; [exact (Hlog eq_refl) | exact Hlen].
Defined.

(** ** SpawnManager: repeating spawns *)

Section RepeatingFacts.

Import SpawnManager.

(** Every run of a repeating spawn's callback adds [count] monsters. *)
Lemma fire_RepeatSpawn (cfg : RepeatingSpawnConfig) (ev : TimerEvent)
  (m : SpawnManager) :
  callback ev = RepeatSpawn cfg ->
  length (monsters (spawner (fire ev m)))
  = (length (monsters (spawner m)) + count cfg)%nat.
Proof.
  intros Hcb. unfold fire. rewrite Hcb. simpl. apply spawnMany_length.
Qed.

(** A key registered twice on a new manager: run for one interval of the
    second registration, the manager has spawned that registration's
    [count], whatever the first registration asked for. *)
Lemma reregistered_run (id : string) (prior cfg : RepeatingSpawnConfig)
  (cam : Camera) (rnd : nat -> R) (W H : R) (fuel : nat) :
  0 < interval cfg -> (1 <= fuel)%nat ->
  exists m',
    run fuel (interval cfg)
        (addRepeatingSpawn id cfg
           (addRepeatingSpawn id prior (new (mkClock 0 [] 0 []) cam rnd W H)))
    = Some m' /\
    length (monsters (spawner m')) = count cfg.
Proof.
  intros Hpos Hfuel. destruct fuel as [| fuel]; [lia |].
  set (ev := mkTimerEvent 1 (0 + interval cfg) (interval cfg) true
                          (RepeatSpawn cfg)).
  set (ev' := mkTimerEvent 1 (0 + interval cfg + interval cfg) (interval cfg)
                           true (RepeatSpawn cfg)).
  assert (Hst : exists rs,
             addRepeatingSpawn id cfg
               (addRepeatingSpawn id prior (new (mkClock 0 [] 0 []) cam rnd W H))
             = mkSpawnManager (mkClock 0 [ev] 2 []) cam rnd (mkSpawner [] 0 0)
                              W H 100 None 0 None rs).
  { unfold addRepeatingSpawn, removeRepeatingSpawn. simpl.
    rewrite lookup_empty. simpl. rewrite lookup_insert_eq. simpl.
    eexists. reflexivity. }
  destruct Hst as (rs & ->).
  rewrite (run_step fuel (interval cfg) _ ev) by (reflexivity || (simpl; lia)).
  rewrite (run_idle fuel (interval cfg) _ ev') by (reflexivity || (simpl; lia)).
  eexists. split; [reflexivity |].
  simpl. now rewrite spawnMany_length.
Qed.

End RepeatingFacts.

(** C7.  [addRepeatingSpawn id cfg] on a manager that has the timer [old]
    registered under [id]: the clock loses exactly the timer [old] and
    gains exactly one timer, a repeating one of period [interval cfg] that
    runs the callback of [cfg]; the key now maps to that timer; no monster
    is spawned by the call.  Every run of that callback adds [count cfg]
    monsters; the cancelled timer is no longer on the clock, so after one
    interval a manager on which the key was registered twice has spawned
    [count cfg] monsters and not the counts of both registrations.  The
    call returns normally. *)
Theorem C7_reregistration_replaces_timer :
  forall (id : string) (cfg : SpawnManager.RepeatingSpawnConfig)
         (m : SpawnManager.SpawnManager) (old : nat),
    SpawnManager.repeatingSpawns m !! id = Some old ->
    NoDup (map SpawnManager.handle (SpawnManager.timers (SpawnManager.clock m))) ->
    (old ∈ map SpawnManager.handle (SpawnManager.timers (SpawnManager.clock m))) ->
    Forall (fun ev => (SpawnManager.handle ev
                       < SpawnManager.nextTimer (SpawnManager.clock m))%nat)
           (SpawnManager.timers (SpawnManager.clock m)) ->
    let m' := SpawnManager.addRepeatingSpawn id cfg m in
    let installed :=
      SpawnManager.mkTimerEvent
        (SpawnManager.nextTimer (SpawnManager.clock m))
        (SpawnManager.now (SpawnManager.clock m) + SpawnManager.interval cfg)
        (SpawnManager.interval cfg) true (SpawnManager.RepeatSpawn cfg) in
    SpawnManager.timers (SpawnManager.clock m')
    = List.filter
        (fun ev => negb (Nat.eqb (SpawnManager.handle ev) old))
        (SpawnManager.timers (SpawnManager.clock m)) ++ [installed] /\
    length (SpawnManager.timers (SpawnManager.clock m'))
    = length (SpawnManager.timers (SpawnManager.clock m)) /\
    (old ∉ map SpawnManager.handle
             (SpawnManager.timers (SpawnManager.clock m'))) /\
    SpawnManager.repeatingSpawns m'
    = <[id := SpawnManager.handle installed]> (SpawnManager.repeatingSpawns m) /\
    SpawnManager.spawner m' = SpawnManager.spawner m /\
    (forall (ev : SpawnManager.TimerEvent) (st : SpawnManager.SpawnManager),
        SpawnManager.callback ev = SpawnManager.RepeatSpawn cfg ->
        length (SpawnManager.monsters (SpawnManager.spawner (SpawnManager.fire ev st)))
        = (length (SpawnManager.monsters (SpawnManager.spawner st))
           + SpawnManager.count cfg)%nat) /\
    (forall (prior : SpawnManager.RepeatingSpawnConfig)
            (cam : SpawnManager.Camera) (rnd : nat -> R) (W H : R) (fuel : nat),
        0 < SpawnManager.interval cfg -> (1 <= fuel)%nat ->
        exists st,
          SpawnManager.run fuel (SpawnManager.interval cfg)
            (SpawnManager.addRepeatingSpawn id cfg
               (SpawnManager.addRepeatingSpawn id prior
                  (SpawnManager.new (SpawnManager.mkClock 0 [] 0 []) cam rnd W H)))
          = Some st /\
          length (SpawnManager.monsters (SpawnManager.spawner st))
          = SpawnManager.count cfg).
Proof.
  intros id cfg m old Hold Hnd Hin Hfresh m' installed. subst m' installed.
  unfold SpawnManager.addRepeatingSpawn, SpawnManager.removeRepeatingSpawn.
  rewrite Hold. simpl.
  split; [reflexivity |]. split.
  { rewrite length_app. simpl. rewrite Nat.add_1_r.
    now apply filter_handle_length. }
  split.
  { rewrite map_app. simpl. intros Hin'.
    apply elem_of_app in Hin' as [Hin' | Hin'].
    - now apply filter_handle_absent in Hin'.
    - apply list_elem_of_singleton in Hin'.
      apply list_elem_of_In, in_map_iff in Hin as (ev & Hh & Hev).
      apply list_elem_of_In in Hev.
      rewrite Forall_forall in Hfresh. specialize (Hfresh ev Hev). lia. }
  split; [apply insert_delete_eq |].
  split; [reflexivity |].
  split; [intros ev st; apply fire_RepeatSpawn |].
  intros prior cam rnd W H fuel. apply reregistered_run.
Qed.

(** The game scene's registration of its goblin spawn, made a second time
    with three goblins every two seconds. *)
Lemma C7_reregistration_replaces_timer_witness :
  let first := SpawnManager.mkRepeatingSpawnConfig SpawnManager.goblin 5000 1 None in
  let second := SpawnManager.mkRepeatingSpawnConfig SpawnManager.goblin 2000 3 None in
  let m :=
    SpawnManager.addRepeatingSpawn "goblins" first
      (SpawnManager.new (SpawnManager.mkClock 0 [] 0 [])
         (SpawnManager.mkCamera 1088 816 1024 768) (fun _ => 0%R) 3200 2400) in
  let m' := SpawnManager.addRepeatingSpawn "goblins" second m in
  SpawnManager.repeatingSpawns m !! "goblins" = Some 0%nat /\
  SpawnManager.timers (SpawnManager.clock m')
  = [SpawnManager.mkTimerEvent 1 2000 2000 true (SpawnManager.RepeatSpawn second)] /\
  length (SpawnManager.timers (SpawnManager.clock m')) = 1%nat.
Proof.
  cbv zeta.
  set (m := SpawnManager.addRepeatingSpawn "goblins" _ _).
  assert (Hold : SpawnManager.repeatingSpawns m !! "goblins" = Some 0%nat).
  { subst m. unfold SpawnManager.addRepeatingSpawn, SpawnManager.removeRepeatingSpawn.
    simpl. rewrite lookup_empty. simpl. apply lookup_insert_eq. }
  assert (Htimers : SpawnManager.timers (SpawnManager.clock m)
                    = [SpawnManager.mkTimerEvent 0 5000 5000 true
                         (SpawnManager.RepeatSpawn
                            (SpawnManager.mkRepeatingSpawnConfig
                               SpawnManager.goblin 5000 1 None))]).
  { subst m. unfold SpawnManager.addRepeatingSpawn, SpawnManager.removeRepeatingSpawn.
    simpl. rewrite lookup_empty. reflexivity. }
  destruct (C7_reregistration_replaces_timer "goblins"
              (SpawnManager.mkRepeatingSpawnConfig SpawnManager.goblin 2000 3 None)
              m 0%nat Hold)
    as (Ht & Hlen & _).
  - rewrite Htimers. simpl. apply NoDup_singleton.
  - rewrite Htimers. simpl. apply list_elem_of_singleton. reflexivity.
  - rewrite Htimers. subst m. repeat constructor.
  - split; [exact Hold |]. split.
    + rewrite Ht, Htimers. subst m.
      unfold SpawnManager.addRepeatingSpawn, SpawnManager.removeRepeatingSpawn.
      simpl. rewrite lookup_empty. reflexivity.
    + rewrite Hlen, Htimers. reflexivity.
Defined.

(** ** SpawnManager: spawn placement *)

Section PlacementFacts.

Import SpawnManager.

Lemma Int_part_bounds (v : R) :
  (IZR (Int_part v) <= v < IZR (Int_part v) + 1)%R.
Proof. destruct (base_Int_part v). lra. Qed.

Lemma Int_part_eq (v : R) (z : Z) :
  (IZR z <= v < IZR z + 1)%R -> Int_part v = z.
Proof. intros Hv. symmetry. apply Int_part_spec. lra. Qed.

(** [Between] with both bounds inside [0, w], [w] a whole number, yields a
    whole number inside [0, w]; the bounds need not be ordered. *)
Lemma Between_range (lo hi rnd : R) (w : Z) :
  (0 <= rnd < 1)%R -> (0 <= lo <= IZR w)%R -> (0 <= hi <= IZR w)%R ->
  (0 <= IZR (Between lo hi rnd) <= IZR w)%R.
Proof.
  intros Hr Hlo Hhi. unfold Between.
  set (v := (rnd * (hi - lo + 1) + lo)%R).
  assert (Hv : (0 <= v < IZR w + 1)%R).
  { assert (Heq : (v = (1 - rnd) * lo + rnd * (hi + 1))%R) by (unfold v; ring).
    assert (0 <= (1 - rnd) * lo)%R by (apply Rmult_le_pos; lra).
    assert (0 <= rnd * (hi + 1))%R by (apply Rmult_le_pos; lra).
    assert ((1 - rnd) * lo <= (1 - rnd) * IZR w)%R
      by (apply Rmult_le_compat_l; lra).
    assert (rnd * (hi + 1) <= rnd * (IZR w + 1))%R
      by (apply Rmult_le_compat_l; lra).
    lra. }
  destruct (Int_part_bounds v) as [Hfl1 Hfl2].
  split.
  - apply IZR_le.
    assert (-1 < Int_part v) by (apply lt_IZR; lra). lia.
  - apply IZR_le.
    assert (Int_part v < w + 1) by (apply lt_IZR; rewrite plus_IZR; lra). lia.
Qed.

Lemma Rmax_0_range (a b : R) : (0 <= b)%R -> (a <= b)%R -> (0 <= Rmax 0 a <= b)%R.
Proof. intros Hb Hab. unfold Rmax. destruct (Rle_dec 0 a); lra. Qed.

Lemma Rmin_range_0 (a b : R) : (0 <= b)%R -> (0 <= a)%R -> (0 <= Rmin b a <= b)%R.
Proof. intros Hb Ha. unfold Rmin. destruct (Rle_dec b a); lra. Qed.

End PlacementFacts.

(** The whole-number world is needed as well: [Between] rounds down a
    number that may exceed a fractional upper bound by almost one.  In a
    world of width 10.5 a spawn from the top side can land at x = 11. *)
Lemma spawn_outside_world_for_fractional_width :
  let cam := SpawnManager.mkCamera 0 0 1024 768 in
  let p := SpawnManager.getRandomSpawnPosition cam (21 / 2) 2400 100 0
                                               (99 / 100) in
  SpawnManager.pos_x p = 11%R /\ ~ inWorld (21 / 2) 2400 p.
Proof.
  cbv zeta.
  unfold SpawnManager.getRandomSpawnPosition, SpawnManager.Between. simpl.
  rewrite (Int_part_eq (0 * (3 - 0 + 1) + 0) 0) by lra. simpl.
  replace (Rmax 0 (0 - 100)) with 0%R
    by (unfold Rmax; destruct (Rle_dec 0 (0 - 100)); lra).
  replace (Rmin (21 / 2) (0 + 1024 + 100)) with (21 / 2)%R
    by (unfold Rmin; destruct (Rle_dec (21 / 2) (0 + 1024 + 100)); lra).
  rewrite (Int_part_eq (99 / 100 * (21 / 2 - 0 + 1) + 0) 11) by lra.
  split; [reflexivity |].
  unfold inWorld. simpl. lra.
Qed.

(** X23.  What the placement does guarantee.  For a world of whole-number
    width and height, a camera rectangle whose expansion by the spawn
    padding (100) meets the world, and any two random draws: the spawn
    position lies in [0, worldWidth] x [0, worldHeight]; and it lies
    outside the camera rectangle whenever the camera's edge on the chosen
    side is strictly inside the world. *)
Theorem X23_spawn_position_guarantee :
  forall (cam : SpawnManager.Camera) (W H : Z) (rnd1 rnd2 : R),
    (0 <= rnd1 < 1)%R -> (0 <= rnd2 < 1)%R ->
    0 <= W -> 0 <= H ->
    paddedMeetsWorld cam (IZR W) (IZR H) 100 ->
    let p := SpawnManager.getRandomSpawnPosition cam (IZR W) (IZR H) 100
                                                 rnd1 rnd2 in
    inWorld (IZR W) (IZR H) p /\
    (edgeInsideWorld cam (IZR W) (IZR H) (SpawnManager.Between 0 3 rnd1) ->
     ~ inCamera cam p).
Proof.
  intros cam W H rnd1 rnd2 Hr1 Hr2 HW HH (Hl & Hr & Ht & Hb) p. subst p.
  apply IZR_le in HW, HH.
  assert (Hleft := Rmax_0_range (SpawnManager.scrollX cam - 100) (IZR W) HW Hl).
  assert (Hright := Rmin_range_0
                      (SpawnManager.scrollX cam + SpawnManager.width cam + 100)
                      (IZR W) HW Hr).
  assert (Htop := Rmax_0_range (SpawnManager.scrollY cam - 100) (IZR H) HH Ht).
  assert (Hbottom := Rmin_range_0
                       (SpawnManager.scrollY cam + SpawnManager.height cam + 100)
                       (IZR H) HH Hb).
  assert (Hx := Between_range _ _ rnd2 W Hr2 Hleft Hright).
  assert (Hy := Between_range _ _ rnd2 H Hr2 Htop Hbottom).
  unfold SpawnManager.getRandomSpawnPosition, edgeInsideWorld, inWorld, inCamera.
  destruct (SpawnManager.Between 0 3 rnd1 =? 0);
    [| destruct (SpawnManager.Between 0 3 rnd1 =? 1);
       [| destruct (SpawnManager.Between 0 3 rnd1 =? 2)]];
    simpl; (split; [lra |]); intros Hedge [Hcx Hcy];
    revert Hcx Hcy; unfold Rmax, Rmin;
    repeat match goal with |- context [Rle_dec ?a ?b] => destruct (Rle_dec a b) end;
    lra.
Qed.

(** The camera of the game scene (1024 x 768) in the middle of the world,
    a spawn from the top side. *)
Lemma X23_spawn_position_guarantee_witness :
  let cam := SpawnManager.mkCamera 1088 816 1024 768 in
  let p := SpawnManager.getRandomSpawnPosition cam 3200 2400 100 0 (1 / 2) in
  inWorld 3200 2400 p /\
  (edgeInsideWorld cam 3200 2400 (SpawnManager.Between 0 3 0) -> ~ inCamera cam p).
Proof.
  cbv zeta.
  apply (X23_spawn_position_guarantee (SpawnManager.mkCamera 1088 816 1024 768)
                           3200 2400 0%R (1 / 2)%R);
    try lra; try lia.
  unfold paddedMeetsWorld. simpl. lra.
Defined.

(** C4.  The placement breaks the property its comment states ("outside
    the camera view but within world bounds").  With the camera at the top
    edge of the world (scroll (1000, 0), 1024 x 768, world 3200 x 2400) the
    padded camera rectangle does not cover the world, yet a spawn from the
    top side lands at (1512, 0), on the camera's visible top edge. *)
Lemma C4_spawn_inside_camera_at_world_edge :
  let cam := SpawnManager.mkCamera 1000 0 1024 768 in
  let p := SpawnManager.getRandomSpawnPosition cam 3200 2400 100 0 (1 / 2) in
  ~ paddedCoversWorld cam 3200 2400 100 /\
  p = SpawnManager.mkPosition 1512 0 /\
  inWorld 3200 2400 p /\
  inCamera cam p.
Proof.
  cbv zeta.
  assert (Hp : SpawnManager.getRandomSpawnPosition
                 (SpawnManager.mkCamera 1000 0 1024 768) 3200 2400 100 0 (1 / 2)
               = SpawnManager.mkPosition 1512 0).
  { unfold SpawnManager.getRandomSpawnPosition, SpawnManager.Between. simpl.
    rewrite (Int_part_eq (0 * (3 - 0 + 1) + 0) 0) by lra. simpl.
    replace (Rmax 0 (1000 - 100)) with 900%R
      by (unfold Rmax; destruct (Rle_dec 0 (1000 - 100)); lra).
    replace (Rmin 3200 (1000 + 1024 + 100)) with 2124%R
      by (unfold Rmin; destruct (Rle_dec 3200 (1000 + 1024 + 100)); lra).
    replace (Rmax 0 (0 - 100)) with 0%R
      by (unfold Rmax; destruct (Rle_dec 0 (0 - 100)); lra).
    rewrite (Int_part_eq (1 / 2 * (2124 - 900 + 1) + 900) 1512) by lra.
    reflexivity. }
  rewrite Hp.
  unfold paddedCoversWorld, inWorld, inCamera. simpl.
  repeat split; lra.
Qed.

(** Staying within the world also needs the camera near the world: a
    camera far to the right of it (scroll (5000, 0)) spawns its left side
    at x = 4900, beyond the world's width 3200. *)
Lemma spawn_outside_world_for_far_camera :
  let cam := SpawnManager.mkCamera 5000 0 1024 768 in
  let p := SpawnManager.getRandomSpawnPosition cam 3200 2400 100 (3 / 4) 0 in
  SpawnManager.pos_x p = 4900%R /\ ~ inWorld 3200 2400 p.
Proof.
  cbv zeta.
  unfold SpawnManager.getRandomSpawnPosition, SpawnManager.Between. simpl.
  rewrite (Int_part_eq (3 / 4 * (3 - 0 + 1) + 0) 3) by lra. simpl.
  replace (Rmax 0 (5000 - 100)) with 4900%R
    by (unfold Rmax; destruct (Rle_dec 0 (5000 - 100)); lra).
  split; [reflexivity |].
  unfold inWorld. simpl. lra.
Qed.

(** ** Game: one attack sprite against one monster *)

Section CombatFacts.

Variable player : Sprite.
Variable dmg : Z.

Lemma keyEqb_refl (k : R * R) : Game.keyEqb k k = true.
Proof. unfold Game.keyEqb. now rewrite !Rneqb_refl. Qed.

Lemma keyEqb_snd_neq (a b c d : R) : b <> d -> Game.keyEqb (a, b) (c, d) = false.
Proof.
  intros H. unfold Game.keyEqb. simpl.
  rewrite (Rneqb_neq b d H). now rewrite andb_false_r.
Qed.

(** A sprite already marked with the key of a monster leaves it alone. *)
Lemma hitMonsters_marked (s : Sprite) (m : Monster.Monster) :
  Game.getData (Game.hitKey s (Monster.sprite m)) s = true ->
  Game.hitMonsters player dmg s [m] = Some (s, [m]).
Proof.
  intros Hk. simpl. unfold Monster.getIsAlive, Monster.getSprite.
  rewrite Hk. simpl.
  destruct (negb (Monster.isAlive m)); [reflexivity |].
  destruct (negb (active (Monster.sprite m))); [reflexivity |].
  destruct (Rltb _ Game.hitRange); reflexivity.
Qed.

(** A sprite in range of a live monster and not marked with its key marks
    itself and damages the monster. *)
Lemma hitMonsters_unmarked (s : Sprite) (m : Monster.Monster) :
  Monster.isAlive m = true ->
  active (Monster.sprite m) = true ->
  (Game.DistanceBetween (sprite_x s) (sprite_y s)
                        (sprite_x (Monster.sprite m))
                        (sprite_y (Monster.sprite m)) < Game.hitRange)%R ->
  Game.getData (Game.hitKey s (Monster.sprite m)) s = false ->
  exists m',
    Monster.takeDamage player dmg m = Some m' /\
    Game.hitMonsters player dmg s [m]
    = Some (setData (Game.hitKey s (Monster.sprite m)) s, [m']).
Proof.
  intros Ha Hact Hd Hk.
  destruct (takeDamage_alive player dmg m Ha) as (vx & vy & Htd).
  eexists. split; [exact Htd |].
  simpl. unfold Monster.getIsAlive, Monster.getSprite.
  rewrite Ha, Hact. simpl.
  rewrite (Rltb_true _ _ Hd), Hk. simpl.
  rewrite Htd. reflexivity.
Qed.

End CombatFacts.

(** The distance test of [checkAttackCollisions], from the squares. *)
Lemma DistanceBetween_in_range (x1 y1 x2 y2 : R) :
  ((x1 - x2) * (x1 - x2) + (y1 - y2) * (y1 - y2) < 1600)%R ->
  (Game.DistanceBetween x1 y1 x2 y2 < Game.hitRange)%R.
Proof.
  intros H. unfold Game.DistanceBetween, Game.hitRange.
  apply sqrt_lt_bound; [apply sumsq_nonneg | lra | lra].
Qed.

(** An attack with one active sprite: the three loops amount to the inner
    one. *)
Lemma checkAttackCollisions_single (p : Sprite) (a : Attack.Attack)
  (s s' : Sprite) (ms ms' : list Monster.Monster) :
  Attack.activeAttacks a = [s] -> active s = true ->
  Game.hitMonsters p (Attack.getDamage a) s ms = Some (s', ms') ->
  Game.checkAttackCollisions (Game.mkGame p [a] ms)
  = Some (Game.mkGame p
            [Attack.mkAttack (Attack.config a) (Attack.lastAttackTime a)
                             (Attack.currentDirection a) [s']
                             (Attack.scheduled a)]
            ms').
Proof.
  intros Hs Hact Hhit. unfold Game.checkAttackCollisions. simpl.
  unfold Attack.getActiveAttacks. rewrite Hs. simpl.
  rewrite Hact. simpl. rewrite Hhit. reflexivity.
Qed.

(** C1 fails on the code.  The attack of the game scene (damage 25) fires
    once, with the player at (65, 0): one sprite, at (100, 0).  A goblin
    (health 50) stands at (110, 0).  The first call of
    [checkAttackCollisions] damages it (health 25).  The engine then moves
    the goblin 3 pixels along its knockback, to (113, 0).  The second call
    damages it again through the same sprite (health 0, dead): the mark the
    first call left is the key of the old x coordinates. *)
Theorem C1_same_sprite_damages_twice :
  let cfg := Attack.mkAxeHackConfig 25 2000 400 (5 / 2) "slash" 35 120 250 in
  let p := newSprite 0 65 0 "player" in
  let attack := Attack.update 7 p 2000 (Attack.new cfg) in
  let goblin := Goblin.new 1 110 0 None in
  exists slash attack1 m1 attack2 m2,
    Attack.activeAttacks attack = [slash] /\ sid slash = 7%nat /\
    Game.checkAttackCollisions (Game.mkGame p [attack] [goblin])
    = Some (Game.mkGame p [attack1] [m1]) /\
    Monster.currentHealth m1 = 25 /\ Monster.isAlive m1 = true /\
    map sid (Attack.activeAttacks attack1) = [7%nat] /\
    Game.checkAttackCollisions
      (Game.mkGame p [attack1]
         [Monster.with_sprite (setPosition 113 0 (Monster.sprite m1)) m1])
    = Some (Game.mkGame p [attack2] [m2]) /\
    Monster.currentHealth m2 = 0 /\ Monster.isAlive m2 = false /\
    map sid (Attack.activeAttacks attack2) = [7%nat].
Proof.
  cbv zeta.
  set (p := newSprite 0 65 0 "player").
  set (goblin := Goblin.new 1 110 0 None).
  set (attack := Attack.update 7 p 2000 _).
  assert (Hactive : exists slash,
             Attack.activeAttacks attack = [slash] /\ sid slash = 7%nat /\
             sprite_x slash = (65 + 1 * 35)%R /\ sprite_y slash = (0 + 0 * 35)%R /\
             active slash = true /\ data slash = []).
  { eexists. split; [reflexivity |]. simpl. auto. }
  destruct Hactive as (slash & Hslash & Hid & Hx & Hy & Hact & Hdata).
  assert (Hdmg : Attack.getDamage attack = 25) by reflexivity.
  clearbody attack.
  (* first call *)
  destruct (hitMonsters_unmarked p 25 slash goblin) as (m1 & Htd1 & Hhit1);
    [reflexivity | reflexivity | | |].
  { apply DistanceBetween_in_range. rewrite Hx, Hy. simpl. lra. }
  { unfold Game.getData. now rewrite Hdata. }
  destruct (takeDamage_alive p 25 goblin eq_refl) as (vx1 & vy1 & Htd1').
  rewrite Htd1 in Htd1'. injection Htd1' as ->.
  set (slash1 := setData (Game.hitKey slash (Monster.sprite goblin)) slash) in *.
  match type of Hhit1 with _ = Some (_, [?m]) => set (m1 := m) in * end.
  (* the engine moves the goblin *)
  set (moved := Monster.with_sprite (setPosition 113 0 (Monster.sprite m1)) m1).
  (* second call *)
  destruct (hitMonsters_unmarked p 25 slash1 moved) as (m2 & Htd2 & Hhit2);
    [reflexivity | reflexivity | | |].
  { apply DistanceBetween_in_range. simpl. rewrite Hx, Hy. lra. }
  { unfold Game.getData. simpl. unfold Game.hitKey. simpl.
    rewrite keyEqb_snd_neq by lra. now rewrite Hdata. }
  destruct (takeDamage_alive p 25 moved eq_refl) as (vx2 & vy2 & Htd2').
  rewrite Htd2 in Htd2'. injection Htd2' as ->.
  match type of Hhit2 with _ = Some (?s, [?m]) =>
    set (slash2 := s) in *; set (m2 := m) in * end.
  set (attack1 :=
         Attack.mkAttack (Attack.config attack) (Attack.lastAttackTime attack)
           (Attack.currentDirection attack) [slash1] (Attack.scheduled attack)).
  exists slash, attack1, m1.
  exists (Attack.mkAttack (Attack.config attack) (Attack.lastAttackTime attack)
            (Attack.currentDirection attack) [slash2] (Attack.scheduled attack)).
  exists m2.
  split; [exact Hslash |]. split; [exact Hid |].
  split.
  { apply (checkAttackCollisions_single p attack slash);
      [exact Hslash | exact Hact |].
    rewrite Hdmg. exact Hhit1. }
  split; [reflexivity |]. split; [reflexivity |].
  split; [simpl; now rewrite Hid |].
  split.
  { apply (checkAttackCollisions_single p attack1 slash1 slash2);
      [reflexivity | exact Hact |].
    change (Attack.getDamage attack1) with (Attack.getDamage attack).
    rewrite Hdmg. exact Hhit2. }
  split; [reflexivity |]. split; [reflexivity |].
  simpl. now rewrite Hid.
Qed.

(** * Further properties of the code *)

(** ** Monster: pursuit and knockback *)

Lemma sqrt_scaled_unit (dx dy k : R) :
  (0 < dx * dx + dy * dy)%R ->
  let d := sqrt (dx * dx + dy * dy) in
  sqrt ((dx / d * k) * (dx / d * k) + (dy / d * k) * (dy / d * k)) = Rabs k.
Proof.
  intros Hpos d.
  assert (Hd : (0 < d)%R) by now apply sqrt_lt_R0.
  assert (Hsq : (d * d = dx * dx + dy * dy)%R) by (apply sqrt_sqrt; lra).
  replace (dx / d * k * (dx / d * k) + dy / d * k * (dy / d * k))%R
    with ((dx * dx + dy * dy) / (d * d) * (k * k))%R by (field; lra).
  rewrite Hsq.
  replace ((dx * dx + dy * dy) / (dx * dx + dy * dy) * (k * k))%R
    with (Rsqr k) by (unfold Rsqr; field; lra).
  apply sqrt_Rsqr_abs.
Qed.

Lemma offset_nonzero (a b c d : R) :
  a <> c \/ b <> d -> (a - c)%R <> 0%R \/ (b - d)%R <> 0%R.
Proof. intros [H | H]; [left | right]; lra. Qed.

(** X1.  A monster that does not stand on its target is set moving
    straight at it with speed [|speed|]: the velocity is the unit vector
    towards the target times [speed], the sprite is flipped exactly when
    the target lies to the left, and nothing else of the monster changes. *)
Theorem X1_moveTowardsTarget_heads_for_target :
  forall (target : Sprite) (m : Monster.Monster),
    sprite_x target <> sprite_x (Monster.sprite m) \/
    sprite_y target <> sprite_y (Monster.sprite m) ->
    let dx := (sprite_x target - sprite_x (Monster.sprite m))%R in
    let dy := (sprite_y target - sprite_y (Monster.sprite m))%R in
    let distance := sqrt (dx * dx + dy * dy) in
    let vx := (dx / distance * Monster.speed (Monster.config m))%R in
    let vy := (dy / distance * Monster.speed (Monster.config m))%R in
    (0 < distance)%R /\
    Monster.moveTowardsTarget target m
    = Some (Monster.with_sprite
              (setFlipX (Rltb dx 0) (setVelocity vx vy (Monster.sprite m))) m) /\
    sqrt (vx * vx + vy * vy) = Rabs (Monster.speed (Monster.config m)).
Proof.
  intros target m Hne dx dy distance vx vy.
  assert (Hpos : (0 < dx * dx + dy * dy)%R)
    by (apply sumsq_pos, offset_nonzero, Hne).
  assert (Hd : (0 < distance)%R) by now apply sqrt_lt_R0.
  split; [exact Hd |]. split.
  - unfold Monster.moveTowardsTarget. fold dx dy. fold distance.
    rewrite (Rltb_true _ _ Hd), !div_nonzero by lra. simpl.
    fold vx vy. now destruct (Rltb dx 0).
  - now apply sqrt_scaled_unit.
Qed.

Lemma X1_moveTowardsTarget_heads_for_target_witness :
  let target := newSprite 0 100 100 "player" in
  let g := Goblin.new 1 103 104 None in
  exists m',
    Monster.moveTowardsTarget target g = Some m' /\
    flipX (Monster.sprite m') = true /\
    sqrt (velocityX (Monster.sprite m') * velocityX (Monster.sprite m')
          + velocityY (Monster.sprite m') * velocityY (Monster.sprite m'))
    = Rabs 80.
Proof.
  cbv zeta.
  destruct (X1_moveTowardsTarget_heads_for_target
              (newSprite 0 100 100 "player") (Goblin.new 1 103 104 None))
    as (_ & Hmove & Hspeed).
  { left. simpl. lra. }
  eexists. split; [exact Hmove |]. split.
  - simpl. apply Rltb_true. lra.
  - exact Hspeed.
Defined.

(** X2.  A live monster that is hit while off its target is thrown
    straight away from it with speed [|knockbackForce|], whatever velocity
    it had: the knockback replaces the pursuit of that tick. *)
Theorem X2_takeDamage_knocks_back :
  forall (target : Sprite) (amount : Z) (m : Monster.Monster),
    Monster.isAlive m = true ->
    sprite_x (Monster.sprite m) <> sprite_x target \/
    sprite_y (Monster.sprite m) <> sprite_y target ->
    let dx := (sprite_x (Monster.sprite m) - sprite_x target)%R in
    let dy := (sprite_y (Monster.sprite m) - sprite_y target)%R in
    let distance := sqrt (dx * dx + dy * dy) in
    let force := Monster.knockbackForce (Monster.config m) in
    exists m',
      Monster.takeDamage target amount m = Some m' /\
      velocityX (Monster.sprite m') = (dx / distance * force)%R /\
      velocityY (Monster.sprite m') = (dy / distance * force)%R /\
      sqrt (velocityX (Monster.sprite m') * velocityX (Monster.sprite m')
            + velocityY (Monster.sprite m') * velocityY (Monster.sprite m'))
      = Rabs force /\
      sprite_x (Monster.sprite m') = sprite_x (Monster.sprite m) /\
      sprite_y (Monster.sprite m') = sprite_y (Monster.sprite m).
Proof.
  intros target amount m Ha Hne dx dy distance force.
  assert (Hpos : (0 < dx * dx + dy * dy)%R)
    by (apply sumsq_pos, offset_nonzero, Hne).
  assert (Hd : (0 < distance)%R) by now apply sqrt_lt_R0.
  unfold Monster.takeDamage. rewrite Ha. simpl.
  unfold Monster.applyKnockback. simpl. fold dx dy. fold distance.
  rewrite (Rltb_true _ _ Hd), !div_nonzero by lra. simpl.
  assert (Hlen := sqrt_scaled_unit dx dy force Hpos). simpl in Hlen.
  fold distance in Hlen.
  destruct (Monster.currentHealth m - amount <=? 0);
    eexists; (split; [reflexivity |]); simpl; auto.
Qed.

Lemma X2_takeDamage_knocks_back_witness :
  let target := newSprite 0 100 100 "player" in
  let g := Goblin.new 1 110 100 None in
  exists m',
    Monster.takeDamage target 25 g = Some m' /\
    sqrt (velocityX (Monster.sprite m') * velocityX (Monster.sprite m')
          + velocityY (Monster.sprite m') * velocityY (Monster.sprite m'))
    = Rabs 200.
Proof.
  cbv zeta.
  destruct (X2_takeDamage_knocks_back (newSprite 0 100 100 "player") 25
              (Goblin.new 1 110 100 None) eq_refl)
    as (m' & Htd & _ & _ & Hlen & _).
  { left. simpl. lra. }
  exists m'. split; [exact Htd | exact Hlen].
Defined.

(** ** Monster: the death transition *)

(** The invariant behind X3: at most one death tween was asked for, none
    while the monster is alive, and only with the health at or below 0. *)
Lemma monsterStep_deathTweens (o : MonsterOp) (m m' : Monster.Monster) :
  monsterStep o m = Some m' ->
  ((deathTweens m <= 1)%nat /\
   (Monster.isAlive m = true -> deathTweens m = 0%nat) /\
   (deathTweens m = 1%nat -> Monster.currentHealth m <= 0)) ->
  (deathTweens m' <= 1)%nat /\
  (Monster.isAlive m' = true -> deathTweens m' = 0%nat) /\
  (deathTweens m' = 1%nat -> Monster.currentHealth m' <= 0).
Proof.
  intros Hstep (Hle & Hlive & Hdead).
  destruct o as [t a | t | time | | | | x y]; simpl in Hstep.
  - destruct (Monster.isAlive m) eqn:Ha.
    + destruct (takeDamage_alive t a m Ha) as (vx & vy & Htd).
      rewrite Htd in Hstep. injection Hstep as <-.
      specialize (Hlive eq_refl).
      unfold deathTweens in *. simpl.
      rewrite List.filter_app, length_app, Hlive. simpl.
      destruct (Monster.currentHealth m - a <=? 0) eqn:Hh; simpl.
      * split; [lia |]. split; [discriminate | lia].
      * split; [lia |]. split; [reflexivity | discriminate].
    + rewrite takeDamage_dead in Hstep by assumption.
      injection Hstep as <-.
      split; [exact Hle |]. split; [rewrite Ha; discriminate | exact Hdead].
  - destruct (update_total t m) as (s & Hu). rewrite Hu in Hstep.
    injection Hstep as <-. auto.
  - injection Hstep as <-. unfold Monster.canDealDamage.
    destruct (_ >=? _); auto.
  - injection Hstep as <-. unfold deathTweens in *. simpl.
    split; [exact Hle |]. split; [discriminate | exact Hdead].
  - injection Hstep as <-. unfold Monster.clearTintCallback.
    destruct (active _); auto.
  - injection Hstep as <-. unfold deathTweens in *. simpl.
    split; [exact Hle |]. split; [discriminate | exact Hdead].
  - injection Hstep as <-. auto.
Qed.

(** X3.  Whatever happens to a monster after its creation, it starts its
    death tween at most once, never while it is alive, and only with its
    health at or below 0; every operation on it returns normally. *)
Theorem X3_death_tween_at_most_once :
  forall (ops : list MonsterOp) (id : nat) (x y : R)
         (cfg : Monster.MonsterConfig),
  exists m',
    monsterRun ops (Monster.new id x y cfg) = Some m' /\
    (deathTweens m' <= 1)%nat /\
    (Monster.isAlive m' = true -> deathTweens m' = 0%nat) /\
    (deathTweens m' = 1%nat -> Monster.currentHealth m' <= 0).
Proof.
  intros ops id x y cfg.
  assert (Hgen : forall ops m,
             ((deathTweens m <= 1)%nat /\
              (Monster.isAlive m = true -> deathTweens m = 0%nat) /\
              (deathTweens m = 1%nat -> Monster.currentHealth m <= 0)) ->
             exists m',
               monsterRun ops m = Some m' /\
               (deathTweens m' <= 1)%nat /\
               (Monster.isAlive m' = true -> deathTweens m' = 0%nat) /\
               (deathTweens m' = 1%nat -> Monster.currentHealth m' <= 0)).
  { clear. induction ops as [| o ops IH]; intros m HI; simpl.
    - exists m. auto.
    - destruct (monsterStep_spec o m) as (m1 & Hstep & _).
      rewrite Hstep. simpl.
      apply IH. exact (monsterStep_deathTweens o m m1 Hstep HI). }
  apply Hgen. unfold deathTweens. simpl.
  split; [lia |]. split; [reflexivity | discriminate].
Qed.

(** X4.  Destruction is final: destroying twice is destroying once, and on
    a destroyed monster [update], [takeDamage], the tint-clearing callback
    and the end of the death tween change nothing (the callbacks that are
    still pending when the monster is destroyed do not touch its
    deactivated sprite). *)
Theorem X4_destroy_is_final :
  forall (m : Monster.Monster) (target : Sprite) (amount : Z),
    let d := Monster.destroy m in
    Monster.isAlive d = false /\ active (Monster.sprite d) = false /\
    Monster.destroy d = d /\
    Monster.update target d = Some d /\
    Monster.takeDamage target amount d = Some d /\
    Monster.clearTintCallback d = d /\
    Monster.deathTweenComplete d = d /\
    Monster.currentHealth d = Monster.currentHealth m.
Proof.
  intros m target amount d. subst d.
  repeat split; reflexivity.
Qed.

(** ** Attack: the firing interval and the life of a sprite *)

(** X5.  An attack that fires at time [t1] does not fire again at any time
    [t2] with [t2 - t1 < interval]: the later [update] leaves it as it is.
    A firing [update] adds exactly one sprite. *)
Theorem X5_attack_fires_once_per_interval :
  forall (a : Attack.Attack) (id1 id2 : nat) (p1 p2 : Sprite) (t1 t2 : Z),
    t1 - Attack.lastAttackTime a >= Attack.interval (Attack.config a) ->
    t2 - t1 < Attack.interval (Attack.config a) ->
    let a1 := Attack.update id1 p1 t1 a in
    length (Attack.activeAttacks a1) = S (length (Attack.activeAttacks a)) /\
    Attack.lastAttackTime a1 = t1 /\
    Attack.update id2 p2 t2 a1 = a1.
Proof.
  intros a id1 id2 p1 p2 t1 t2 H1 H2 a1. subst a1.
  unfold Attack.update.
  destruct (t1 - Attack.lastAttackTime a >=? Attack.interval (Attack.config a))
    eqn:E1; [| lia].
  simpl.
  destruct (t2 - t1 >=? Attack.interval (Attack.config a)) eqn:E2; [lia |].
  rewrite length_app. simpl. split; [lia |]. split; reflexivity.
Qed.

Lemma X5_attack_fires_once_per_interval_witness :
  let a := Attack.new Attack.DEFAULT_AXE_HACK_CONFIG in
  let p := newSprite 0 1600 1200 "player" in
  let a1 := Attack.update 1 p 2000 a in
  length (Attack.activeAttacks a1) = 1%nat /\
  Attack.lastAttackTime a1 = 2000 /\
  Attack.update 2 p 3999 a1 = a1.
Proof.
  cbv zeta.
  apply (X5_attack_fires_once_per_interval
           (Attack.new Attack.DEFAULT_AXE_HACK_CONFIG) 1 2
           (newSprite 0 1600 1200 "player") (newSprite 0 1600 1200 "player")
           2000 3999); simpl; lia.
Defined.

Lemma removeSprite_absent (id : nat) (l : list Sprite) :
  id ∉ map sid l -> Attack.removeSprite id l = l.
Proof.
  induction l as [| s l IH]; intros Hnot; [reflexivity |].
  simpl in *. apply not_elem_of_cons in Hnot as [Hne Hnot].
  destruct (Nat.eqb_spec (sid s) id) as [Heq | _]; [congruence |].
  f_equal. now apply IH.
Qed.

Lemma removeSprite_last (id : nat) (l : list Sprite) (s : Sprite) :
  id ∉ map sid l -> sid s = id -> Attack.removeSprite id (l ++ [s]) = l.
Proof.
  induction l as [| s0 l IH]; intros Hnot Hs; simpl in *.
  - now rewrite Hs, Nat.eqb_refl.
  - apply not_elem_of_cons in Hnot as [Hne Hnot].
    destruct (Nat.eqb_spec (sid s0) id) as [Heq | _]; [congruence |].
    f_equal. now apply IH.
Qed.

(** X6.  The clean-up callback undoes the firing: after [execute] has
    added the sprite [id] and the callback for [id] has run, the list of
    active sprites is what it was before, the other sprites untouched.
    A callback for a sprite that is not (or no longer) in the list changes
    nothing. *)
Theorem X6_sprite_removed_after_duration :
  forall (a : Attack.Attack) (id : nat) (player : Sprite),
    (id ∉ map sid (Attack.activeAttacks a)) ->
    Attack.activeAttacks
      (Attack.destroyAttackCallback id (Attack.execute id player a))
    = Attack.activeAttacks a /\
    Attack.activeAttacks (Attack.destroyAttackCallback id a)
    = Attack.activeAttacks a /\
    In (Attack.DestroyAfter id (Attack.duration (Attack.config a)))
       (Attack.scheduled (Attack.execute id player a)).
Proof.
  intros a id player Hnot. split; [| split].
  - simpl. now apply removeSprite_last.
  - simpl. now apply removeSprite_absent.
  - simpl. apply in_or_app. right. simpl. auto.
Qed.

Lemma X6_sprite_removed_after_duration_witness :
  let p := newSprite 0 1600 1200 "player" in
  let a := Attack.execute 1 p (Attack.new Attack.DEFAULT_AXE_HACK_CONFIG) in
  Attack.activeAttacks (Attack.destroyAttackCallback 2 (Attack.execute 2 p a))
  = Attack.activeAttacks a /\
  Attack.activeAttacks (Attack.destroyAttackCallback 2 a)
  = Attack.activeAttacks a.
Proof.
  cbv zeta.
  destruct (X6_sprite_removed_after_duration
              (Attack.execute 1 (newSprite 0 1600 1200 "player")
                 (Attack.new Attack.DEFAULT_AXE_HACK_CONFIG))
              2 (newSprite 0 1600 1200 "player"))
    as (H1 & H2 & _).
  - simpl. apply not_elem_of_cons. split; [lia | apply not_elem_of_nil].
  - split; assumption.
Defined.

(** X7.  While the swing tween turns a slash, its position is re-derived
    at every step so that it stays exactly [|offset|] away from the
    player, wherever the player has moved and whatever the rotation. *)
Theorem X7_swing_keeps_offset_distance :
  forall (player slash : Sprite) (offset : R),
    let s := Attack.swingUpdate player offset slash in
    Game.DistanceBetween (sprite_x s) (sprite_y s)
                         (sprite_x player) (sprite_y player)
    = Rabs offset /\
    rotation s = rotation slash /\ sid s = sid slash /\ data s = data slash.
Proof.
  intros player slash offset s. subst s.
  split; [| repeat split].
  unfold Game.DistanceBetween, Attack.swingUpdate. simpl.
  replace ((sprite_x player + cos (rotation slash) * offset - sprite_x player)
           * (sprite_x player + cos (rotation slash) * offset - sprite_x player)
           + (sprite_y player + sin (rotation slash) * offset - sprite_y player)
             * (sprite_y player + sin (rotation slash) * offset - sprite_y player))%R
    with (Rsqr offset).
  - apply sqrt_Rsqr_abs.
  - assert (H := sin2_cos2 (rotation slash)). unfold Rsqr in *.
    transitivity ((sin (rotation slash) * sin (rotation slash)
                   + cos (rotation slash) * cos (rotation slash))
                  * (offset * offset))%R; [rewrite H; ring | ring].
Qed.

(** ** Game: one pass of combat resolution *)

Section PassFacts.

Variable player : Sprite.
Variable dmg : Z.
Hypothesis dmg_nonneg : 0 <= dmg.

Lemma struck_refl (m : Monster.Monster) : struck m m.
Proof. unfold struck. repeat split; auto; lia. Qed.

Lemma struck_trans (m1 m2 m3 : Monster.Monster) :
  struck m1 m2 -> struck m2 m3 -> struck m1 m3.
Proof.
  intros (Hi & Hx & Hy & Ha & Hd & Hh) (Hi' & Hx' & Hy' & Ha' & Hd' & Hh').
  unfold struck. repeat split; try congruence; try lia.
  intros Hdead. specialize (Hd Hdead). subst m2. auto.
Qed.

Lemma marked_refl (s : Sprite) : marked s s.
Proof. unfold marked. repeat split; auto. now exists []. Qed.

Lemma marked_trans (s1 s2 s3 : Sprite) :
  marked s1 s2 -> marked s2 s3 -> marked s1 s3.
Proof.
  intros (Hi & Hx & Hy & Ha & k & Hk) (Hi' & Hx' & Hy' & Ha' & k' & Hk').
  unfold marked. repeat split; try congruence.
  exists (k' ++ k). rewrite Hk', Hk. now rewrite app_assoc.
Qed.

Lemma marked_setData (k : R * R) (s : Sprite) : marked s (setData k s).
Proof. unfold marked. simpl. repeat split; auto. now exists [k]. Qed.

Lemma takeDamage_struck (m : Monster.Monster) :
  exists m', Monster.takeDamage player dmg m = Some m' /\ struck m m'.
Proof.
  destruct (Monster.isAlive m) eqn:Ha.
  - destruct (takeDamage_alive player dmg m Ha) as (vx & vy & ->).
    eexists. split; [reflexivity |].
    unfold struck. simpl. repeat split; auto; try lia.
    rewrite Ha. discriminate.
  - rewrite takeDamage_dead by assumption.
    exists m. split; [reflexivity | apply struck_refl].
Qed.

Lemma Forall2_struck_trans (l1 l2 l3 : list Monster.Monster) :
  Forall2 struck l1 l2 -> Forall2 struck l2 l3 -> Forall2 struck l1 l3.
Proof.
  intros H12. revert l3.
  induction H12 as [| m1 m2 l1 l2 Hm H12 IH]; intros l3 H23;
    inversion H23; subst; constructor.
  - eapply struck_trans; eassumption.
  - now apply IH.
Qed.

Lemma Forall2_struck_refl (l : list Monster.Monster) : Forall2 struck l l.
Proof. induction l; constructor; [apply struck_refl | assumption]. Qed.

(** The inner loop returns normally; the sprite gains marks, every monster
    is struck at most. *)
Lemma hitMonsters_spec (ms : list Monster.Monster) :
  forall s : Sprite,
  exists s' ms',
    Game.hitMonsters player dmg s ms = Some (s', ms') /\
    marked s s' /\ Forall2 struck ms ms'.
Proof.
  induction ms as [| m ms IH]; intros s.
  - exists s, []. split; [reflexivity |]. split; [apply marked_refl | constructor].
  - assert (Hskip : exists s' ms',
               (r ← Game.hitMonsters player dmg s ms; Some (fst r, m :: snd r))
               = Some (s', ms') /\
               marked s s' /\ Forall2 struck (m :: ms) ms').
    { destruct (IH s) as (s' & ms' & -> & Hs & Hms). simpl.
      exists s', (m :: ms'). split; [reflexivity |].
      split; [exact Hs |]. constructor; [apply struck_refl | exact Hms]. }
    simpl.
    destruct (negb (Monster.getIsAlive m)); [exact Hskip |].
    destruct (negb (active (Monster.getSprite m))); [exact Hskip |].
    destruct (Rltb _ Game.hitRange); [| exact Hskip].
    destruct (negb (Game.getData _ s)); [| exact Hskip].
    destruct (takeDamage_struck m) as (m' & -> & Hm). simpl.
    destruct (IH (setData (Game.hitKey s (Monster.getSprite m)) s))
      as (s' & ms' & -> & Hs & Hms). simpl.
    exists s', (m' :: ms'). split; [reflexivity |]. split.
    + eapply marked_trans; [apply marked_setData | exact Hs].
    + constructor; assumption.
Qed.

Lemma hitSprites_spec (sprites : list Sprite) :
  forall ms : list Monster.Monster,
  exists sprites' ms',
    Game.hitSprites player dmg sprites ms = Some (sprites', ms') /\
    Forall2 marked sprites sprites' /\ Forall2 struck ms ms'.
Proof.
  induction sprites as [| s sprites IH]; intros ms; simpl.
  - exists [], ms. split; [reflexivity |].
    split; [constructor | apply Forall2_struck_refl].
  - destruct (negb (active s)).
    + destruct (IH ms) as (sprites' & ms' & -> & Hs & Hms). simpl.
      exists (s :: sprites'), ms'. split; [reflexivity |].
      split; [constructor; [apply marked_refl | exact Hs] | exact Hms].
    + destruct (hitMonsters_spec ms s) as (s' & ms1 & -> & Hs & Hms1). simpl.
      destruct (IH ms1) as (sprites' & ms' & -> & Hss & Hms). simpl.
      exists (s' :: sprites'), ms'. split; [reflexivity |].
      split; [constructor; assumption |].
      eapply Forall2_struck_trans; eassumption.
Qed.

End PassFacts.

(** An attack after a pass: the same attack, its sprites with more marks. *)
Lemma hitAttacks_spec (player : Sprite) (attacks : list Attack.Attack) :
  Forall (fun a => 0 <= Attack.getDamage a) attacks ->
  forall ms : list Monster.Monster,
  exists attacks' ms',
    Game.hitAttacks player attacks ms = Some (attacks', ms') /\
    Forall2 (fun a a' =>
               Attack.config a' = Attack.config a /\
               Attack.lastAttackTime a' = Attack.lastAttackTime a /\
               Attack.currentDirection a' = Attack.currentDirection a /\
               Attack.scheduled a' = Attack.scheduled a /\
               Forall2 marked (Attack.activeAttacks a) (Attack.activeAttacks a'))
            attacks attacks' /\
    Forall2 struck ms ms'.
Proof.
  induction attacks as [| a attacks IH]; intros HF ms; simpl.
  - exists [], ms. split; [reflexivity |].
    split; [constructor | apply Forall2_struck_refl].
  - inversion HF as [| ? ? Ha HF']; subst.
    destruct (hitSprites_spec player (Attack.getDamage a) Ha
                (Attack.getActiveAttacks a) ms)
      as (sprites' & ms1 & -> & Hs & Hms1). simpl.
    destruct (IH HF' ms1) as (attacks' & ms' & -> & Has & Hms). simpl.
    eexists. exists ms'. split; [reflexivity |]. split.
    + constructor; [| exact Has]. simpl. auto.
    + eapply Forall2_struck_trans; eassumption.
Qed.

(** X8.  One pass of [checkAttackCollisions] with non-negative damage
    values always returns normally.  It keeps the monsters and the attack
    sprites as they are in number, order, identity and place; a dead
    monster is not touched; no monster's health rises; a sprite only gains
    hit marks; the player and the attacks' own state stay as they were. *)
Theorem X8_pass_only_strikes :
  forall g : Game.Game,
    Forall (fun a => 0 <= Attack.getDamage a) (Game.attacks g) ->
    exists g',
      Game.checkAttackCollisions g = Some g' /\
      Game.player g' = Game.player g /\
      Forall2 struck (Game.monsters g) (Game.monsters g') /\
      Forall2 (fun a a' =>
                 Attack.config a' = Attack.config a /\
                 Attack.lastAttackTime a' = Attack.lastAttackTime a /\
                 Attack.currentDirection a' = Attack.currentDirection a /\
                 Attack.scheduled a' = Attack.scheduled a /\
                 Forall2 marked (Attack.activeAttacks a)
                                (Attack.activeAttacks a'))
              (Game.attacks g) (Game.attacks g').
Proof.
  intros g HF. unfold Game.checkAttackCollisions.
  destruct (hitAttacks_spec (Game.player g) (Game.attacks g) HF (Game.monsters g))
    as (attacks' & ms' & -> & Ha & Hm).
  simpl. eexists. split; [reflexivity |]. simpl. auto.
Qed.

Lemma X8_pass_only_strikes_witness :
  let p := newSprite 0 65 0 "player" in
  let attack :=
    Attack.update 7 p 2000 (Attack.new Attack.DEFAULT_AXE_HACK_CONFIG) in
  let g := Game.mkGame p [attack] [Goblin.new 1 110 0 None;
                                   Monster.destroy (Goblin.new 2 100 0 None)] in
  exists g',
    Game.checkAttackCollisions g = Some g' /\
    Forall2 struck (Game.monsters g) (Game.monsters g').
Proof.
  cbv zeta.
  destruct (X8_pass_only_strikes
              (Game.mkGame (newSprite 0 65 0 "player")
                 [Attack.update 7 (newSprite 0 65 0 "player") 2000
                    (Attack.new Attack.DEFAULT_AXE_HACK_CONFIG)]
                 [Goblin.new 1 110 0 None;
                  Monster.destroy (Goblin.new 2 100 0 None)]))
    as (g' & Hg & _ & Hm & _).
  { constructor; [| constructor].
    unfold Attack.getDamage. simpl. lia. }
  exists g'. split; assumption.
Defined.

(** X9.  The hit mark holds the x coordinates only.  When two live
    monsters with the same x coordinate are both in range of a sprite that
    carries no mark for that x, one pass damages the first of them and
    leaves the second exactly as it was: the mark the first hit leaves is
    taken for a mark of the second. *)
Theorem X9_same_x_shields_second_monster :
  forall (p : Sprite) (a : Attack.Attack) (s : Sprite)
         (m1 m2 : Monster.Monster),
    Attack.activeAttacks a = [s] -> active s = true ->
    Monster.isAlive m1 = true -> active (Monster.sprite m1) = true ->
    Monster.isAlive m2 = true -> active (Monster.sprite m2) = true ->
    sprite_x (Monster.sprite m1) = sprite_x (Monster.sprite m2) ->
    (Game.DistanceBetween (sprite_x s) (sprite_y s)
       (sprite_x (Monster.sprite m1)) (sprite_y (Monster.sprite m1))
     < Game.hitRange)%R ->
    (Game.DistanceBetween (sprite_x s) (sprite_y s)
       (sprite_x (Monster.sprite m2)) (sprite_y (Monster.sprite m2))
     < Game.hitRange)%R ->
    Game.getData (Game.hitKey s (Monster.sprite m1)) s = false ->
    exists a' m1',
      Game.checkAttackCollisions (Game.mkGame p [a] [m1; m2])
      = Some (Game.mkGame p [a'] [m1'; m2]) /\
      Monster.takeDamage p (Attack.getDamage a) m1 = Some m1' /\
      Monster.currentHealth m1'
      = Monster.currentHealth m1 - Attack.getDamage a.
Proof.
  intros p a s m1 m2 Hs Hact Ha1 Hc1 Ha2 Hc2 Hx Hd1 Hd2 Hk.
  destruct (takeDamage_alive p (Attack.getDamage a) m1 Ha1) as (vx & vy & Htd).
  eexists. eexists. split; [| split; [exact Htd | reflexivity]].
  apply (checkAttackCollisions_single p a s
           (setData (Game.hitKey s (Monster.sprite m1)) s));
    [exact Hs | exact Hact |].
  simpl. unfold Monster.getIsAlive, Monster.getSprite.
  rewrite Ha1, Hc1. simpl.
  rewrite (Rltb_true _ _ Hd1), Hk. simpl. rewrite Htd. simpl.
  rewrite Ha2, Hc2. simpl.
  rewrite (Rltb_true _ _ Hd2).
  unfold Game.getData, Game.hitKey. simpl. rewrite <- Hx.
  now rewrite keyEqb_refl.
Qed.

Lemma X9_same_x_shields_second_monster_witness :
  let p := newSprite 0 65 0 "player" in
  let a := Attack.execute 7 p (Attack.new Attack.DEFAULT_AXE_HACK_CONFIG) in
  let m1 := Goblin.new 1 110 0 None in
  let m2 := Goblin.new 2 110 10 None in
  exists a' m1',
    Game.checkAttackCollisions (Game.mkGame p [a] [m1; m2])
    = Some (Game.mkGame p [a'] [m1'; m2]) /\
    Monster.currentHealth m1' = 50 - 25.
Proof.
  cbv zeta.
  destruct (X9_same_x_shields_second_monster
              (newSprite 0 65 0 "player")
              (Attack.execute 7 (newSprite 0 65 0 "player")
                 (Attack.new Attack.DEFAULT_AXE_HACK_CONFIG))
              (setRotation
                 (Attack.atan2 0 1 - Attack.DegToRad (90 / 2))
                 (setDepth 10 (setScale 2
                    (newSprite 7 (65 + 1 * 40) (0 + 0 * 40) "slash"))))
              (Goblin.new 1 110 0 None) (Goblin.new 2 110 10 None))
    as (a' & m1' & Hg & _ & Hh);
    try reflexivity.
  - apply DistanceBetween_in_range. simpl. lra.
  - apply DistanceBetween_in_range. simpl. lra.
  - exists a', m1'. split; [exact Hg | exact Hh].
Defined.

(** ** SpawnManager: waves and repeating spawns over time *)

Section SpawnFacts.

Import SpawnManager.

(** X10.  Executing a wave appends to the live list one monster for every
    unit of every spawn request's [count], each alive, at full health and
    active; the monsters already there, the clock, the schedule and the
    repeating spawns are untouched. *)
Theorem X10_executeWave_spawns_the_counts :
  forall (w : SpawnWave) (m : SpawnManager),
  exists new,
    monsters (spawner (executeWave w m)) = monsters (spawner m) ++ new /\
    length new = list_sum (map se_count (spawns w)) /\
    Forall freshlySpawned new /\
    clock (executeWave w m) = clock m /\
    currentSchedule (executeWave w m) = currentSchedule m /\
    currentWaveIndex (executeWave w m) = currentWaveIndex m /\
    repeatingSpawns (executeWave w m) = repeatingSpawns m.
Proof.
  intros w m.
  destruct (executeWave_appends w m) as (new & Hm & Hl & Hf).
  exists new. repeat split; assumption || reflexivity.
Qed.

(** A repeating timer alone on the clock fires [n] times up to a time
    that lies in its [n]-th period. *)
Lemma repeating_run (cfg : RepeatingSpawnConfig) (until : Z) (n : nat) :
  forall (fuel : nat) (m : SpawnManager) (h : nat) (d : Z),
    timers (clock m) = [mkTimerEvent h d (interval cfg) true (RepeatSpawn cfg)] ->
    0 < interval cfg -> (n <= fuel)%nat ->
    d + (Z.of_nat n - 1) * interval cfg <= until < d + Z.of_nat n * interval cfg ->
    exists m',
      run fuel until m = Some m' /\
      length (monsters (spawner m'))
      = (length (monsters (spawner m)) + n * count cfg)%nat /\
      length (dispatched (clock m'))
      = (length (dispatched (clock m)) + n)%nat /\
      now (clock m') = until.
Proof.
  induction n as [| n IH]; intros fuel m h d Ht Hi Hfuel Hu;
    set (ev := mkTimerEvent h d (interval cfg) true (RepeatSpawn cfg)) in *;
    assert (He : earliest (timers (clock m)) = Some ev)
      by (rewrite Ht; reflexivity).
  - rewrite (run_idle fuel until m ev He) by (simpl; lia).
    eexists. split; [reflexivity |]. simpl.
    split; [lia |]. split; [lia | reflexivity].
  - destruct fuel as [| fuel]; [lia |].
    rewrite (run_step fuel until m ev He) by (simpl; nia).
    destruct (IH fuel (fire ev m) h (d + interval cfg))
      as (m' & Hrun & Hlen & Hdis & Hnow).
    + simpl. rewrite Ht. subst ev. unfold rearm. simpl.
      now rewrite Nat.eqb_refl.
    + exact Hi.
    + lia.
    + nia.
    + exists m'. split; [exact Hrun |].
      rewrite Hlen, Hdis, Hnow.
      rewrite (fire_RepeatSpawn cfg ev m eq_refl). simpl.
      rewrite length_app. simpl. repeat split; lia.
Qed.

End SpawnFacts.

(** X11.  A repeating spawn registered on a manager whose clock is
    otherwise empty fires once per interval: when the clock has run [k]
    intervals on, the callback has run [k] times and the live list has
    grown by [k * count] monsters. *)
Theorem X11_repeating_spawn_every_interval :
  forall (id : string) (cfg : SpawnManager.RepeatingSpawnConfig)
         (m : SpawnManager.SpawnManager) (k fuel : nat),
    SpawnManager.timers (SpawnManager.clock m) = [] ->
    0 < SpawnManager.interval cfg -> (k <= fuel)%nat ->
    exists m',
      SpawnManager.run fuel
        (SpawnManager.now (SpawnManager.clock m)
         + Z.of_nat k * SpawnManager.interval cfg)
        (SpawnManager.addRepeatingSpawn id cfg m) = Some m' /\
      length (SpawnManager.getMonsters m')
      = (length (SpawnManager.getMonsters m) + k * SpawnManager.count cfg)%nat /\
      length (SpawnManager.dispatched (SpawnManager.clock m'))
      = (length (SpawnManager.dispatched (SpawnManager.clock m)) + k)%nat.
Proof.
  intros id cfg m k fuel Ht Hi Hfuel.
  set (m1 := SpawnManager.addRepeatingSpawn id cfg m).
  assert (H1 : exists h,
             SpawnManager.timers (SpawnManager.clock m1)
             = [SpawnManager.mkTimerEvent h
                  (SpawnManager.now (SpawnManager.clock m)
                   + SpawnManager.interval cfg)
                  (SpawnManager.interval cfg) true
                  (SpawnManager.RepeatSpawn cfg)] /\
             SpawnManager.spawner m1 = SpawnManager.spawner m /\
             SpawnManager.dispatched (SpawnManager.clock m1)
             = SpawnManager.dispatched (SpawnManager.clock m)).
  { subst m1.
    unfold SpawnManager.addRepeatingSpawn, SpawnManager.removeRepeatingSpawn.
    destruct (SpawnManager.repeatingSpawns m !! id); simpl;
      rewrite Ht; simpl; eauto. }
  destruct H1 as (h & Ht1 & Hs1 & Hd1).
  destruct (repeating_run cfg
              (SpawnManager.now (SpawnManager.clock m)
               + Z.of_nat k * SpawnManager.interval cfg)
              k fuel m1 h _ Ht1 Hi Hfuel)
    as (m' & Hrun & Hlen & Hdis & _); [nia |].
  exists m'. split; [exact Hrun |].
  unfold SpawnManager.getMonsters. rewrite Hlen, Hdis, Hs1, Hd1. auto.
Qed.

(** The goblin spawn of the game scene, one goblin every five seconds,
    run for a minute. *)
Lemma X11_repeating_spawn_every_interval_witness :
  let cfg := SpawnManager.mkRepeatingSpawnConfig SpawnManager.goblin 5000 1 None in
  let m :=
    SpawnManager.new (SpawnManager.mkClock 0 [] 0 [])
      (SpawnManager.mkCamera 1088 816 1024 768) (fun _ => 0%R) 3200 2400 in
  exists m',
    SpawnManager.run 12 60000 (SpawnManager.addRepeatingSpawn "goblins" cfg m)
    = Some m' /\
    length (SpawnManager.getMonsters m') = 12%nat.
Proof.
  cbv zeta.
  destruct (X11_repeating_spawn_every_interval "goblins"
              (SpawnManager.mkRepeatingSpawnConfig SpawnManager.goblin 5000 1 None)
              (SpawnManager.new (SpawnManager.mkClock 0 [] 0 [])
                 (SpawnManager.mkCamera 1088 816 1024 768) (fun _ => 0%R)
                 3200 2400)
              12 12)
    as (m' & Hrun & Hlen & _); [reflexivity | simpl; lia | lia |].
  exists m'. split; [exact Hrun | exact Hlen].
Defined.

(** ** SpawnManager: a schedule that does not loop *)

Section ScheduleFacts.

Import SpawnManager.

(** The dispatch of a wave's one-shot timer that is alone on the clock. *)
Lemma fire_RunWave (m : SpawnManager) (h : nat) (d dl : Z) (w : SpawnWave) :
  timers (clock m) = [mkTimerEvent h d dl false (RunWave w)] ->
  fire (mkTimerEvent h d dl false (RunWave w)) m
  = executeNextWave
      (with_schedule (currentSchedule m) (S (currentWaveIndex m))
         (scheduleTimer m)
         (executeWave w
            (with_clock
               (mkClock d [] (nextTimer (clock m))
                        (dispatched (clock m) ++ [(d, RunWave w)]))
               m))).
Proof.
  intros Ht. unfold fire. simpl. rewrite Ht. unfold rearm. simpl.
  now rewrite Nat.eqb_refl.
Qed.

Lemma schedule_run (sc : SpawnSchedule) (until : Z) (rest : list SpawnWave) :
  forall (pre : list SpawnWave) (m : SpawnManager) (fuel : nat),
    currentSchedule m = Some sc -> waves sc = pre ++ rest ->
    currentWaveIndex m = length pre ->
    default false (loop sc) = false ->
    timers (clock m) = [] ->
    Forall (fun w => 0 <= delay w) rest ->
    Forall (fun e => fst e <= until) (timeline (now (clock m)) rest) ->
    (length rest <= fuel)%nat ->
    exists m',
      run fuel until (executeNextWave m) = Some m' /\
      wavesExecuted m' = wavesExecuted m ++ timeline (now (clock m)) rest /\
      timers (clock m') = [] /\
      now (clock m') = until /\
      currentWaveIndex m' = length (waves sc) /\
      length (monsters (spawner m'))
      = (length (monsters (spawner m)) + list_sum (map waveSize rest))%nat.
Proof.
  induction rest as [| w rest IH];
    intros pre m fuel Hsc Hw Hi Hloop Ht Hpos Hdue Hfuel.
  - unfold executeNextWave. rewrite Hsc, Hw, Hi, app_nil_r, Nat.leb_refl, Hloop.
    assert (Hrun : run fuel until m
                   = Some (with_clock
                             (mkClock until (timers (clock m))
                                      (nextTimer (clock m))
                                      (dispatched (clock m))) m)).
    { destruct fuel; simpl; rewrite Ht; reflexivity. }
    rewrite Hrun. eexists. split; [reflexivity |]. simpl.
    rewrite app_nil_r, Nat.add_0_r. auto.
  - destruct fuel as [| fuel]; [simpl in Hfuel; lia |].
    inversion Hpos as [| ? ? Hw0 Hpos']; subst.
    simpl in Hdue. inversion Hdue as [| ? ? Hd0 Hdue']; subst. simpl in Hd0.
    set (ev := mkTimerEvent (nextTimer (clock m)) (now (clock m) + delay w)
                            (delay w) false (RunWave w)).
    assert (Hnext : executeNextWave m
                    = with_schedule (currentSchedule m) (currentWaveIndex m)
                        (Some (nextTimer (clock m)))
                        (with_clock
                           (mkClock (now (clock m)) [ev]
                                    (S (nextTimer (clock m)))
                                    (dispatched (clock m))) m)).
    { unfold executeNextWave. rewrite Hsc, Hw, Hi.
      replace (Nat.leb (length (pre ++ w :: rest)) (length pre)) with false
        by (symmetry; apply Nat.leb_gt; rewrite length_app; simpl; lia).
      rewrite list_lookup_middle by reflexivity.
      unfold addEvent. rewrite Ht. reflexivity. }
    rewrite Hnext.
    rewrite (run_step fuel until _ ev) by (reflexivity || (simpl; lia)).
    subst ev. rewrite fire_RunWave by reflexivity.
    match goal with |- context [run fuel until (executeNextWave ?m2)] =>
      destruct (IH (pre ++ [w]) m2 fuel) as (m' & Hrun & Hlog & Ht' & Hn & Hix & Hlen)
    end; simpl; try assumption; try reflexivity.
    + now rewrite <- app_assoc.
    + rewrite length_app, Hi. simpl. lia.
    + simpl in Hfuel. lia.
    + exists m'. split; [exact Hrun |]. simpl in *.
      split.
      { rewrite Hlog. unfold wavesExecuted. simpl.
        rewrite omap_app. simpl. now rewrite <- app_assoc. }
      split; [exact Ht' |]. split; [exact Hn |]. split; [exact Hix |].
      rewrite Hlen.
      destruct (executeWave_appends w
                  (with_clock
                     (mkClock (now (clock m) + delay w) []
                              (S (nextTimer (clock m)))
                              (dispatched (clock m)
                               ++ [(now (clock m) + delay w, RunWave w)]))
                     (with_schedule (currentSchedule m) (currentWaveIndex m)
                        (Some (nextTimer (clock m)))
                        (with_clock
                           (mkClock (now (clock m))
                                    [mkTimerEvent (nextTimer (clock m))
                                       (now (clock m) + delay w) (delay w)
                                       false (RunWave w)]
                                    (S (nextTimer (clock m)))
                                    (dispatched (clock m))) m))))
        as (new & Hm & Hl & _).
      simpl in Hm. rewrite Hm, length_app, Hl. lia.
Qed.

End ScheduleFacts.

(** X12.  A schedule that does not loop, started on a manager whose clock
    is empty, with no negative delay and run past its last wave: every
    wave is executed exactly once, in order, each at the time of the wave
    before plus its own delay; the live list grows by the counts of all
    waves; afterwards no timer is left and the schedule stays finished. *)
Theorem X12_schedule_without_loop_runs_once :
  forall (sc : SpawnManager.SpawnSchedule) (m : SpawnManager.SpawnManager)
         (until : Z) (fuel : nat),
    SpawnManager.timers (SpawnManager.clock m) = [] ->
    default false (SpawnManager.loop sc) = false ->
    Forall (fun w => 0 <= SpawnManager.delay w) (SpawnManager.waves sc) ->
    Forall (fun e => fst e <= until)
           (timeline (SpawnManager.now (SpawnManager.clock m))
                     (SpawnManager.waves sc)) ->
    (length (SpawnManager.waves sc) <= fuel)%nat ->
    exists m',
      SpawnManager.run fuel until (SpawnManager.startSchedule sc m) = Some m' /\
      SpawnManager.wavesExecuted m'
      = SpawnManager.wavesExecuted m
        ++ timeline (SpawnManager.now (SpawnManager.clock m))
                    (SpawnManager.waves sc) /\
      SpawnManager.timers (SpawnManager.clock m') = [] /\
      SpawnManager.currentWaveIndex m' = length (SpawnManager.waves sc) /\
      length (SpawnManager.getMonsters m')
      = (length (SpawnManager.getMonsters m)
         + list_sum (map waveSize (SpawnManager.waves sc)))%nat.
Proof.
  intros sc m until fuel Ht Hloop Hpos Hdue Hfuel.
  unfold SpawnManager.startSchedule.
  set (m0 := SpawnManager.with_schedule (Some sc) 0 _ _).
  assert (H0 : SpawnManager.clock m0 = SpawnManager.clock m /\
               SpawnManager.spawner m0 = SpawnManager.spawner m).
  { subst m0. unfold SpawnManager.stopSchedule.
    destruct (SpawnManager.scheduleTimer m); simpl; [| auto].
    unfold SpawnManager.destroyTimer. rewrite Ht. simpl.
    destruct m as [[] ? ? ? ? ? ? ? ? ? ?]; simpl in *. subst. auto. }
  destruct H0 as (Hc0 & Hs0).
  destruct (schedule_run sc until (SpawnManager.waves sc) [] m0 fuel)
    as (m' & Hrun & Hlog & Ht' & _ & Hix & Hlen);
    try reflexivity; try assumption; try (rewrite Hc0; assumption).
  exists m'. split; [exact Hrun |].
  unfold SpawnManager.getMonsters, SpawnManager.wavesExecuted in *.
  rewrite Hc0 in Hlog. rewrite Hs0 in Hlen. auto.
Qed.

(** Three waves, two, four and three seconds apart, run for ten seconds. *)
Lemma X12_schedule_without_loop_runs_once_witness :
  let w1 := SpawnManager.mkSpawnWave 2000
              [SpawnManager.mkSpawnEvent SpawnManager.goblin 3 None] in
  let w2 := SpawnManager.mkSpawnWave 4000
              [SpawnManager.mkSpawnEvent SpawnManager.goblin 5 None] in
  let w3 := SpawnManager.mkSpawnWave 3000 [] in
  let sc := SpawnManager.mkSpawnSchedule [w1; w2; w3] None None in
  let m :=
    SpawnManager.new (SpawnManager.mkClock 0 [] 0 [])
      (SpawnManager.mkCamera 1088 816 1024 768) (fun _ => 0%R) 3200 2400 in
  exists m',
    SpawnManager.run 3 10000 (SpawnManager.startSchedule sc m) = Some m' /\
    SpawnManager.wavesExecuted m' = [(2000, w1); (6000, w2); (9000, w3)] /\
    length (SpawnManager.getMonsters m') = 8%nat.
Proof.
  cbv zeta.
  destruct (X12_schedule_without_loop_runs_once
              (SpawnManager.mkSpawnSchedule
                 [SpawnManager.mkSpawnWave 2000
                    [SpawnManager.mkSpawnEvent SpawnManager.goblin 3 None];
                  SpawnManager.mkSpawnWave 4000
                    [SpawnManager.mkSpawnEvent SpawnManager.goblin 5 None];
                  SpawnManager.mkSpawnWave 3000 []] None None)
              (SpawnManager.new (SpawnManager.mkClock 0 [] 0 [])
                 (SpawnManager.mkCamera 1088 816 1024 768) (fun _ => 0%R)
                 3200 2400)
              10000 3)
    as (m' & Hrun & Hlog & _ & _ & Hlen);
    try reflexivity.
  - repeat constructor; simpl; lia.
  - repeat constructor; simpl; lia.
  - exists m'. split; [exact Hrun |]. split; [exact Hlog | exact Hlen].
Defined.

(** ** SpawnManager: stopping *)

Section StopFacts.

Import SpawnManager.

Lemma run_empty (fuel : nat) (until : Z) (m : SpawnManager) :
  timers (clock m) = [] ->
  run fuel until m
  = Some (with_clock (mkClock until [] (nextTimer (clock m))
                              (dispatched (clock m))) m).
Proof. intros Ht. destruct fuel; simpl; rewrite Ht; reflexivity. Qed.

(** What [removeRepeatingSpawn] leaves alone, and what it does to the map
    and to the clock. *)
Lemma removeRepeatingSpawn_spec (k : string) (m : SpawnManager) :
  let m' := removeRepeatingSpawn k m in
  repeatingSpawns m' = delete k (repeatingSpawns m) /\
  timers (clock m')
  = match repeatingSpawns m !! k with
    | Some h => List.filter (fun ev => negb (Nat.eqb (handle ev) h))
                            (timers (clock m))
    | None => timers (clock m)
    end /\
  spawner m' = spawner m /\ currentSchedule m' = currentSchedule m /\
  currentWaveIndex m' = currentWaveIndex m /\
  scheduleTimer m' = scheduleTimer m /\
  dispatched (clock m') = dispatched (clock m) /\
  now (clock m') = now (clock m) /\
  nextTimer (clock m') = nextTimer (clock m).
Proof.
  unfold removeRepeatingSpawn.
  destruct (repeatingSpawns m !! k) eqn:Hk; simpl.
  - repeat split; reflexivity.
  - rewrite delete_id by assumption. repeat split; reflexivity.
Qed.

Lemma stopAll_frame (l : list (string * nat)) :
  forall m : SpawnManager,
    spawner (removeEntries l m) = spawner m /\
    currentSchedule (removeEntries l m) = currentSchedule m /\
    currentWaveIndex (removeEntries l m) = currentWaveIndex m /\
    scheduleTimer (removeEntries l m) = scheduleTimer m /\
    dispatched (clock (removeEntries l m)) = dispatched (clock m) /\
    now (clock (removeEntries l m)) = now (clock m) /\
    nextTimer (clock (removeEntries l m)) = nextTimer (clock m).
Proof.
  induction l as [| e l IH]; intros m; simpl; [repeat split |].
  destruct (removeRepeatingSpawn_spec (fst e) m)
    as (_ & _ & H1 & H2 & H3 & H4 & H5 & H6 & H7).
  destruct (IH (removeRepeatingSpawn (fst e) m))
    as (I1 & I2 & I3 & I4 & I5 & I6 & I7).
  repeat split; congruence.
Qed.

Lemma stopAll_lookup (l : list (string * nat)) :
  forall (m : SpawnManager) (k : string),
    repeatingSpawns (removeEntries l m) !! k
    = if decide (k ∈ l.*1) then None else repeatingSpawns m !! k.
Proof.
  induction l as [| e l IH]; intros m k.
  - simpl. reflexivity.
  - change (removeEntries (e :: l) m)
      with (removeEntries l (removeRepeatingSpawn (fst e) m)).
    rewrite IH.
    destruct (removeRepeatingSpawn_spec (fst e) m) as (-> & _).
    destruct (decide (k ∈ l.*1)) as [Hin | Hnin];
      destruct (decide (k ∈ (e :: l).*1)) as [Hin' | Hnin'];
      rewrite ?fmap_cons in *; try reflexivity.
    + exfalso. apply Hnin'. apply elem_of_cons. now right.
    + apply elem_of_cons in Hin' as [-> | ?];
        [apply lookup_delete_eq | contradiction].
    + apply lookup_delete_ne. intros <-. apply Hnin'.
      apply elem_of_cons. now left.
Qed.

Lemma stopAll_timers_sub (l : list (string * nat)) :
  forall (m : SpawnManager) (ev : TimerEvent),
    In ev (timers (clock (removeEntries l m))) -> In ev (timers (clock m)).
Proof.
  induction l as [| e l IH]; intros m ev Hin; simpl in *; [assumption |].
  apply IH in Hin.
  destruct (removeRepeatingSpawn_spec (fst e) m) as (_ & Ht & _).
  rewrite Ht in Hin.
  destruct (repeatingSpawns m !! fst e); [| assumption].
  now apply filter_In in Hin.
Qed.

Lemma stopAll_timers_keep (l : list (string * nat)) :
  forall (m : SpawnManager) (ev : TimerEvent),
    In ev (timers (clock m)) ->
    (forall k, repeatingSpawns m !! k <> Some (handle ev)) ->
    In ev (timers (clock (removeEntries l m))).
Proof.
  induction l as [| e l IH]; intros m ev Hin Hfree; simpl; [assumption |].
  destruct (removeRepeatingSpawn_spec (fst e) m) as (Hrs & Ht & _).
  apply IH.
  - rewrite Ht. destruct (repeatingSpawns m !! fst e) as [h |] eqn:Hk;
      [| assumption].
    apply filter_In. split; [assumption |].
    destruct (Nat.eqb_spec (handle ev) h) as [Heq | _]; [| reflexivity].
    exfalso. apply (Hfree (fst e)). congruence.
  - intros k Hk. rewrite Hrs in Hk.
    apply lookup_delete_Some in Hk as [_ Hk]. exact (Hfree k Hk).
Qed.

Lemma stopAll_timers_gone (l : list (string * nat)) :
  forall (m : SpawnManager) (k : string) (h : nat),
    k ∈ l.*1 -> repeatingSpawns m !! k = Some h ->
    ~ In h (map handle (timers (clock (removeEntries l m)))).
Proof.
  induction l as [| e l IH]; intros m k h Hin Hk; simpl in *.
  - now apply elem_of_nil in Hin.
  - destruct (removeRepeatingSpawn_spec (fst e) m) as (Hrs & Ht & _).
    destruct (decide (k = fst e)) as [-> | Hne].
    + intros Hh. apply in_map_iff in Hh as (ev & Hev & Hevin).
      apply stopAll_timers_sub in Hevin. rewrite Ht, Hk in Hevin.
      apply filter_In in Hevin as [_ Hf].
      rewrite Hev, Nat.eqb_refl in Hf. discriminate.
    + apply (IH _ k).
      * apply elem_of_cons in Hin as [? | ?]; [congruence | assumption].
      * rewrite Hrs. rewrite lookup_delete_ne by congruence. exact Hk.
Qed.

(** The facts about [stopAllRepeatingSpawns] that X15 and X17 share. *)
Lemma stopAllRepeatingSpawns_spec (m : SpawnManager) :
  let m' := stopAllRepeatingSpawns m in
  repeatingSpawns m' = ∅ /\
  (forall id h, repeatingSpawns m !! id = Some h ->
                ~ In h (map handle (timers (clock m')))) /\
  (forall ev, In ev (timers (clock m)) ->
              (forall id, repeatingSpawns m !! id <> Some (handle ev)) ->
              In ev (timers (clock m'))) /\
  (forall ev, In ev (timers (clock m')) -> In ev (timers (clock m))) /\
  spawner m' = spawner m /\ currentSchedule m' = currentSchedule m /\
  scheduleTimer m' = scheduleTimer m /\
  dispatched (clock m') = dispatched (clock m).
Proof.
  unfold stopAllRepeatingSpawns.
  change (fold_left _ (map_to_list (repeatingSpawns m)) m)
    with (removeEntries (map_to_list (repeatingSpawns m)) m).
  destruct (stopAll_frame (map_to_list (repeatingSpawns m)) m)
    as (F1 & F2 & _ & F4 & F5 & _).
  split; [| split; [| split; [| split]]].
  - apply map_empty. intros k. rewrite stopAll_lookup.
    destruct (decide (k ∈ (map_to_list (repeatingSpawns m)).*1)) as [| Hnin];
      [reflexivity |].
    destruct (repeatingSpawns m !! k) as [h |] eqn:Hk; [| reflexivity].
    exfalso. apply Hnin. apply list_elem_of_fmap. exists (k, h).
    split; [reflexivity |]. now apply elem_of_map_to_list.
  - intros id h Hk. apply (stopAll_timers_gone _ m id h); [| exact Hk].
    apply list_elem_of_fmap. exists (id, h).
    split; [reflexivity |]. now apply elem_of_map_to_list.
  - intros ev. apply stopAll_timers_keep.
  - intros ev. apply stopAll_timers_sub.
  - auto.
Qed.

Lemma stopSchedule_spec (m : SpawnManager) :
  let m' := stopSchedule m in
  currentSchedule m' = None /\ scheduleTimer m' = None /\
  timers (clock m')
  = match scheduleTimer m with
    | Some h => List.filter (fun ev => negb (Nat.eqb (handle ev) h))
                            (timers (clock m))
    | None => timers (clock m)
    end /\
  spawner m' = spawner m /\ repeatingSpawns m' = repeatingSpawns m /\
  dispatched (clock m') = dispatched (clock m) /\
  now (clock m') = now (clock m) /\
  nextTimer (clock m') = nextTimer (clock m) /\
  currentWaveIndex m' = currentWaveIndex m.
Proof.
  unfold stopSchedule. destruct (scheduleTimer m) eqn:Hs; simpl;
    rewrite ?Hs; repeat split; reflexivity.
Qed.

End StopFacts.

(** X13.  [stopSchedule] cancels the wave that is pending.  A schedule
    (looping or not) that is started on a manager with an empty clock and
    stopped before the clock runs never executes a wave and never spawns:
    the clock is empty again and the manager has no schedule. *)
Theorem X13_stopped_schedule_never_runs :
  forall (sc : SpawnManager.SpawnSchedule) (m : SpawnManager.SpawnManager)
         (until : Z) (fuel : nat),
    SpawnManager.timers (SpawnManager.clock m) = [] ->
    exists m',
      SpawnManager.run fuel until
        (SpawnManager.stopSchedule (SpawnManager.startSchedule sc m))
      = Some m' /\
      SpawnManager.timers (SpawnManager.clock m') = [] /\
      SpawnManager.wavesExecuted m' = SpawnManager.wavesExecuted m /\
      SpawnManager.spawner m' = SpawnManager.spawner m /\
      SpawnManager.currentSchedule m' = None /\
      SpawnManager.scheduleTimer m' = None.
Proof.
  intros sc m until fuel Ht.
  set (m1 := SpawnManager.stopSchedule (SpawnManager.startSchedule sc m)).
  assert (H1 : SpawnManager.timers (SpawnManager.clock m1) = [] /\
               SpawnManager.dispatched (SpawnManager.clock m1)
               = SpawnManager.dispatched (SpawnManager.clock m) /\
               SpawnManager.spawner m1 = SpawnManager.spawner m /\
               SpawnManager.currentSchedule m1 = None /\
               SpawnManager.scheduleTimer m1 = None).
  { subst m1.
    destruct (stopSchedule_spec (SpawnManager.startSchedule sc m))
      as (S1 & S2 & S3 & S4 & _ & S6 & _).
    rewrite S3, S4, S6. clear S1 S2 S3 S4 S6.
    unfold SpawnManager.startSchedule.
    destruct (stopSchedule_spec m) as (_ & T2 & T3 & T4 & _ & T6 & _).
    assert (T3' : SpawnManager.timers
                    (SpawnManager.clock (SpawnManager.stopSchedule m)) = []).
    { rewrite T3, Ht. now destruct (SpawnManager.scheduleTimer m). }
    unfold SpawnManager.executeNextWave. simpl.
    destruct (Nat.leb (length (SpawnManager.waves sc)) 0).
    - destruct (default false (SpawnManager.loop sc)); simpl.
      + rewrite T3'. simpl. rewrite Nat.eqb_refl. simpl. auto.
      + rewrite T2, T3'. auto.
    - destruct (SpawnManager.waves sc !! 0%nat); simpl.
      + rewrite T3'. simpl. rewrite Nat.eqb_refl. simpl. auto.
      + rewrite T2, T3'. auto. }
  destruct H1 as (Ht1 & Hd1 & Hs1 & Hc1 & Hst1).
  rewrite (run_empty fuel until m1 Ht1).
  eexists. split; [reflexivity |].
  unfold SpawnManager.wavesExecuted. simpl. rewrite Hd1. auto.
Qed.

Lemma X13_stopped_schedule_never_runs_witness :
  let w := SpawnManager.mkSpawnWave 0
             [SpawnManager.mkSpawnEvent SpawnManager.goblin 3 None] in
  let sc := SpawnManager.mkSpawnSchedule [w] (Some true) (Some 15000) in
  let m :=
    SpawnManager.new (SpawnManager.mkClock 0 [] 0 [])
      (SpawnManager.mkCamera 1088 816 1024 768) (fun _ => 0%R) 3200 2400 in
  exists m',
    SpawnManager.run 0 60000
      (SpawnManager.stopSchedule (SpawnManager.startSchedule sc m)) = Some m' /\
    SpawnManager.wavesExecuted m' = [] /\
    SpawnManager.getMonsters m' = [].
Proof.
  cbv zeta.
  destruct (X13_stopped_schedule_never_runs
              (SpawnManager.mkSpawnSchedule
                 [SpawnManager.mkSpawnWave 0
                    [SpawnManager.mkSpawnEvent SpawnManager.goblin 3 None]]
                 (Some true) (Some 15000))
              (SpawnManager.new (SpawnManager.mkClock 0 [] 0 [])
                 (SpawnManager.mkCamera 1088 816 1024 768) (fun _ => 0%R)
                 3200 2400)
              60000 0 eq_refl)
    as (m' & Hrun & _ & Hlog & Hsp & _).
  exists m'. split; [exact Hrun |]. split; [exact Hlog |].
  unfold SpawnManager.getMonsters. now rewrite Hsp.
Defined.

(** X14.  Registering a repeating spawn under a key that is free and
    removing it again restores the manager's timers, its map of repeating
    spawns and its monsters; removing a key that is not registered changes
    nothing at all. *)
Theorem X14_add_then_remove_repeating_spawn :
  forall (id : string) (cfg : SpawnManager.RepeatingSpawnConfig)
         (m : SpawnManager.SpawnManager),
    SpawnManager.repeatingSpawns m !! id = None ->
    Forall (fun ev => (SpawnManager.handle ev
                       < SpawnManager.nextTimer (SpawnManager.clock m))%nat)
           (SpawnManager.timers (SpawnManager.clock m)) ->
    let m' :=
      SpawnManager.removeRepeatingSpawn id
        (SpawnManager.addRepeatingSpawn id cfg m) in
    SpawnManager.removeRepeatingSpawn id m = m /\
    SpawnManager.timers (SpawnManager.clock m')
    = SpawnManager.timers (SpawnManager.clock m) /\
    SpawnManager.repeatingSpawns m' = SpawnManager.repeatingSpawns m /\
    SpawnManager.spawner m' = SpawnManager.spawner m /\
    SpawnManager.dispatched (SpawnManager.clock m')
    = SpawnManager.dispatched (SpawnManager.clock m).
Proof.
  intros id cfg m Hfree Hfresh m'. subst m'.
  assert (Hrem : SpawnManager.removeRepeatingSpawn id m = m)
    by (unfold SpawnManager.removeRepeatingSpawn; now rewrite Hfree).
  split; [exact Hrem |].
  unfold SpawnManager.addRepeatingSpawn. rewrite Hrem. simpl.
  unfold SpawnManager.removeRepeatingSpawn. simpl.
  rewrite lookup_insert_eq. simpl.
  split; [| split; [apply delete_insert_id; exact Hfree | auto]].
  rewrite List.filter_app. simpl. rewrite Nat.eqb_refl. simpl.
  rewrite app_nil_r. apply filter_handle_id.
  rewrite list_elem_of_In, in_map_iff. intros (ev & Hh & Hev).
  apply list_elem_of_In in Hev.
  rewrite Forall_forall in Hfresh. specialize (Hfresh ev Hev). lia.
Qed.

Lemma X14_add_then_remove_repeating_spawn_witness :
  let cfg := SpawnManager.mkRepeatingSpawnConfig SpawnManager.goblin 5000 1 None in
  let m :=
    SpawnManager.new (SpawnManager.mkClock 0 [] 0 [])
      (SpawnManager.mkCamera 1088 816 1024 768) (fun _ => 0%R) 3200 2400 in
  SpawnManager.timers
    (SpawnManager.clock
       (SpawnManager.removeRepeatingSpawn "goblins"
          (SpawnManager.addRepeatingSpawn "goblins" cfg m))) = [] /\
  SpawnManager.repeatingSpawns
    (SpawnManager.removeRepeatingSpawn "goblins"
       (SpawnManager.addRepeatingSpawn "goblins" cfg m)) = ∅.
Proof.
  cbv zeta.
  destruct (X14_add_then_remove_repeating_spawn "goblins"
              (SpawnManager.mkRepeatingSpawnConfig SpawnManager.goblin 5000 1 None)
              (SpawnManager.new (SpawnManager.mkClock 0 [] 0 [])
                 (SpawnManager.mkCamera 1088 816 1024 768) (fun _ => 0%R)
                 3200 2400))
    as (_ & Ht & Hrs & _).
  - apply lookup_empty.
  - constructor.
  - split; [exact Ht | exact Hrs].
Defined.

(** X15.  [stopAllRepeatingSpawns] empties the map of repeating spawns and
    takes every timer that was registered in it off the clock; the timers
    that were not in the map stay, and the monsters, the schedule and its
    timer are untouched. *)
Theorem X15_stopAllRepeatingSpawns_clears_the_map :
  forall m : SpawnManager.SpawnManager,
    let m' := SpawnManager.stopAllRepeatingSpawns m in
    SpawnManager.repeatingSpawns m' = ∅ /\
    (forall id h,
        SpawnManager.repeatingSpawns m !! id = Some h ->
        ~ In h (map SpawnManager.handle
                    (SpawnManager.timers (SpawnManager.clock m')))) /\
    (forall ev,
        In ev (SpawnManager.timers (SpawnManager.clock m)) ->
        (forall id, SpawnManager.repeatingSpawns m !! id
                    <> Some (SpawnManager.handle ev)) ->
        In ev (SpawnManager.timers (SpawnManager.clock m'))) /\
    (forall ev,
        In ev (SpawnManager.timers (SpawnManager.clock m')) ->
        In ev (SpawnManager.timers (SpawnManager.clock m))) /\
    SpawnManager.spawner m' = SpawnManager.spawner m /\
    SpawnManager.currentSchedule m' = SpawnManager.currentSchedule m /\
    SpawnManager.scheduleTimer m' = SpawnManager.scheduleTimer m /\
    SpawnManager.dispatched (SpawnManager.clock m')
    = SpawnManager.dispatched (SpawnManager.clock m).
Proof. intros m. apply stopAllRepeatingSpawns_spec. Qed.

(** ** SpawnManager: the live list *)

Lemma update_steers (target : Sprite) (m : Monster.Monster) :
  exists m', Monster.update target m = Some m' /\ steered m m'.
Proof.
  unfold Monster.update, steered.
  destruct (negb (Monster.isAlive m) || negb (active (Monster.sprite m))).
  - exists m. split; [reflexivity |].
    exists (velocityX (Monster.sprite m)), (velocityY (Monster.sprite m)),
           (flipX (Monster.sprite m)).
    destruct m as [c h l a [] sc]; reflexivity.
  - destruct (moveTowardsTarget_velocity target m) as (vx & vy & fl & ->).
    eexists. split; [reflexivity |]. eauto.
Qed.

Lemma updateMonsters_spec (target : Sprite) (l : list Monster.Monster) :
  exists l',
    SpawnManager.updateMonsters target l = Some l' /\
    Forall2 steered (List.filter Monster.isAlive l) l'.
Proof.
  induction l as [| m l (l' & IH & HF)]; simpl.
  - exists []. split; [reflexivity | constructor].
  - unfold Monster.getIsAlive. destruct (Monster.isAlive m) eqn:Ha; simpl.
    + destruct (update_steers target m) as (m' & -> & Hm). simpl.
      rewrite IH. simpl. exists (m' :: l').
      split; [reflexivity | constructor; assumption].
    + exists l'. split; assumption.
Qed.

Lemma steered_keeps (m m' : Monster.Monster) :
  steered m m' ->
  Monster.isAlive m' = Monster.isAlive m /\
  Monster.currentHealth m' = Monster.currentHealth m /\
  Monster.lastAttackTime m' = Monster.lastAttackTime m /\
  sid (Monster.sprite m') = sid (Monster.sprite m) /\
  sprite_x (Monster.sprite m') = sprite_x (Monster.sprite m) /\
  sprite_y (Monster.sprite m') = sprite_y (Monster.sprite m) /\
  active (Monster.sprite m') = active (Monster.sprite m).
Proof. intros (vx & vy & fl & ->). simpl. repeat split. Qed.

(** X16.  The manager's [update] returns normally.  It drops exactly the
    monsters that are dead from the live list and keeps the live ones in
    their order, each with at most the velocity and the flip of its sprite
    changed; the monsters it keeps are all alive; the clock, the schedule
    and the repeating spawns are untouched. *)
Theorem X16_update_prunes_the_dead :
  forall (target : Sprite) (m : SpawnManager.SpawnManager),
  exists m',
    SpawnManager.update target m = Some m' /\
    Forall2 steered (List.filter Monster.isAlive (SpawnManager.getMonsters m))
                    (SpawnManager.getMonsters m') /\
    Forall (fun g => Monster.isAlive g = true) (SpawnManager.getMonsters m') /\
    SpawnManager.clock m' = SpawnManager.clock m /\
    SpawnManager.currentSchedule m' = SpawnManager.currentSchedule m /\
    SpawnManager.repeatingSpawns m' = SpawnManager.repeatingSpawns m.
Proof.
  intros target m. unfold SpawnManager.update, SpawnManager.getMonsters.
  destruct (updateMonsters_spec target
              (SpawnManager.monsters (SpawnManager.spawner m)))
    as (l' & -> & HF).
  simpl. eexists. split; [reflexivity |]. simpl.
  split; [exact HF |]. split; [| auto].
  clear -HF.
  remember (List.filter Monster.isAlive
              (SpawnManager.monsters (SpawnManager.spawner m))) as live eqn:Hl.
  assert (Hlive : Forall (fun g => Monster.isAlive g = true) live).
  { subst live. apply Forall_forall. intros g Hg.
    apply list_elem_of_In, filter_In in Hg. tauto. }
  clear Hl. induction HF as [| g g' live l' Hs HF IH]; constructor.
  - inversion Hlive; subst. destruct (steered_keeps g g' Hs) as (-> & _).
    assumption.
  - apply IH. now inversion Hlive.
Qed.

(** ** SpawnManager: destruction *)

Lemma no_element_nil {A : Type} (l : list A) : (forall x, ~ In x l) -> l = [].
Proof.
  destruct l as [| x l]; [reflexivity |].
  intros H. exfalso. apply (H x). now left.
Qed.

Lemma destroy_spec (m : SpawnManager.SpawnManager) :
  ownsTimers m ->
  let m' := snd (SpawnManager.destroy m) in
  SpawnManager.timers (SpawnManager.clock m') = [] /\
  SpawnManager.repeatingSpawns m' = ∅ /\
  SpawnManager.currentSchedule m' = None /\
  SpawnManager.scheduleTimer m' = None /\
  SpawnManager.getMonsters m' = [] /\
  fst (SpawnManager.destroy m)
  = map Monster.destroy (SpawnManager.getMonsters m) /\
  SpawnManager.dispatched (SpawnManager.clock m')
  = SpawnManager.dispatched (SpawnManager.clock m).
Proof.
  intros Hown. unfold SpawnManager.destroy, SpawnManager.clearAllMonsters.
  simpl.
  destruct (stopSchedule_spec m)
    as (S1 & S2 & S3 & S4 & S5 & S6 & _).
  destruct (stopAllRepeatingSpawns_spec (SpawnManager.stopSchedule m))
    as (A1 & A2 & _ & A4 & A5 & A6 & A7 & A8).
  unfold SpawnManager.getMonsters. simpl.
  rewrite A1, A5, A6, A7, A8, S1, S2, S4, S6.
  split; [| repeat split; reflexivity].
  apply no_element_nil. intros ev Hev.
  assert (Hev1 := A4 ev Hev). rewrite S3 in Hev1.
  assert (Hev0 : In ev (SpawnManager.timers (SpawnManager.clock m)) /\
                 SpawnManager.scheduleTimer m
                 <> Some (SpawnManager.handle ev)).
  { destruct (SpawnManager.scheduleTimer m) as [h |]; [| split; [assumption | discriminate]].
    apply filter_In in Hev1 as [Hin Hne]. split; [assumption |].
    intros [= Heq]. rewrite Heq, Nat.eqb_refl in Hne. discriminate. }
  destruct Hev0 as (Hin & Hns).
  destruct (Hown ev Hin) as [Hs | (id & Hid)]; [contradiction |].
  apply (A2 id (SpawnManager.handle ev)).
  - now rewrite S5.
  - apply in_map. exact Hev.
Qed.

(** X17.  Destroying a manager whose clock holds only its own timers
    leaves nothing behind: the clock is empty, there is no schedule, no
    repeating spawn and no live monster, every monster of the list has
    been destroyed, and however long the clock runs afterwards nothing is
    dispatched and nothing spawns. *)
Theorem X17_destroy_leaves_nothing_running :
  forall (m : SpawnManager.SpawnManager) (until : Z) (fuel : nat),
    ownsTimers m ->
    let m' := snd (SpawnManager.destroy m) in
    SpawnManager.timers (SpawnManager.clock m') = [] /\
    SpawnManager.repeatingSpawns m' = ∅ /\
    SpawnManager.currentSchedule m' = None /\
    SpawnManager.getMonsters m' = [] /\
    fst (SpawnManager.destroy m)
    = map Monster.destroy (SpawnManager.getMonsters m) /\
    Forall (fun g => Monster.isAlive g = false /\
                     active (Monster.sprite g) = false)
           (fst (SpawnManager.destroy m)) /\
    exists m'',
      SpawnManager.run fuel until m' = Some m'' /\
      SpawnManager.getMonsters m'' = [] /\
      SpawnManager.dispatched (SpawnManager.clock m'')
      = SpawnManager.dispatched (SpawnManager.clock m).
Proof.
  intros m until fuel Hown m'.
  destruct (destroy_spec m Hown) as (Ht & Hrs & Hc & _ & Hm & Hd & Hlog).
  fold m' in Ht, Hrs, Hc, Hm, Hlog.
  split; [exact Ht |]. split; [exact Hrs |]. split; [exact Hc |].
  split; [exact Hm |]. split; [exact Hd |]. split.
  - rewrite Hd. apply Forall_forall. intros g Hg.
    apply list_elem_of_In, in_map_iff in Hg as (g0 & <- & _). simpl. auto.
  - rewrite (run_empty fuel until m' Ht). eexists. split; [reflexivity |].
    unfold SpawnManager.getMonsters in *. simpl. auto.
Qed.

(** The manager of the game scene with its goblin spawn and a schedule,
    after a wave of three goblins. *)
Lemma X17_destroy_leaves_nothing_running_witness :
  let w := SpawnManager.mkSpawnWave 0
             [SpawnManager.mkSpawnEvent SpawnManager.goblin 3 None] in
  let sc := SpawnManager.mkSpawnSchedule
              [w; SpawnManager.mkSpawnWave 5000 []] None None in
  let cfg := SpawnManager.mkRepeatingSpawnConfig SpawnManager.goblin 5000 1 None in
  let m0 :=
    SpawnManager.startSchedule sc
      (SpawnManager.addRepeatingSpawn "goblins" cfg
         (SpawnManager.new (SpawnManager.mkClock 0 [] 0 [])
            (SpawnManager.mkCamera 1088 816 1024 768) (fun _ => 0%R)
            3200 2400)) in
  exists m,
    SpawnManager.run 1 1000 m0 = Some m /\
    length (SpawnManager.getMonsters m) = 3%nat /\
    length (SpawnManager.timers (SpawnManager.clock m)) = 2%nat /\
    SpawnManager.timers (SpawnManager.clock (snd (SpawnManager.destroy m))) = [] /\
    SpawnManager.getMonsters (snd (SpawnManager.destroy m)) = [] /\
    length (fst (SpawnManager.destroy m)) = 3%nat.
Proof.
  cbv zeta.
  eexists. split; [vm_compute; reflexivity |].
  split; [reflexivity |]. split; [reflexivity |].
  match goal with |- context [SpawnManager.destroy ?m] =>
    destruct (X17_destroy_leaves_nothing_running m 0 0)
      as (Ht & _ & _ & Hm & Hd & _) end.
  - intros ev [<- | [<- | []]].
    + right. exists "goblins". vm_compute. reflexivity.
    + left. reflexivity.
  - split; [exact Ht |]. split; [exact Hm |]. rewrite Hd.
    rewrite length_map. reflexivity.
Defined.

(** ** The scene: the player's health *)

Lemma heart_row (health : Z) (n : nat) :
  forall j : nat,
    map (Game.heartTexture health) (seq j n)
    = replicate (Z.to_nat (Z.min (Z.max 0 (health - Z.of_nat j)) (Z.of_nat n)))
                "heart"
      ++ replicate
           (n - Z.to_nat (Z.min (Z.max 0 (health - Z.of_nat j)) (Z.of_nat n)))
           "heart-empty".
Proof.
  induction n as [| n IH]; intros j.
  - simpl. replace (Z.to_nat _) with 0%nat by lia. reflexivity.
  - simpl map. rewrite (IH (S j)). unfold Game.heartTexture at 1.
    destruct (Z.of_nat j <? health) eqn:Hj.
    + apply Z.ltb_lt in Hj.
      replace (Z.to_nat (Z.min (Z.max 0 (health - Z.of_nat j)) (Z.of_nat (S n))))
        with (S (Z.to_nat (Z.min (Z.max 0 (health - Z.of_nat (S j))) (Z.of_nat n))))
        by lia.
      reflexivity.
    + apply Z.ltb_ge in Hj.
      replace (Z.to_nat (Z.min (Z.max 0 (health - Z.of_nat j)) (Z.of_nat (S n))))
        with 0%nat by lia.
      replace (Z.to_nat (Z.min (Z.max 0 (health - Z.of_nat (S j))) (Z.of_nat n)))
        with 0%nat by lia.
      simpl. now rewrite Nat.sub_0_r.
Qed.

Lemma imap_heartTexture (health : Z) (l : list string) :
  forall j : nat,
    imap (fun i _ => Game.heartTexture health (j + i)) l
    = map (Game.heartTexture health) (seq j (length l)).
Proof.
  induction l as [| x l IH]; intros j; [reflexivity |].
  simpl. rewrite Nat.add_0_r. f_equal.
  rewrite <- (IH (S j)). apply imap_ext. intros i y _. simpl.
  f_equal. lia.
Qed.

Lemma imap_heartTexture_0 (health : Z) (l : list string) :
  imap (fun i _ => Game.heartTexture health i) l
  = map (Game.heartTexture health) (seq 0 (length l)).
Proof.
  rewrite <- imap_heartTexture. apply imap_ext. reflexivity.
Qed.

(** What the scene's [takeDamage] does, field by field. *)
Lemma scene_takeDamage_spec (amount : Z) (sc : Game.Scene) :
  let sc' := Game.takeDamage amount sc in
  Game.playerHealth sc' = Game.playerHealth sc - amount /\
  Game.heartIcons sc'
  = imap (fun i _ => Game.heartTexture (Game.playerHealth sc - amount) i)
         (Game.heartIcons sc) /\
  Game.started sc'
  = (if Game.playerHealth sc - amount <=? 0 then Some "GameOver"
     else Game.started sc) /\
  Game.spawnManager sc'
  = (if Game.playerHealth sc - amount <=? 0
     then snd (SpawnManager.destroy (Game.spawnManager sc))
     else Game.spawnManager sc) /\
  Game.scene_attacks sc' = Game.scene_attacks sc /\
  Game.maxPlayerHealth sc' = Game.maxPlayerHealth sc.
Proof.
  unfold Game.takeDamage. simpl.
  destruct (Game.playerHealth sc - amount <=? 0); simpl; repeat split.
Qed.

(** X18.  The heart icons always show the health the player is left with:
    after [takeDamage] the first [k] icons are full hearts and the others
    are empty ones, [k] being the new health cut off at 0 and at the
    number of icons. *)
Theorem X18_hearts_show_the_health :
  forall (amount : Z) (sc : Game.Scene),
    let n := length (Game.heartIcons sc) in
    let k :=
      Z.to_nat (Z.min (Z.max 0 (Game.playerHealth sc - amount)) (Z.of_nat n)) in
    Game.heartIcons (Game.takeDamage amount sc)
    = replicate k "heart" ++ replicate (n - k) "heart-empty" /\
    fullHearts (Game.heartIcons (Game.takeDamage amount sc)) = k.
Proof.
  intros amount sc n k.
  destruct (scene_takeDamage_spec amount sc) as (_ & Hicons & _).
  assert (Hrow : Game.heartIcons (Game.takeDamage amount sc)
                 = replicate k "heart" ++ replicate (n - k) "heart-empty").
  { rewrite Hicons.
    rewrite imap_heartTexture_0, heart_row. now rewrite Z.sub_0_r. }
  split; [exact Hrow |].
  rewrite Hrow. unfold fullHearts. rewrite List.filter_app, length_app.
  clear. generalize (n - k)%nat as e.
  induction k as [| k IH]; intros e; simpl.
  - induction e as [| e IHe]; [reflexivity | exact IHe].
  - now rewrite IH.
Qed.



(** X20.  The scene's collision handler damages the player only through a
    monster that is in the live list, alive and past its cooldown.  In
    every other case the scene is left exactly as it was.  When it does
    damage, the player loses the monster's [damage], the monster's
    cooldown is stamped with the clock's time, and while the player
    survives nothing else in the live list changes. *)
Theorem X20_collision_damage_is_gated :
  forall (i : nat) (sc : Game.Scene),
    let ms := SpawnManager.getMonsters (Game.spawnManager sc) in
    let t := SpawnManager.now (SpawnManager.clock (Game.spawnManager sc)) in
    let sc' := Game.handleMonsterPlayerCollision i sc in
    (ms !! i = None -> sc' = sc) /\
    (forall monster,
        ms !! i = Some monster ->
        (Monster.isAlive monster = false -> sc' = sc) /\
        (t - Monster.lastAttackTime monster
         < Monster.attackCooldown (Monster.config monster) -> sc' = sc) /\
        (Monster.isAlive monster = true ->
         t - Monster.lastAttackTime monster
         >= Monster.attackCooldown (Monster.config monster) ->
         Game.playerHealth sc'
         = Game.playerHealth sc - Monster.damage (Monster.config monster) /\
         (0 < Game.playerHealth sc' ->
          Game.started sc' = Game.started sc /\
          SpawnManager.getMonsters (Game.spawnManager sc')
          = <[i := snd (Monster.canDealDamage t monster)]> ms /\
          Monster.lastAttackTime (snd (Monster.canDealDamage t monster)) = t))).
Proof.
  intros i sc ms t sc'. subst sc'. unfold Game.handleMonsterPlayerCollision.
  fold ms. split.
  - intros ->. reflexivity.
  - intros monster ->. unfold Monster.getIsAlive. fold t.
    unfold Monster.canDealDamage.
    destruct (t - Monster.lastAttackTime monster
              >=? Monster.attackCooldown (Monster.config monster)) eqn:Hc.
    + split; [intros ->; reflexivity |]. split; [lia |].
      intros -> _. simpl.
      match goal with |- context [Game.takeDamage ?a ?s] =>
        set (a0 := a); set (s0 := s) end.
      destruct (scene_takeDamage_spec a0 s0) as (Hh & _ & Hst & Hsm & _).
      rewrite Hh, Hst, Hsm.
      assert (Ha0 : a0 = Monster.damage (Monster.config monster))
        by reflexivity.
      assert (Hs0 : Game.playerHealth s0 = Game.playerHealth sc)
        by reflexivity.
      rewrite Ha0, Hs0. split; [reflexivity |].
      intros Hpos.
      destruct (Game.playerHealth sc - Monster.damage (Monster.config monster)
                <=? 0) eqn:Hz; [apply Z.leb_le in Hz; lia |].
      subst s0. simpl. repeat split.
    + split; [intros ->; reflexivity |]. split; [| lia].
      intros _. now destruct (Monster.isAlive monster).
Qed.

(** ** The scene: one tick *)

Lemma Rneqb_true (a b : R) : Rneqb a b = true -> a <> b.
Proof. unfold Rneqb. destruct (Req_dec_T a b); [discriminate | trivial]. Qed.

Lemma sqrt_40000 : sqrt 40000 = 200%R.
Proof. apply sqrt_lem_1; lra. Qed.

(** The player's velocity for a key velocity whose components are 0 or
    of size 200. *)
Lemma player_velocity (vx vy : R) (p : Sprite) :
  vx = 0%R \/ (vx * vx = 40000)%R -> vy = 0%R \/ (vy * vy = 40000)%R ->
  exists p',
    (if Rneqb vx 0 && Rneqb vy 0
     then Game.normalizeScale Game.PLAYER_SPEED (setVelocity vx vy p)
     else Some (setVelocity vx vy p)) = Some p' /\
    sid p' = sid p /\ sprite_x p' = sprite_x p /\ sprite_y p' = sprite_y p /\
    data p' = data p /\
    (vx = 0%R -> vy = 0%R -> velocityX p' = 0%R /\ velocityY p' = 0%R) /\
    (vx <> 0%R \/ vy <> 0%R ->
     sqrt (velocityX p' * velocityX p' + velocityY p' * velocityY p')
     = Game.PLAYER_SPEED) /\
    ((vx < 0)%R -> (velocityX p' < 0)%R) /\
    ((vy < 0)%R -> (velocityY p' < 0)%R).
Proof.
  intros Hx Hy. unfold Game.PLAYER_SPEED.
  destruct (Req_dec_T vx 0) as [Hx0 | Hxn];
    destruct (Req_dec_T vy 0) as [Hy0 | Hyn].
  - subst. rewrite Rneqb_refl. simpl. eexists. split; [reflexivity |]. simpl.
    repeat split; auto; try lra; try (intros [H | H]; contradiction).
  - subst vx. rewrite Rneqb_refl. simpl.
    destruct Hy as [-> | Hy]; [contradiction |].
    eexists. split; [reflexivity |]. simpl.
    repeat split; auto; try lra; try contradiction.
    intros _. replace (0 * 0 + vy * vy)%R with 40000%R by lra.
    apply sqrt_40000.
  - subst vy. rewrite Rneqb_refl, andb_false_r.
    destruct Hx as [-> | Hx]; [contradiction |].
    eexists. split; [reflexivity |]. simpl.
    repeat split; auto; try lra; try contradiction.
    intros _. replace (vx * vx + 0 * 0)%R with 40000%R by lra.
    apply sqrt_40000.
  - destruct Hx as [-> | Hx]; [contradiction |].
    destruct Hy as [-> | Hy]; [contradiction |].
    rewrite (Rneqb_neq _ _ Hxn), (Rneqb_neq _ _ Hyn).
    unfold Game.normalizeScale. simpl.
    assert (Hlen : (0 < vx * vx + vy * vy)%R) by lra.
    rewrite (Rltb_true _ _ Hlen).
    assert (Hs : (0 < sqrt (vx * vx + vy * vy))%R) by now apply sqrt_lt_R0.
    rewrite div_nonzero by lra. simpl.
    assert (Hsq : (sqrt (vx * vx + vy * vy) * sqrt (vx * vx + vy * vy)
                   = vx * vx + vy * vy)%R) by (apply sqrt_sqrt; lra).
    set (s := sqrt (vx * vx + vy * vy)) in *.
    assert (Hinv : (0 < 1 / s)%R) by (apply Rdiv_lt_0_compat; lra).
    eexists. split; [reflexivity |]. simpl.
    split; [reflexivity |]. split; [reflexivity |]. split; [reflexivity |].
    split; [reflexivity |]. split; [intros; contradiction |].
    split; [| split; intros; nra].
    intros _.
    replace (vx * (1 / s) * 200 * (vx * (1 / s) * 200)
             + vy * (1 / s) * 200 * (vy * (1 / s) * 200))%R
      with ((vx * vx + vy * vy) / (s * s) * 40000)%R by (field; lra).
    rewrite Hsq.
    replace ((vx * vx + vy * vy) / (vx * vx + vy * vy) * 40000)%R
      with 40000%R by (field; lra).
    apply sqrt_40000.
Qed.

Lemma inputVelocity_values (k : Game.Keys) :
  let vx := fst (Game.inputVelocity k) in
  let vy := snd (Game.inputVelocity k) in
  (vx = 0%R \/ (vx * vx = 40000)%R) /\ (vy = 0%R \/ (vy * vy = 40000)%R) /\
  (anyKeyDown k = false -> vx = 0%R /\ vy = 0%R) /\
  (anyKeyDown k = true -> vx <> 0%R \/ vy <> 0%R) /\
  (Game.cursor_left k || Game.key_A k = true -> (vx < 0)%R) /\
  (Game.cursor_up k || Game.key_W k = true -> (vy < 0)%R).
Proof.
  unfold Game.inputVelocity, anyKeyDown, Game.PLAYER_SPEED. simpl.
  destruct (Game.cursor_left k), (Game.key_A k), (Game.cursor_right k),
    (Game.key_D k), (Game.cursor_up k), (Game.key_W k),
    (Game.cursor_down k), (Game.key_S k); simpl;
    (split; [lra |]); (split; [lra |]);
    (split; [intros H; try discriminate; split; reflexivity |]);
    (split; [intros H; try discriminate; lra |]);
    split; intros H; try discriminate; lra.
Qed.

Lemma updateAttacks_spec (player : Sprite) (time : Z) (vx vy : R)
  (attacks : list Attack.Attack) :
  forall count : nat,
  exists attacks',
    Game.updateAttacks player time vx vy count attacks
    = Some (attacks', (count + length attacks)%nat) /\
    Forall2 (fun a a' => Attack.config a' = Attack.config a) attacks attacks'.
Proof.
  induction attacks as [| a attacks IH]; intros count; simpl.
  - exists []. rewrite Nat.add_0_r. split; [reflexivity | constructor].
  - assert (Hdir : exists a1,
               (if Rneqb vx 0 || Rneqb vy 0
                then Attack.updateDirection vx vy a else Some a) = Some a1 /\
               Attack.config a1 = Attack.config a).
    { destruct (Rneqb vx 0 || Rneqb vy 0) eqn:Hnz; [| eauto].
      assert (Hne : vx <> 0%R \/ vy <> 0%R).
      { apply orb_true_iff in Hnz as [H | H]; [left | right];
          now apply Rneqb_true. }
      destruct (updateDirection_nonzero vx vy a Hne) as (-> & _).
      eexists. split; [reflexivity | reflexivity]. }
    destruct Hdir as (a1 & -> & Hc). simpl.
    destruct (IH (S count)) as (attacks' & -> & HF). simpl.
    eexists. split; [f_equal; f_equal; lia |].
    constructor; [| exact HF].
    rewrite <- Hc. unfold Attack.update. now destruct (_ >=? _).
Qed.

(** One tick, in its parts. *)
Lemma scene_update_spec (time : Z) (k : Game.Keys) (sc : Game.Scene) :
  Forall (fun a => 0 <= Attack.getDamage a) (Game.scene_attacks sc) ->
  exists sc' p' live,
    Game.update time k sc = Some sc' /\
    Game.scene_player sc' = p' /\
    (if Rneqb (fst (Game.inputVelocity k)) 0
        && Rneqb (snd (Game.inputVelocity k)) 0
     then Game.normalizeScale Game.PLAYER_SPEED
            (setVelocity (fst (Game.inputVelocity k))
                         (snd (Game.inputVelocity k))
                         (setVelocity 0 0 (Game.scene_player sc)))
     else Some (setVelocity (fst (Game.inputVelocity k))
                            (snd (Game.inputVelocity k))
                            (setVelocity 0 0 (Game.scene_player sc))))
    = Some p' /\
    Forall2 steered
      (List.filter Monster.isAlive
                   (SpawnManager.getMonsters (Game.spawnManager sc))) live /\
    Forall2 struck live (SpawnManager.getMonsters (Game.spawnManager sc')) /\
    length (Game.scene_attacks sc') = length (Game.scene_attacks sc) /\
    SpawnManager.clock (Game.spawnManager sc')
    = SpawnManager.clock (Game.spawnManager sc) /\
    Game.playerHealth sc' = Game.playerHealth sc /\
    Game.heartIcons sc' = Game.heartIcons sc /\
    Game.started sc' = Game.started sc.
Proof.
  intros Hdmg. unfold Game.update.
  destruct (inputVelocity_values k) as (Hx & Hy & _).
  remember (fst (Game.inputVelocity k)) as vx eqn:Hvx.
  remember (snd (Game.inputVelocity k)) as vy eqn:Hvy.
  clear Hvx Hvy.
  destruct (player_velocity vx vy (setVelocity 0 0 (Game.scene_player sc)) Hx Hy)
    as (p' & Hp & _).
  rewrite Hp. simpl.
  destruct (updateAttacks_spec p' time vx vy (Game.scene_attacks sc)
              (Game.spriteCount sc)) as (attacks' & -> & Hcfg).
  simpl.
  unfold SpawnManager.update.
  destruct (updateMonsters_spec p'
              (SpawnManager.monsters
                 (SpawnManager.spawner (Game.spawnManager sc))))
    as (live & -> & Hlive).
  simpl. unfold Game.checkAttackCollisions. simpl.
  assert (Hdmg' : Forall (fun a => 0 <= Attack.getDamage a) attacks').
  { clear -Hdmg Hcfg.
    induction Hcfg as [| a a' l l' Hc HF IH]; constructor.
    - inversion Hdmg; subst. unfold Attack.getDamage in *. now rewrite Hc.
    - apply IH. now inversion Hdmg. }
  destruct (hitAttacks_spec p' attacks' Hdmg' live)
    as (attacks'' & ms' & Hhit & Hatt & Hms).
  unfold SpawnManager.getMonsters. simpl. rewrite Hhit. simpl.
  eexists. exists p', live. split; [reflexivity |]. simpl.
  repeat split; auto.
  rewrite <- (Forall2_length _ _ _ Hatt). symmetry.
  exact (Forall2_length _ _ _ Hcfg).
Qed.

(** X21.  Whatever keys are down, a tick returns normally and leaves the
    player either at rest (no movement key down) or moving at exactly
    [PLAYER_SPEED], also along a diagonal; opposite keys do not cancel
    (left and up win).  The tick does not move the player's sprite itself
    and does not touch the player's health. *)
Theorem X21_player_moves_at_player_speed :
  forall (time : Z) (k : Game.Keys) (sc : Game.Scene),
    Forall (fun a => 0 <= Attack.getDamage a) (Game.scene_attacks sc) ->
    exists sc',
      Game.update time k sc = Some sc' /\
      let p' := Game.scene_player sc' in
      (anyKeyDown k = false -> velocityX p' = 0%R /\ velocityY p' = 0%R) /\
      (anyKeyDown k = true ->
       sqrt (velocityX p' * velocityX p' + velocityY p' * velocityY p')
       = Game.PLAYER_SPEED) /\
      (Game.cursor_left k || Game.key_A k = true -> (velocityX p' < 0)%R) /\
      (Game.cursor_up k || Game.key_W k = true -> (velocityY p' < 0)%R) /\
      sprite_x p' = sprite_x (Game.scene_player sc) /\
      sprite_y p' = sprite_y (Game.scene_player sc) /\
      Game.playerHealth sc' = Game.playerHealth sc.
Proof.
  intros time k sc Hdmg.
  destruct (scene_update_spec time k sc Hdmg)
    as (sc' & p' & live & Hupd & Hp' & Hp & _ & _ & _ & _ & Hh & _).
  exists sc'. split; [exact Hupd |]. cbv zeta. rewrite Hp'.
  destruct (inputVelocity_values k) as (Hx & Hy & Hnone & Hsome & Hleft & Hup).
  destruct (player_velocity _ _ (setVelocity 0 0 (Game.scene_player sc)) Hx Hy)
    as (p'' & Hp2 & _ & Hpx & Hpy & _ & Hrest & Hmove & Hnx & Hny).
  rewrite Hp in Hp2. injection Hp2 as <-.
  split; [intros H; destruct (Hnone H); auto |].
  split; [intros H; apply Hmove, Hsome, H |].
  split; [intros H; apply Hnx, Hleft, H |].
  split; [intros H; apply Hny, Hup, H |].
  auto.
Qed.

Lemma X21_player_moves_at_player_speed_witness :
  let sm :=
    SpawnManager.new (SpawnManager.mkClock 0 [] 0 [])
      (SpawnManager.mkCamera 1088 816 1024 768) (fun _ => 0%R) 3200 2400 in
  let sc :=
    Game.mkScene (newSprite 0 1600 1200 "player")
                 [Attack.new Attack.DEFAULT_AXE_HACK_CONFIG] sm 5 5 [] [] None 0 in
  let k := Game.mkKeys false true false true false false false false in
  exists sc',
    Game.update 16 k sc = Some sc' /\
    sqrt (velocityX (Game.scene_player sc') * velocityX (Game.scene_player sc')
          + velocityY (Game.scene_player sc') * velocityY (Game.scene_player sc'))
    = Game.PLAYER_SPEED.
Proof.
  cbv zeta.
  match goal with |- exists sc', Game.update 16 ?k ?sc = _ /\ _ =>
    destruct (X21_player_moves_at_player_speed 16 k sc)
      as (sc' & Hupd & _ & Hspeed & _) end.
  - constructor; [| constructor]. unfold Attack.getDamage. simpl. lia.
  - exists sc'. split; [exact Hupd |]. apply Hspeed. reflexivity.
Defined.

(** X22.  A tick neither adds a monster to the live list nor reorders it:
    the list after the tick is the list of the monsters that were alive
    before it, each first steered by its own [update] and then struck at
    most by the combat pass.  A monster that is dead when the tick starts
    is gone after it; the clock and the attacks' number are as before. *)
Theorem X22_tick_prunes_and_strikes :
  forall (time : Z) (k : Game.Keys) (sc : Game.Scene),
    Forall (fun a => 0 <= Attack.getDamage a) (Game.scene_attacks sc) ->
    exists sc' live,
      Game.update time k sc = Some sc' /\
      Forall2 steered
        (List.filter Monster.isAlive
                     (SpawnManager.getMonsters (Game.spawnManager sc))) live /\
      Forall2 struck live (SpawnManager.getMonsters (Game.spawnManager sc')) /\
      map (fun g => sid (Monster.sprite g))
          (SpawnManager.getMonsters (Game.spawnManager sc'))
      = map (fun g => sid (Monster.sprite g))
            (List.filter Monster.isAlive
                         (SpawnManager.getMonsters (Game.spawnManager sc))) /\
      length (Game.scene_attacks sc') = length (Game.scene_attacks sc) /\
      SpawnManager.clock (Game.spawnManager sc')
      = SpawnManager.clock (Game.spawnManager sc).
Proof.
  intros time k sc Hdmg.
  destruct (scene_update_spec time k sc Hdmg)
    as (sc' & p' & live & Hupd & _ & _ & Hst & Hsk & Hlen & Hclk & _).
  exists sc', live. repeat split; try assumption.
  clear -Hst Hsk.
  revert Hsk. generalize (SpawnManager.getMonsters (Game.spawnManager sc')).
  induction Hst as [| g g1 l l1 Hg Hst IH]; intros l2 Hsk;
    inversion Hsk as [| ? g2 ? l2' Hg2 Hsk']; subst; [reflexivity |].
  simpl. f_equal.
  - destruct Hg2 as (-> & _). now destruct (steered_keeps g g1 Hg) as (_ & _ & _ & -> & _).
  - now apply IH.
Qed.

Lemma X22_tick_prunes_and_strikes_witness :
  let sm0 :=
    SpawnManager.new (SpawnManager.mkClock 0 [] 0 [])
      (SpawnManager.mkCamera 1088 816 1024 768) (fun _ => 0%R) 3200 2400 in
  let sm :=
    SpawnManager.with_spawner
      (SpawnManager.mkSpawner
         [Goblin.new 1 1700 1200 None;
          Monster.destroy (Goblin.new 2 1500 1200 None);
          Goblin.new 3 1600 1300 None] 6 3) sm0 in
  let sc :=
    Game.mkScene (newSprite 0 1600 1200 "player")
                 [Attack.new Attack.DEFAULT_AXE_HACK_CONFIG] sm 5 5 [] [] None 4 in
  let k := Game.mkKeys false false false false false false false false in
  exists sc',
    Game.update 16 k sc = Some sc' /\
    map (fun g => sid (Monster.sprite g))
        (SpawnManager.getMonsters (Game.spawnManager sc')) = [1%nat; 3%nat].
Proof.
  cbv zeta.
  match goal with |- exists sc', Game.update 16 ?k ?sc = _ /\ _ =>
    destruct (X22_tick_prunes_and_strikes 16 k sc)
      as (sc' & live & Hupd & _ & _ & Hids & _) end.
  - constructor; [| constructor]. unfold Attack.getDamage. simpl. lia.
  - exists sc'. split; [exact Hupd | exact Hids].
Defined.
